(** * Peloton: goal-state tracker, batch placement, recovery and utilities

    A shallow embedding of the parts of the Peloton sources that the
    specification's testable properties talk about:

    - [tracked]: the cached task of jobmgr/tracked/task.go
      ([UpdateRuntime], [reloadRuntime], [RunAction]);
    - [batch]: the batch placement strategy ([availablePorts], [fillOffer]);
    - [offer]: the host-offer pool with expiry;
    - [goalstate]: the failure step of the rolling-update run;
    - [recovery]: jobmgr/job/recovery.go ([recoverJob], [createTaskForJob]);
    - [util]: the Mesos state translation and the task-id parser.

    Unsigned machine integers are [N]; where the source can wrap around
    (uint64 arithmetic on port ranges) the wrap is written out.  Points in
    time and durations are integers (nanoseconds).  Logging and metrics are
    out of the specification's scope and are not part of the state. *)

From Stdlib Require Import ZArith NArith QArith Lia Lqa PrimFloat.
From Stdlib Require Import Ascii String DecimalString DecimalPos.
From stdpp Require Import base decidable option list gmap strings.

Close Scope Q_scope.
Local Open Scope string_scope.
Local Open Scope Z_scope.

(** ** Shared data model *)

(** Go's [error]: a message, [None] standing for [nil]. *)
Definition error := string.

(** [time.Time] and [time.Duration], in nanoseconds. *)
Definition Time := Z.
Definition Duration := Z.

Module pb_task.

(** peloton/api/task TaskState: the constants the sources name.  [UNKNOWN]
    is the zero value, what a getter returns on a nil message. *)
Inductive TaskState :=
| UNKNOWN | INITIALIZED | PENDING | LAUNCHED | RUNNING | SUCCEEDED
| FAILED | LOST | PREEMPTING | KILLING | KILLED | DELETED.

Inductive HealthState :=
| HEALTH_UNKNOWN | HEALTHY | UNHEALTHY | INVALID.

(** peloton.ChangeLog, the revision of a stored record. *)
Record ChangeLog := { Version : N }.

Record RuntimeInfo := {
  State : TaskState;
  GoalState : TaskState;
  MesosTaskId : option string;
  ConfigVersion : N;
  DesiredConfigVersion : N;
  FailureCount : N;
  Healthy : HealthState;
  Revision : option ChangeLog
}.

#[global] Instance TaskState_eq_dec : EqDecision TaskState.
Proof. solve_decision. Defined.
#[global] Instance HealthState_eq_dec : EqDecision HealthState.
Proof. solve_decision. Defined.
#[global] Instance ChangeLog_eq_dec : EqDecision ChangeLog.
Proof. solve_decision. Defined.
#[global] Instance RuntimeInfo_eq_dec : EqDecision RuntimeInfo.
Proof. solve_decision. Defined.

(** The generated getters are nil-safe: on a nil receiver they return the
    zero value. *)
Definition GetRevision (r : option RuntimeInfo) : option ChangeLog :=
  match r with Some ri => Revision ri | None => None end.

Definition GetVersion (c : option ChangeLog) : N :=
  match c with Some cl => Version cl | None => 0%N end.

Definition GetState (r : option RuntimeInfo) : TaskState :=
  match r with Some ri => State ri | None => UNKNOWN end.

Definition GetGoalState (r : option RuntimeInfo) : TaskState :=
  match r with Some ri => GoalState ri | None => UNKNOWN end.

Definition GetConfigVersion (r : option RuntimeInfo) : N :=
  match r with Some ri => ConfigVersion ri | None => 0%N end.

Definition GetDesiredConfigVersion (r : option RuntimeInfo) : N :=
  match r with Some ri => DesiredConfigVersion ri | None => 0%N end.

End pb_task.

(** ** jobmgr/tracked/task.go *)

Module tracked.
Import pb_task.

(** [type TaskAction string] with its constants. *)
Definition TaskAction := string.

Definition NoAction : TaskAction := "no_action".
Definition KilledAction : TaskAction := "killed".
Definition StartAction : TaskAction := "start_task".
Definition StopAction : TaskAction := "stop_task".
Definition PreemptAction : TaskAction := "preempt_action".
Definition InitializeAction : TaskAction := "initialize_task".
Definition UseGoalVersionAction : TaskAction := "use_goal_state".
Definition ReloadTaskRuntime : TaskAction := "reload_runtime".
Definition FailAction : TaskAction := "fail".
Definition LaunchRetryAction : TaskAction := "launch_retry".
Definition NotifyLaunchedTasksAction : TaskAction := "notify_launched_task".
Definition FailRetryAction : TaskAction := "fail_retry".

(** The [task] struct.  [job] is the owning job's id (the struct holds a
    pointer to the job, never modified here); a nil [runtime] is [None]. *)
Record task := {
  job : string;
  id : N;
  runtime : option RuntimeInfo;
  lastAction : TaskAction;
  lastActionTime : Time;
  lastRuntimeUpdateTime : Time;
  killingAttempts : Z
}.

Definition set_runtime (r : option RuntimeInfo) (t : task) : task :=
  {| job := job t; id := id t; runtime := r;
     lastAction := lastAction t; lastActionTime := lastActionTime t;
     lastRuntimeUpdateTime := lastRuntimeUpdateTime t;
     killingAttempts := killingAttempts t |}.

Definition set_lastRuntimeUpdateTime (now : Time) (t : task) : task :=
  {| job := job t; id := id t; runtime := runtime t;
     lastAction := lastAction t; lastActionTime := lastActionTime t;
     lastRuntimeUpdateTime := now;
     killingAttempts := killingAttempts t |}.

Definition set_lastAction (a : TaskAction) (now : Time) (t : task) : task :=
  {| job := job t; id := id t; runtime := runtime t;
     lastAction := a; lastActionTime := now;
     lastRuntimeUpdateTime := lastRuntimeUpdateTime t;
     killingAttempts := killingAttempts t |}.

Definition set_killingAttempts (k : Z) (t : task) : task :=
  {| job := job t; id := id t; runtime := runtime t;
     lastAction := lastAction t; lastActionTime := lastActionTime t;
     lastRuntimeUpdateTime := lastRuntimeUpdateTime t;
     killingAttempts := k |}.

Definition newTask (j : string) (i : N) : task :=
  {| job := j; id := i; runtime := None;
     lastAction := EmptyString; lastActionTime := 0;
     lastRuntimeUpdateTime := 0; killingAttempts := 0 |}.

(** [reflect.DeepEqual] on two [*RuntimeInfo]: both nil, or both set and
    equal field by field. *)
Definition DeepEqual (a b : option RuntimeInfo) : bool := bool_decide (a = b).

(** The revision a (possibly nil) runtime carries:
    [r.GetRevision().GetVersion()]. *)
Definition revisionOf (r : option RuntimeInfo) : N :=
  GetVersion (GetRevision r).

(** [func (t *task) UpdateRuntime(runtime *pb_task.RuntimeInfo)];
    [now] is what [time.Now()] returns.  The statements follow the source
    one by one: the same-revision branch assigns nil and then falls
    through to the assignment below it. *)
Definition UpdateRuntime (t : task) (runtime' : option RuntimeInfo)
    (now : Time) : task :=
  if DeepEqual (runtime t) runtime' then t
  else if (revisionOf runtime' <? revisionOf (runtime t))%N then t
  else
    let t1 :=
      if bool_decide (runtime t <> None)
         && (revisionOf (runtime t) =? revisionOf runtime')%N
      then set_runtime None t
      else t in
    let t2 := set_runtime runtime' t1 in
    set_lastRuntimeUpdateTime now t2.

Definition GetRunTime (t : task) : option RuntimeInfo := runtime t.
Definition GetLastRuntimeUpdateTime (t : task) : Time :=
  lastRuntimeUpdateTime t.

Definition ClearKillAttempts (t : task) : task := set_killingAttempts 0 t.
Definition IncrementKillAttempts (t : task) : task :=
  set_killingAttempts (killingAttempts t + 1) t.

(** What [RunAction] returns, together with the task it leaves behind:
    [(reschedule, err)]. *)
Record ActionResult := {
  after : task;
  reschedule : bool;
  err : option error
}.

Record PreemptionPolicy := { KillOnPreempt : bool }.
Record TaskConfig := { GetPreemptionPolicy : option PreemptionPolicy }.

(** A store call either fails or delivers its record. *)
Inductive result (A : Type) :=
| Ok (a : A)
| Err (e : error).
Arguments Ok {A} a.
Arguments Err {A} e.

Section Actions.

(** The task store, as the task reaches it through [t.job.m.taskStore]. *)
Variable GetTaskRuntime : string -> N -> result RuntimeInfo.
Variable GetTaskConfig : string -> N -> N -> result TaskConfig.

(** Methods of [task] and of the manager that live in other files of the
    package; each returns the task it leaves behind and its error. *)
Variable start : task -> task * option error.
Variable stop : task -> task * option error.
Variable initialize : task -> task * option error.
Variable launchRetry : task -> task * option error.
Variable sendLaunchInfoToResMgr : task -> task * option error.
Variable failureRetry : task -> task * (bool * option error).
Variable UpdateTaskRuntime : task -> RuntimeInfo -> task * option error.

(** [func (t *task) reloadRuntime(ctx) error]. *)
Definition reloadRuntime (t : task) (now : Time) : task * option error :=
  match GetTaskRuntime (job t) (id t) with
  | Err e => (t, Some e)
  | Ok r =>
      let t' := UpdateRuntime t (Some r) now in
      (t', Some "runtime reloaded after error")
  end.

Definition getTaskPreemptionPolicy (t : task) (configVersion : N)
    : result (option PreemptionPolicy) :=
  match GetTaskConfig (job t) (id t) configVersion with
  | Err e => Err e
  | Ok config => Ok (GetPreemptionPolicy config)
  end.

Definition getPostPreemptAction (t : task) : result TaskAction :=
  match getTaskPreemptionPolicy t
          (GetDesiredConfigVersion (runtime t)) with
  | Err e => Err ("unable to get task preemption policy: " ++ e)
  | Ok pp =>
      match pp with
      | Some p => if KillOnPreempt p then Ok NoAction
                  else Ok InitializeAction
      | None => Ok InitializeAction
      end
  end.

Definition with_flag (r : task * option error) : ActionResult :=
  {| after := fst r;
     reschedule := match snd r with None => false | Some _ => true end;
     err := snd r |}.

Definition keep_flag (r : task * option error) : ActionResult :=
  {| after := fst r; reschedule := true; err := snd r |}.

(** The body of [RunAction]'s switch for every action but
    [PreemptAction].  [now] is the [time.Now()] of the action's own
    calls.  In the [FailAction] case the source declares a new [err]
    with [:=]; the function's own [err] stays nil. *)
Definition runSwitch (action : TaskAction) (t : task) (now : Time)
    : ActionResult :=
  if String.eqb action NoAction then
    {| after := t; reschedule := false; err := None |}
  else if String.eqb action KilledAction then
    {| after := ClearKillAttempts t; reschedule := false; err := None |}
  else if String.eqb action StartAction then with_flag (start t)
  else if String.eqb action StopAction then with_flag (stop t)
  else if String.eqb action InitializeAction then keep_flag (initialize t)
  else if String.eqb action FailAction then
    match GetTaskRuntime (job t) (id t) with
    | Err e => {| after := t; reschedule := true; err := Some e |}
    | Ok r =>
        let r' := {| State := FAILED; GoalState := GoalState r;
                     MesosTaskId := MesosTaskId r;
                     ConfigVersion := ConfigVersion r;
                     DesiredConfigVersion := DesiredConfigVersion r;
                     FailureCount := FailureCount r;
                     Healthy := Healthy r; Revision := Revision r |} in
        {| after := fst (UpdateTaskRuntime t r');
           reschedule := true; err := None |}
    end
  else if String.eqb action LaunchRetryAction then
    keep_flag (launchRetry t)
  else if String.eqb action NotifyLaunchedTasksAction then
    keep_flag (sendLaunchInfoToResMgr t)
  else if String.eqb action ReloadTaskRuntime then
    keep_flag (reloadRuntime t now)
  else if String.eqb action FailRetryAction then
    let r := failureRetry t in
    {| after := fst r; reschedule := fst (snd r); err := snd (snd r) |}
  else
    {| after := t; reschedule := true;
       err := Some ("no command configured for running task action `"
                    ++ action ++ "`") |}.

(** [func (t *task) RunAction(ctx, action) (bool, error)].  It records
    the action and its time ([nowAction]) and runs the switch.
    [PreemptAction] calls [RunAction] again with the action that
    [getPostPreemptAction] chose, which is never [PreemptAction]; when
    that choice fails, the wrapped error goes to the shadowing variable
    and the function returns [true, nil]. *)
Definition RunAction (action : TaskAction) (t : task)
    (nowAction now : Time) : ActionResult :=
  let t0 := set_lastAction action nowAction t in
  if String.eqb action PreemptAction then
    match getPostPreemptAction t0 with
    | Err _ => {| after := t0; reschedule := true; err := None |}
    | Ok action' =>
        runSwitch action' (set_lastAction action' nowAction t0) now
    end
  else runSwitch action t0 now.

End Actions.

(** *** Sample data *)

Definition runtime_rev (s : TaskState) (v : N) : RuntimeInfo :=
  {| State := s; GoalState := RUNNING; MesosTaskId := Some "job-0-1";
     ConfigVersion := 1; DesiredConfigVersion := 1; FailureCount := 0;
     Healthy := HEALTHY; Revision := Some {| Version := v |} |}.

Definition cached_at (r : option RuntimeInfo) : task :=
  {| job := "job"; id := 0; runtime := r;
     lastAction := NoAction; lastActionTime := 10;
     lastRuntimeUpdateTime := 20; killingAttempts := 0 |}.

Definition store_with (r : RuntimeInfo) : string -> N -> result RuntimeInfo :=
  fun _ _ => Ok r.

Definition no_config : string -> N -> N -> result TaskConfig :=
  fun _ _ _ => Err "no config".

Definition idle (t : task) : task * option error := (t, None).
Definition idleRetry (t : task) : task * (bool * option error) :=
  (t, (false, None)).
Definition idleUpdate (t : task) (r : RuntimeInfo) : task * option error :=
  (set_runtime (Some r) t, None).

(** [RunAction] over a store that holds [r] for every task. *)
Definition sampleRunAction (r : RuntimeInfo) :=
  RunAction (store_with r) no_config idle idle idle idle idle idleRetry
            idleUpdate.

(** A store whose task configs carry a kill-on-preempt policy, and a
    manager whose runtime writes fail. *)
Definition config_kill : string -> N -> N -> result TaskConfig :=
  fun _ _ _ =>
    Ok {| GetPreemptionPolicy := Some {| KillOnPreempt := true |} |}.

Definition failingUpdate (t : task) (r : RuntimeInfo)
    : task * option error :=
  (t, Some "write failed").

Definition sampleRunActionWith
    (config : string -> N -> N -> result TaskConfig)
    (update : task -> RuntimeInfo -> task * option error)
    (r : RuntimeInfo) :=
  RunAction (store_with r) config idle idle idle idle idle idleRetry update.

End tracked.

(** ** Mesos offers and scalar resources *)

(** [wrap64 z] is [z] as a uint64: the value modulo 2^64. *)
Definition wrap64 (z : Z) : N := Z.to_N (z mod 2 ^ 64).

(** [wrap32 z] is [z] as a uint32. *)
Definition wrap32 (z : Z) : N := Z.to_N (z mod 2 ^ 32).

Module mesos_v1.

(** [Value_Range]: an inclusive range of uint64. *)
Record Value_Range := { Begin : N; End_ : N }.

(** [Resource]: a name, a scalar value (when it is a scalar) and ranges
    (when it is a range resource such as ports).  Scalars are float64 in
    the source; here they are exact rationals. *)
Record Resource := {
  Name : string;
  Scalar : option Q;
  Ranges : list Value_Range
}.

End mesos_v1.

Module scalar.

(** hostmgr/scalar [Resources]: cpu, mem, disk, gpu. *)
Record Resources := { CPU : Q; Mem : Q; Disk : Q; GPU : Q }.

Definition Contains (r other : Resources) : bool :=
  Qle_bool (CPU other) (CPU r) && Qle_bool (Mem other) (Mem r)
  && Qle_bool (Disk other) (Disk r) && Qle_bool (GPU other) (GPU r).

Definition Subtract (r other : Resources) : Resources :=
  {| CPU := (CPU r - CPU other)%Q; Mem := (Mem r - Mem other)%Q;
     Disk := (Disk r - Disk other)%Q; GPU := (GPU r - GPU other)%Q |}.

Definition Add (r other : Resources) : Resources :=
  {| CPU := (CPU r + CPU other)%Q; Mem := (Mem r + Mem other)%Q;
     Disk := (Disk r + Disk other)%Q; GPU := (GPU r + GPU other)%Q |}.

Definition Zero : Resources := {| CPU := 0; Mem := 0; Disk := 0; GPU := 0 |}.

(** [within a b]: [a] is at most [b] in every dimension. *)
Definition within (a b : Resources) : Prop :=
  (CPU a <= CPU b)%Q /\ (Mem a <= Mem b)%Q
  /\ (Disk a <= Disk b)%Q /\ (GPU a <= GPU b)%Q.

(** Modelled from the spec: [Resources.TrySubtract] of hostmgr/scalar is
    not under src/.  The specification accepts an assignment "whose scalar
    demand (cpu, mem, disk, gpu) can be subtracted from
    host.remaining_resources": the subtraction succeeds when no dimension
    would go below zero, and then yields the difference. *)
Definition TrySubtract (r other : Resources) : option Resources :=
  if Contains r other then Some (Subtract r other) else None.

End scalar.

(** ** placement/plugins/batch *)

Module batch.
Import mesos_v1 scalar.

(** resmgr.Task: the demand of a task, as the strategy reads it. *)
Record ResourceConfig := {
  CpuLimit : Q;
  MemLimitMb : Q;
  DiskLimitMb : Q;
  GpuLimit : Q
}.

Record ResmgrTask := {
  TaskName : string;
  NumPorts : N;
  Resource_ : option ResourceConfig
}.

(** models.Host: a host offer with its Mesos resources. *)
Record Host := {
  Hostname : string;
  Resources_ : list Resource
}.

(** models.Assignment: a task and the host it was placed on, if any. *)
Record Assignment := {
  Task : ResmgrTask;
  GetHost : option Host
}.

Definition SetHost (offer : Host) (a : Assignment) : Assignment :=
  {| Task := Task a; GetHost := Some offer |}.

(** The inner loop of [availablePorts] over the ranges of one resource. *)
Definition addRanges (ports : N) (ranges : list Value_Range) : N :=
  fold_left
    (fun ports portRange =>
       wrap64 (Z.of_N ports
               + (Z.of_N (End_ portRange) - Z.of_N (Begin portRange) + 1)))
    ranges ports.

(** [func (batch *batch) availablePorts(resources) uint64]. *)
Definition availablePorts (resources : list Resource) : N :=
  fold_left
    (fun ports resource =>
       if negb (String.eqb (Name resource) "ports") then ports
       else addRanges ports (Ranges resource))
    resources 0%N.

(** The port ranges of an offer, and how many ports they hold. *)
Definition portRanges (resources : list Resource) : list Value_Range :=
  concat ((fun resource =>
             if String.eqb (Name resource) "ports" then Ranges resource
             else [])
          <$> resources).

Definition rangeSize (portRange : Value_Range) : Z :=
  Z.of_N (End_ portRange) - Z.of_N (Begin portRange) + 1.

Definition portCount (resources : list Resource) : Z :=
  fold_right (fun portRange s => rangeSize portRange + s) 0
             (portRanges resources).

Section FillOffer.

(** The conversions of hostmgr/scalar are not under src/; the strategy
    is modelled for any pair of them. *)
Variable FromMesosResources : list Resource -> Resources.
Variable FromResourceConfig : option ResourceConfig -> Resources.

Definition usageOf (placement : Assignment) : Resources :=
  FromResourceConfig (Resource_ (Task placement)).

(** The loop of [fillOffer] from a given iteration on, with the loop's
    two variables.  The result is the assignments that got the host set
    (in order) and the slice the function returns, [unassigned[i:]]. *)
Fixpoint fillLoop (offer : Host) (remainPorts : N) (remain : Resources)
    (unassigned : list Assignment) : list Assignment * list Assignment :=
  match unassigned with
  | [] => ([], [])
  | placement :: rest =>
      let resmgrTask := Task placement in
      let usedPorts := NumPorts resmgrTask in
      if (remainPorts <? usedPorts)%N then ([], unassigned)
      else
        let usage := FromResourceConfig (Resource_ resmgrTask) in
        match TrySubtract remain usage with
        | None => ([], unassigned)
        | Some trySubtract =>
            let r := fillLoop offer (remainPorts - usedPorts)%N
                              trySubtract rest in
            (SetHost offer placement :: fst r, snd r)
        end
  end.

(** [func (batch *batch) fillOffer(offer, unassigned) []*Assignment]. *)
Definition fillOffer (offer : Host) (unassigned : list Assignment)
    : list Assignment * list Assignment :=
  fillLoop offer (availablePorts (Resources_ offer))
           (FromMesosResources (Resources_ offer)) unassigned.

(** [PlaceOnce]: every host in turn takes what it can of what is left. *)
Fixpoint PlaceOnce (unassigned : list Assignment) (hosts : list Host)
    : list Assignment * list Assignment :=
  match hosts with
  | [] => ([], unassigned)
  | host :: hosts' =>
      let r := fillOffer host unassigned in
      let r' := PlaceOnce (snd r) hosts' in
      ((fst r ++ fst r')%list, snd r')
  end.

(** The loop variables after the assignments of [placed] were taken. *)
Definition portsAfter (remainPorts : N) (placed : list Assignment) : N :=
  fold_left (fun p a => (p - NumPorts (Task a))%N) placed remainPorts.

Definition remainAfter (remain : Resources) (placed : list Assignment)
    : Resources :=
  fold_left (fun r a => Subtract r (usageOf a)) placed remain.

(** An assignment fits what is left: the two tests of the loop body. *)
Definition fits (remainPorts : N) (remain : Resources) (a : Assignment)
    : bool :=
  (NumPorts (Task a) <=? remainPorts)%N && Contains remain (usageOf a).

(** Total demand of a list of assignments. *)
Definition sumPorts (l : list Assignment) : N :=
  fold_right (fun a s => (NumPorts (Task a) + s)%N) 0%N l.

Definition sumUsage (l : list Assignment) : Resources :=
  fold_right (fun a s => Add (usageOf a) s) Zero l.

End FillOffer.

(** *** Sample conversions and data (scenarios S1 and S2) *)

Definition scalarNamed (name : string) (resources : list Resource) : Q :=
  fold_right
    (fun r s => if String.eqb (Name r) name
                then match Scalar r with Some v => (v + s)%Q | None => s end
                else s)
    0%Q resources.

Definition sampleFromMesosResources (resources : list Resource) : Resources :=
  {| CPU := scalarNamed "cpus" resources; Mem := scalarNamed "mem" resources;
     Disk := scalarNamed "disk" resources;
     GPU := scalarNamed "gpus" resources |}.

Definition sampleFromResourceConfig (c : option ResourceConfig) : Resources :=
  match c with
  | Some c => {| CPU := CpuLimit c; Mem := MemLimitMb c;
                 Disk := DiskLimitMb c; GPU := GpuLimit c |}
  | None => Zero
  end.

Definition mkOffer (cpu mem : Z) (b e : N) : Host :=
  {| Hostname := "host";
     Resources_ :=
       [ {| Name := "cpus"; Scalar := Some (inject_Z cpu); Ranges := [] |};
         {| Name := "mem"; Scalar := Some (inject_Z mem); Ranges := [] |};
         {| Name := "ports"; Scalar := None;
            Ranges := [ {| Begin := b; End_ := e |} ] |} ] |}.

Definition mkTask (name : string) (cpu mem : Z) (ports : N) : Assignment :=
  {| Task := {| TaskName := name; NumPorts := ports;
                Resource_ := Some {| CpuLimit := inject_Z cpu;
                                     MemLimitMb := inject_Z mem;
                                     DiskLimitMb := 0; GpuLimit := 0 |} |};
     GetHost := None |}.

Definition sampleFill := fillOffer sampleFromMesosResources
                                   sampleFromResourceConfig.

Definition samplePlaceOnce := PlaceOnce sampleFromMesosResources
                                        sampleFromResourceConfig.

(** hostsvc.HostFilter, as [getHostFilter] fills it: the minimum resources,
    the number of ports and the scheduling constraint of a task. *)
Record HostFilter (C : Type) := {
  Minimum : option ResourceConfig;
  FilterNumPorts : N;
  SchedulingConstraint : option C
}.
Arguments Minimum {C} h.
Arguments FilterNumPorts {C} h.
Arguments SchedulingConstraint {C} h.

Section Filters.

(** The scheduling constraint of a task (a field of the resmgr task the
    fill loop never reads) and the text form of a filter,
    [filter.String()]. *)
Variable C : Type.
Variable Constraint : ResmgrTask -> option C.
Variable FilterString : HostFilter C -> string.

(** [func (batch *batch) getHostFilter(assignment) *hostsvc.HostFilter]. *)
Definition getHostFilter (assignment : Assignment) : HostFilter C :=
  {| Minimum := Resource_ (Task assignment);
     FilterNumPorts := NumPorts (Task assignment);
     SchedulingConstraint := Constraint (Task assignment) |}.

(** One round of the loop of [Filters].  The two maps of the source,
    text to first filter and filter to batch, are one map here: a group is
    found by the text of its filter and holds the first filter with that
    text and the batch collected for it. *)
Definition filtersStep
    (groups : gmap string (HostFilter C * list Assignment))
    (assignment : Assignment)
    : gmap string (HostFilter C * list Assignment) :=
  let filter := getHostFilter assignment in
  let s := FilterString filter in
  match groups !! s with
  | None => <[s := (filter, [assignment])]> groups
  | Some (first, batch) => <[s := (first, (batch ++ [assignment])%list)]> groups
  end.

(** [func (batch *batch) Filters(assignments)]. *)
Definition Filters (assignments : list Assignment)
    : gmap string (HostFilter C * list Assignment) :=
  fold_left filtersStep assignments ∅.

(** The assignments whose filter has the text [s], in input order. *)
Definition withFilter (s : string) (assignments : list Assignment)
    : list Assignment :=
  filter (fun a => FilterString (getHostFilter a) = s) assignments.

End Filters.

(** A text form for sample filters, which tells apart the filters of tasks
    that need ports from those that need none. *)
Definition sampleFilterString (h : HostFilter unit) : string :=
  if (FilterNumPorts h =? 0)%N then "no-ports" else "ports".

Definition sampleFilters :=
  Filters unit (fun _ => None) sampleFilterString.

End batch.

(** ** hostmgr/offer: the pool of host offers *)

Module offer.

(** An offer held by the pool, with the time it arrived. *)
Record Offer := {
  Timestamp : Time;
  OfferHostname : string
}.

(** [offerPool]: offers by offer id, and how long an offer is held. *)
Record offerPool := {
  offers : gmap string Offer;
  offerHoldTime : Duration
}.

(** An offer is removed when removal is forced, or when its age
    [now - timestamp] exceeds the hold time. *)
Definition isExpired (force : bool) (holdTime : Duration) (now : Time)
    (o : Offer) : bool :=
  force || (holdTime <? now - Timestamp o).

(** Modelled from the spec: [offerPool.RemoveExpiredOffers] is not under
    src/ (only its test, TestRemoveExpiredOffers, and the pruner that
    calls it are).  Section 4.5: "remove_expired(force=false) returns and
    removes offers whose now - timestamp > hold_time (or all offers if
    force)".  The ids come back in the map's iteration order, which
    carries no meaning. *)
Definition RemoveExpiredOffers (pool : offerPool) (force : bool)
    (now : Time) : list string * offerPool :=
  let gone :=
    filter (fun kv => isExpired force (offerHoldTime pool) now (snd kv) = true)
           (offers pool) in
  let kept :=
    filter (fun kv => isExpired force (offerHoldTime pool) now (snd kv) = false)
           (offers pool) in
  (fst <$> map_to_list gone,
   {| offers := kept; offerHoldTime := offerHoldTime pool |}).

(** *** Sample data: the pools of TestRemoveExpiredOffers and scenario S3 *)

Definition minute : Duration := 60 * 1000000000.

Definition poolAt (now : Time) (hold : Duration)
    (l : list (string * Duration)) : offerPool :=
  {| offers :=
       list_to_map
         ((fun p => (fst p, {| Timestamp := now - snd p;
                               OfferHostname := "host" |})) <$> l);
     offerHoldTime := hold |}.

End offer.

(** ** jobmgr/goalstate: the failure step of an update run *)

Module goalstate.

Inductive State :=
| INITIALIZED | ROLLING_FORWARD | ROLLING_BACKWARD | PAUSED
| SUCCEEDED | FAILED | ABORTED.

#[global] Instance State_eq_dec : EqDecision State.
Proof. solve_decision. Defined.

Record UpdateConfig := {
  BatchSize : N;
  MaxFailureInstances : N;
  MaxInstanceAttempts : N;
  RollbackOnFailure : bool
}.

(** The cached update: its state, the job version it moves to and the one
    it started from, the instances it covers and its progress. *)
Record Update := {
  UpdateState : State;
  TargetVersion : N;
  CurrentVersion : N;
  Instances : list N;
  InstancesDone : list N;
  InstancesFailed : list N;
  InstancesCurrent : list N;
  Config : UpdateConfig
}.

(** How an instance in flight is classified from its runtime (step 4). *)
Inductive InstanceStatus := Complete | InstanceFailed | InProgress.

#[global] Instance InstanceStatus_eq_dec : EqDecision InstanceStatus.
Proof. solve_decision. Defined.

(** The calls a run makes on the update and on the update engine. *)
Inductive Event :=
| WriteProgress (s : State) (done failed current : list N)
| Enqueue.

#[global] Instance Event_eq_dec : EqDecision Event.
Proof. solve_decision. Defined.

Section Run.

Variable classify : N -> InstanceStatus.

Definition withStatus (s : InstanceStatus) (l : list N) : list N :=
  filter (fun i => classify i = s) l.

Definition doneAfter (u : Update) : list N :=
  (InstancesDone u ++ withStatus Complete (InstancesCurrent u))%list.

Definition failedAfter (u : Update) : list N :=
  (InstancesFailed u
     ++ withStatus InstanceFailed (InstancesCurrent u))%list.

Definition currentAfter (u : Update) : list N :=
  withStatus InProgress (InstancesCurrent u).

(** Instances of the update that are neither finished nor in flight. *)
Definition pending (u : Update) : list N :=
  filter (fun i => (i ∉ doneAfter u) ∧ (i ∉ failedAfter u)
                   ∧ (i ∉ currentAfter u))
         (Instances u).

(** Steps 5 and 6: the next instances admitted, up to the batch size
    (a batch size of 0 is unbounded). *)
Definition admitted (u : Update) : list N :=
  if (BatchSize (Config u) =? 0)%N then pending u
  else take (N.to_nat (BatchSize (Config u)
                       - N.of_nat (length (currentAfter u))))
            (pending u).

Definition rollback (u : Update) : Update :=
  {| UpdateState := ROLLING_BACKWARD;
     TargetVersion := CurrentVersion u;
     CurrentVersion := TargetVersion u;
     Instances := Instances u;
     InstancesDone := InstancesDone u;
     InstancesFailed := InstancesFailed u;
     InstancesCurrent := InstancesCurrent u;
     Config := Config u |}.

Definition withProgress (s : State) (done failed current : list N)
    (u : Update) : Update :=
  {| UpdateState := s;
     TargetVersion := TargetVersion u;
     CurrentVersion := CurrentVersion u;
     Instances := Instances u;
     InstancesDone := done;
     InstancesFailed := failed;
     InstancesCurrent := current;
     Config := Config u |}.

(** The failure test of step 7.  A limit of 0 is no limit: the suite
    under src/ runs updates whose MaxFailureInstances is unset
    (TestRunningUpdate, TestCompletedUpdate) and expects ordinary
    progress from them. *)
Definition tooManyFailures (u : Update) : bool :=
  negb (MaxFailureInstances (Config u) =? 0)%N
  && (MaxFailureInstances (Config u)
      <=? N.of_nat (length (failedAfter u)))%N.

(** Modelled from the spec: [UpdateRun] is not under src/ (only its test
    suite, UpdateRunTestSuite, is).  The run on an update and a job that
    are both tracked, after section 4.4: classify the instances in
    flight (step 4); when too many have failed either roll back
    (rollback_on_failure set and state ROLLING_FORWARD: swap the
    versions, state ROLLING_BACKWARD, run again) or write progress with
    state FAILED and enqueue the update for finalization (step 7);
    otherwise admit the next instances (steps 5, 6), write progress
    under the state the update is in, and enqueue the update once every
    instance is done (step 8, scenario S5).  As in the suite, the
    failure test comes before any instance is admitted.  The run's
    effects on single tasks are left out. *)
Definition UpdateRun (u : Update) : Update * list Event :=
  let done := doneAfter u in
  let failed := failedAfter u in
  let current := currentAfter u in
  if tooManyFailures u then
    if RollbackOnFailure (Config u)
       && bool_decide (UpdateState u = ROLLING_FORWARD)
    then (rollback u, [Enqueue])
    else (withProgress FAILED done failed current u,
          [WriteProgress FAILED done failed current; Enqueue])
  else
    let current' := (current ++ admitted u)%list in
    (withProgress (UpdateState u) done failed current' u,
     WriteProgress (UpdateState u) done failed current'
       :: (if bool_decide (length done = length (Instances u))
           then [Enqueue] else [])).

(** What step 7 promises of a run on [u]: under rollback_on_failure in
    state ROLLING_FORWARD the versions are swapped and the state becomes
    ROLLING_BACKWARD; otherwise progress is written with state FAILED and
    the update is enqueued. *)
Definition failurePolicy (u : Update) : Prop :=
  let r := UpdateRun u in
  (RollbackOnFailure (Config u) = true /\ UpdateState u = ROLLING_FORWARD ->
   UpdateState (fst r) = ROLLING_BACKWARD
   /\ TargetVersion (fst r) = CurrentVersion u
   /\ CurrentVersion (fst r) = TargetVersion u)
  /\ (~ (RollbackOnFailure (Config u) = true
         /\ UpdateState u = ROLLING_FORWARD) ->
      UpdateState (fst r) = FAILED
      /\ WriteProgress FAILED (doneAfter u) (failedAfter u) (currentAfter u)
           ∈ snd r
      /\ Enqueue ∈ snd r).

End Run.

(** *** Sample data: the updates of UpdateRunTestSuite *)

Definition newSlice (start end_ : N) : list N :=
  N.of_nat <$> seq (N.to_nat start) (N.to_nat end_ - N.to_nat start).

Definition updateOf (s : State) (instances : list N) (maxFailure : N)
    (rollbackOnFailure : bool) : Update :=
  {| UpdateState := s; TargetVersion := 4; CurrentVersion := 3;
     Instances := instances;
     InstancesDone := []; InstancesFailed := [];
     InstancesCurrent := instances;
     Config := {| BatchSize := 0; MaxFailureInstances := maxFailure;
                  MaxInstanceAttempts := 0;
                  RollbackOnFailure := rollbackOnFailure |} |}.

(** TestRunningUpdate: instances 2, 4, 5 are in progress, 3 and 6 done. *)
Definition classifyRunning (i : N) : InstanceStatus :=
  if bool_decide (i = 3%N ∨ i = 6%N) then Complete else InProgress.

(** The failure tests: the first three instances failed, the rest done. *)
Definition classifyFailed (i : N) : InstanceStatus :=
  if (i <? 3)%N then InstanceFailed else Complete.

End goalstate.

(** ** Decimal numbers in strings *)

(** [%d] of a Go integer. *)
Definition formatInt (z : Z) : string := NilZero.string_of_int (Z.to_int z).

(** ** util: Mesos state translation and task-id parsing *)

Module util.
Import pb_task.

(** mesos_v1.TaskState: the nine states the translation names, and
    [TASK_OTHER] for every other value of the enum. *)
Inductive mesos_TaskState :=
| TASK_STAGING | TASK_STARTING | TASK_RUNNING | TASK_KILLING
| TASK_FINISHED | TASK_FAILED | TASK_KILLED | TASK_LOST | TASK_ERROR
| TASK_OTHER (code : Z).

(** [func MesosStateToPelotonState(mstate) task.RuntimeInfo_TaskState]. *)
Definition MesosStateToPelotonState (mstate : mesos_TaskState)
    : TaskState :=
  match mstate with
  | TASK_STAGING => LAUNCHED
  | TASK_STARTING => LAUNCHED
  | TASK_RUNNING => RUNNING
  | TASK_KILLING => RUNNING
  | TASK_FINISHED => SUCCEEDED
  | TASK_FAILED => FAILED
  | TASK_KILLED => KILLED
  | TASK_LOST => LOST
  | TASK_ERROR => FAILED
  | TASK_OTHER _ => INITIALIZED
  end.

(** [func Min(x, y uint32) uint32] and [Max]. *)
Definition Min (x y : N) : N := if (x <? y)%N then x else y.
Definition Max (x y : N) : N := if (y <? x)%N then x else y.

(** [strings.Split(s, "-")]: the pieces between dashes; never empty. *)
Fixpoint Split (s : string) : list string :=
  match s with
  | EmptyString => [EmptyString]
  | String c rest =>
      if Ascii.eqb c "-" then EmptyString :: Split rest
      else match Split rest with
           | piece :: pieces => String c piece :: pieces
           | [] => [String c EmptyString]
           end
  end.

(** The errors of strconv. *)
Inductive NumError := ErrSyntax | ErrRange.

Definition intSize : Z := 64.

Definition digitOf (c : ascii) : option Z :=
  let n := Z.of_nat (nat_of_ascii c) in
  if (48 <=? n) && (n <=? 57) then Some (n - 48) else None.

(** The digit loop of [strconv.ParseUint(s, 10, 64)]: a character that is
    no digit is a syntax error, a value above 2^64-1 a range error,
    whichever comes first. *)
Fixpoint parseUintLoop (s : string) (n : Z) : Z + NumError :=
  match s with
  | EmptyString => inl n
  | String c rest =>
      match digitOf c with
      | None => inr ErrSyntax
      | Some d =>
          let n1 := 10 * n + d in
          if 2 ^ 64 - 1 <? n1 then inr ErrRange
          else parseUintLoop rest n1
      end
  end.

Definition ParseUint (s : string) : Z + NumError :=
  match s with
  | EmptyString => inr ErrSyntax
  | _ => parseUintLoop s 0
  end.

(** [strconv.Atoi(s)], which is [ParseInt(s, 10, 0)]: an optional sign,
    decimal digits, and a value that fits the [int] of the platform. *)
Definition Atoi (s : string) : Z + NumError :=
  match s with
  | EmptyString => inr ErrSyntax
  | String c rest =>
      let neg := Ascii.eqb c "-" in
      let digits := if Ascii.eqb c "+" || neg then rest else s in
      match ParseUint digits with
      | inr e => inr e
      | inl un =>
          let cutoff := 2 ^ (intSize - 1) in
          if negb neg && (cutoff <=? un) then inr ErrRange
          else if neg && (cutoff <? un) then inr ErrRange
          else inl (if neg then - un else un)
      end
  end.

(** [func ParseTaskIDFromMesosTaskID(mesosTaskID) (string, error)].  The
    error texts are abridged: the cause reported by [Atoi] is left out. *)
Definition ParseTaskIDFromMesosTaskID (mesosTaskID : string)
    : string + error :=
  let parts := Split mesosTaskID in
  match parts with
  | jobID :: part1 :: _ =>
      match Atoi part1 with
      | inr _ => inr ("Invalid peloton mesos task ID " ++ mesosTaskID)
      | inl iID => inl (jobID ++ "-" ++ formatInt iID)
      end
  | _ => inr ("Invalid peloton mesos task ID " ++ mesosTaskID)
  end.

(** *** Decimal integers, as a reader of the specification takes them *)

Definition isDigit (c : ascii) : bool :=
  match digitOf c with Some _ => true | None => false end.

Fixpoint allDigits (s : string) : bool :=
  match s with
  | EmptyString => true
  | String c rest => isDigit c && allDigits rest
  end.

(** The value of a string of digits, with [n] the value read so far. *)
Fixpoint digitsValue (s : string) (n : Z) : Z :=
  match s with
  | EmptyString => n
  | String c rest =>
      digitsValue rest (10 * n + match digitOf c with
                                 | Some d => d
                                 | None => 0
                                 end)
  end.

(** The digits of a numeral, after its optional sign. *)
Definition unsignedPart (s : string) : string :=
  match s with
  | String c rest => if Ascii.eqb c "+" || Ascii.eqb c "-" then rest else s
  | EmptyString => s
  end.

Definition isNegative (s : string) : bool :=
  match s with
  | String c _ => Ascii.eqb c "-"
  | EmptyString => false
  end.

(** A decimal integer: an optional sign and one or more digits. *)
Definition isDecimalInteger (s : string) : bool :=
  match unsignedPart s with
  | EmptyString => false
  | digits => allDigits digits
  end.

Definition decimalValue (s : string) : Z :=
  let v := digitsValue (unsignedPart s) 0 in
  if isNegative s then - v else v.

Definition minInt : Z := - 2 ^ (intSize - 1).
Definition maxInt : Z := 2 ^ (intSize - 1) - 1.

(** The second piece of a task id, when there is one. *)
Definition secondPart (s : string) : option string := Split s !! 1%nat.
Definition firstPart (s : string) : string :=
  match Split s with p :: _ => p | [] => EmptyString end.

Definition isError {A B : Type} (r : A + B) : bool :=
  match r with inl _ => false | inr _ => true end.

(** A decimal integer whose value fits the platform's [int]. *)
Definition isDecimalInt (s : string) : bool :=
  isDecimalInteger s
  && (minInt <=? decimalValue s) && (decimalValue s <=? maxInt).

(** [strings.Join(pieces, "-")], the inverse of [Split]. *)
Fixpoint Join (pieces : list string) : string :=
  match pieces with
  | [] => EmptyString
  | [piece] => piece
  | piece :: rest => piece ++ "-" ++ Join rest
  end.

Fixpoint hasDash (s : string) : bool :=
  match s with
  | EmptyString => false
  | String c rest => Ascii.eqb c "-" || hasDash rest
  end.

(** What [strconv.Atoi] returns as its pair: on a syntax error the value
    is 0, on a range error the nearest bound of [int]. *)
Definition AtoiPair (s : string) : Z * option NumError :=
  match Atoi s with
  | inl v => (v, None)
  | inr ErrSyntax => (0, Some ErrSyntax)
  | inr ErrRange => (if isNegative s then minInt else maxInt, Some ErrRange)
  end.

(** [strings.LastIndex(s, "-")]: the index of the last dash, or -1. *)
Fixpoint LastIndex (s : string) : Z :=
  match s with
  | EmptyString => -1
  | String c rest =>
      let i := LastIndex rest in
      if 0 <=? i then i + 1
      else if Ascii.eqb c "-" then 0 else -1
  end.

(** The slices [s[0:pos]] and [s[pos:]], for [0 <= pos <= len(s)]. *)
Definition sliceTo (s : string) (pos : Z) : string :=
  substring 0 (Z.to_nat pos) s.

Definition sliceFrom (s : string) (pos : Z) : string :=
  substring (Z.to_nat pos) (String.length s - Z.to_nat pos) s.

(** [func ParseTaskID(taskID string) (string, int, error)].  The error of
    [Atoi] is returned as it is, with the value [Atoi] gives beside it. *)
Definition ParseTaskID (taskID : string) : string * Z * option error :=
  let pos := LastIndex taskID in
  if pos =? -1 then (taskID, 0, Some ("Invalid task ID " ++ taskID))
  else
    let jobID := sliceTo taskID pos in
    let ins := sliceFrom taskID (pos + 1) in
    match AtoiPair ins with
    | (instanceID, None) => (jobID, instanceID, None)
    | (instanceID, Some ErrSyntax) =>
        (jobID, instanceID, Some "invalid syntax")
    | (instanceID, Some ErrRange) =>
        (jobID, instanceID, Some "value out of range")
    end.

End util.

(** ** jobmgr/task/util.go *)

Module jm_task.
Import pb_task.

Inductive JobType := BATCH | SERVICE.

(** job.JobConfig, the fields the sources read. *)
Record JobConfig := {
  InstanceCount : N;
  OwningTeam : string;
  Type_ : JobType;
  ChangeLogVersion : N
}.

(** [func GetDefaultTaskGoalState(jobType) task.TaskState]. *)
Definition GetDefaultTaskGoalState (jobType : JobType) : TaskState :=
  match jobType with
  | SERVICE => RUNNING
  | _ => SUCCEEDED
  end.

(** [func CreateInitializingTask(jobID, instanceID, jobConfig)]. *)
Definition CreateInitializingTask (jobID : string) (instanceID : N)
    (jobConfig : JobConfig) : RuntimeInfo :=
  let mesosTaskID :=
    jobID ++ "-" ++ formatInt (Z.of_N instanceID) ++ "-" ++ formatInt 1 in
  {| MesosTaskId := Some mesosTaskID;
     State := INITIALIZED;
     ConfigVersion := ChangeLogVersion jobConfig;
     DesiredConfigVersion := ChangeLogVersion jobConfig;
     GoalState := GetDefaultTaskGoalState (Type_ jobConfig);
     FailureCount := 0; Healthy := HEALTH_UNKNOWN; Revision := None |}.

End jm_task.

(** ** jobmgr/job/recovery.go *)

Module recovery.
Import pb_task jm_task.

Inductive JobState :=
| JOB_INITIALIZED | JOB_PENDING | JOB_RUNNING | JOB_SUCCEEDED
| JOB_FAILED | JOB_KILLED.

(** job.RuntimeInfo; [CreationTime] is the stored string as
    [time.Parse] reads it, [None] when it does not parse. *)
Record JobRuntime := {
  JobState_ : JobState;
  CreationTime : option Time
}.

Record TaskInfo := {
  Runtime : RuntimeInfo;
  InstanceId : N;
  JobId : string
}.

#[global] Instance TaskInfo_eq_dec : EqDecision TaskInfo.
Proof. solve_decision. Defined.

(** The stores and the resource manager, for one job.  [tasks] is the
    task table; the fault fields say which calls fail:
    reads of an instance (with an error other than not-found), creations
    of an instance, the enqueue call, the job runtime update.  [queued]
    lists the batches handed to the resource manager, oldest first. *)
Record World := {
  jobConfig : option JobConfig;
  jobRuntime : option JobRuntime;
  tasks : gmap N TaskInfo;
  readFault : gset N;
  createFault : gset N;
  enqueueFault : bool;
  updateFault : bool;
  queued : list (list TaskInfo)
}.

Definition set_tasks (m : gmap N TaskInfo) (w : World) : World :=
  {| jobConfig := jobConfig w; jobRuntime := jobRuntime w; tasks := m;
     readFault := readFault w; createFault := createFault w;
     enqueueFault := enqueueFault w; updateFault := updateFault w;
     queued := queued w |}.

Definition set_queued (q : list (list TaskInfo)) (w : World) : World :=
  {| jobConfig := jobConfig w; jobRuntime := jobRuntime w;
     tasks := tasks w;
     readFault := readFault w; createFault := createFault w;
     enqueueFault := enqueueFault w; updateFault := updateFault w;
     queued := q |}.

Definition set_jobRuntime (r : JobRuntime) (w : World) : World :=
  {| jobConfig := jobConfig w; jobRuntime := Some r; tasks := tasks w;
     readFault := readFault w; createFault := createFault w;
     enqueueFault := enqueueFault w; updateFault := updateFault w;
     queued := queued w |}.

(** What [taskStore.GetTaskForJob] answers. *)
Inductive GetTaskAnswer :=
| Found (t : list TaskInfo)
| TaskNotFoundError
| OtherError (e : error).

Definition GetTaskForJob (w : World) (i : N) : GetTaskAnswer :=
  if bool_decide (i ∈ readFault w) then OtherError "read failed"
  else match tasks w !! i with
       | Some t => Found [t]
       | None => TaskNotFoundError
       end.

Definition CreateTask (w : World) (i : N) (t : TaskInfo)
    : World * option error :=
  if bool_decide (i ∈ createFault w) then (w, Some "create failed")
  else (set_tasks (<[i := t]> (tasks w)) w, None).

Definition EnqueueTasks (w : World) (ts : list TaskInfo)
    : World * option error :=
  if enqueueFault w then (w, Some "enqueue failed")
  else (set_queued (queued w ++ [ts])%list w, None).

Definition UpdateJobRuntime (w : World) (r : JobRuntime)
    : World * option error :=
  if updateFault w then (w, Some "update failed")
  else (set_jobRuntime r w, None).

Definition batchRows : N := 1000.
Definition recoveryInterval : Duration := 15 * 60 * 1000000000.

Section Recover.

(** [uuid.NewUUID().String()] for the task created for an instance. *)
Variable NewUUID : N -> string.

(** [func createTaskForJob(taskStore, jobID, i, jobConfig)]. *)
Definition createTaskForJob (w : World) (jobID : string) (i : N)
    (cfg : JobConfig) : World * (TaskInfo + error) :=
  let mesosTaskID :=
    jobID ++ "-" ++ formatInt (Z.of_N i) ++ "-" ++ NewUUID i in
  let task :=
    {| Runtime :=
         {| State := INITIALIZED;
            GoalState := SUCCEEDED;
            MesosTaskId := Some mesosTaskID;
            ConfigVersion := 0; DesiredConfigVersion := 0;
            FailureCount := 0; Healthy := HEALTH_UNKNOWN;
            Revision := None |};
       InstanceId := i;
       JobId := jobID |} in
  match CreateTask w i task with
  | (w', Some e) => (w', inr e)
  | (w', None) => (w', inl task)
  end.

(** The inner loop of [recoverJob] over the instances of one batch:
    the world after it, and either the tasks to requeue or the error
    that ends the recovery. *)
Fixpoint recoverRange (w : World) (jobID : string) (cfg : JobConfig)
    (instances : list N) (tasksToRequeue : list TaskInfo)
    : World * (list TaskInfo + error) :=
  match instances with
  | [] => (w, inl tasksToRequeue)
  | i :: rest =>
      match GetTaskForJob w i with
      | OtherError _ => recoverRange w jobID cfg rest tasksToRequeue
      | TaskNotFoundError =>
          match createTaskForJob w jobID i cfg with
          | (w', inl task) =>
              recoverRange w' jobID cfg rest
                           (tasksToRequeue ++ [task])%list
          | (w', inr e) => (w', inr e)
          end
      | Found t =>
          recoverRange w jobID cfg rest
            (tasksToRequeue
               ++ filter (fun taskInfo =>
                            State (Runtime taskInfo) = INITIALIZED) t)%list
      end
  end.

(** The instance ids [start, start+1, ..., end-1] of the inner loop. *)
Definition instanceRange (start end_ : N) : list N :=
  (fun k => (start + N.of_nat k)%N) <$> seq 0 (N.to_nat (end_ - start)).

(** The outer loop of [recoverJob], over the batch numbers in [batches];
    the batch bounds are computed in uint32. *)
Fixpoint recoverBatches (w : World) (jobID : string) (cfg : JobConfig)
    (batches : list N) : World * option error :=
  match batches with
  | [] => (w, None)
  | batch :: rest =>
      let start := wrap32 (Z.of_N batch * Z.of_N batchRows) in
      let end_ :=
        util.Min (wrap32 ((Z.of_N batch + 1) * Z.of_N batchRows))
                 (InstanceCount cfg) in
      match recoverRange w jobID cfg (instanceRange start end_) [] with
      | (w', inr e) => (w', Some e)
      | (w', inl tasksToRequeue) =>
          if (0 <? length tasksToRequeue)%nat then
            match EnqueueTasks w' tasksToRequeue with
            | (w'', Some e) => (w'', Some e)
            | (w'', None) => recoverBatches w'' jobID cfg rest
            end
          else recoverBatches w' jobID cfg rest
      end
  end.

(** [func (j *Recovery) recoverJob(jobID) error]; [now] is the clock at
    the call. *)
Definition recoverJob (w : World) (jobID : string) (now : Time)
    : World * option error :=
  match jobConfig w with
  | None => (w, Some "Failed to get jobConfig")
  | Some cfg =>
      match jobRuntime w with
      | None => (w, Some "Failed to GetJobRuntime")
      | Some rt =>
          match CreationTime rt with
          | None => (w, Some "Failed to Parse job create time")
          | Some createTime =>
              if now - createTime <? recoveryInterval then (w, None)
              else
                let batches :=
                  instanceRange 0 (InstanceCount cfg / batchRows + 1) in
                match recoverBatches w jobID cfg batches with
                | (w', Some e) => (w', Some e)
                | (w', None) =>
                    UpdateJobRuntime w'
                      {| JobState_ := JOB_PENDING;
                         CreationTime := CreationTime rt |}
                end
          end
      end
  end.

End Recover.

(** *** Sample data: a service job with one stored and one missing task *)

Definition sampleUUID (i : N) : string := "uuid".

Definition storedTask (jobID : string) (i : N) (s : TaskState) : TaskInfo :=
  {| Runtime := {| State := s; GoalState := RUNNING;
                   MesosTaskId := Some (jobID ++ "-0-uuid0");
                   ConfigVersion := 0; DesiredConfigVersion := 0;
                   FailureCount := 0; Healthy := HEALTH_UNKNOWN;
                   Revision := None |};
     InstanceId := i; JobId := jobID |}.

Definition serviceWorld : World :=
  {| jobConfig := Some {| InstanceCount := 2; OwningTeam := "team";
                          Type_ := SERVICE; ChangeLogVersion := 1 |};
     jobRuntime := Some {| JobState_ := JOB_INITIALIZED;
                           CreationTime := Some 0 |};
     tasks := {[ 0%N := storedTask "J" 0 INITIALIZED ]};
     readFault := ∅; createFault := ∅;
     enqueueFault := false; updateFault := false;
     queued := [] |}.

End recovery.

(** ** util and scheduler: an offer as a summary of scalars *)

Module sched.

(** A Mesos resource of an offer, as the summary reads it: its role (nil
    standing for the default role), its name and its scalar value, if it is
    a scalar.  Values are float64, binary64 floats here, with the
    operations of IEEE 754 that Go uses. *)
Record OfferResource := {
  Role : option string;
  ResName : string;
  ResScalar : option float
}.

(** The limits of a task's resource config that become Mesos resources. *)
Record TaskResources := {
  CpusLimit : float;
  MemLimitMb : float;
  DiskLimitMb : float
}.

Record TaskInfo := {
  TaskId : string;
  Resource : TaskResources
}.

(** [m[role][name]] on a map of maps: a missing role or name reads 0. *)
Definition get (summary : gmap string (gmap string float))
    (role name : string) : float :=
  match summary !! role with
  | Some inner =>
      match inner !! name with Some v => v | None => PrimFloat.zero end
  | None => PrimFloat.zero
  end.

(** [m[role][name] = v], the inner map being there or made first. *)
Definition put (summary : gmap string (gmap string float))
    (role name : string) (v : float) : gmap string (gmap string float) :=
  <[role := <[name := v]> (default ∅ (summary !! role))]> summary.

(** [func GetOfferScalarResourceSummary(offer) map[string]map[string]float64]
    over the offer's resources. *)
Definition GetOfferScalarResourceSummary (resources : list OfferResource)
    : gmap string (gmap string float) :=
  fold_left
    (fun result resource =>
       match ResScalar resource with
       | Some value =>
           let role := default "*" (Role resource) in
           put result role (ResName resource)
               (PrimFloat.add (get result role (ResName resource)) value)
       | None => result
       end)
    resources ∅.

(** [ConvertToMesosTaskInfo]: the scalar resources a task asks for, all
    under the default role, in the order the builder appends them. *)
Definition ConvertToMesosTaskInfo (t : TaskInfo) : list (string * float) :=
  [("cpus", CpusLimit (Resource t)); ("mem", MemLimitMb (Resource t));
   ("disk", DiskLimitMb (Resource t))].

(** [func CanTakeTask(offerScalaSummary, nextTask) bool]: the answer and
    the summary the call leaves behind.  The first loop only checks, with
    the float comparison [<]; the second only subtracts. *)
Definition CanTakeTask (summary : gmap string (gmap string float))
    (nextTask : TaskInfo) : bool * gmap string (gmap string float) :=
  let resources := ConvertToMesosTaskInfo nextTask in
  let enough :=
    forallb
      (fun resource =>
         match summary !! "*" with
         | Some _ =>
             negb (PrimFloat.ltb (get summary "*" (fst resource))
                                 (snd resource))
         | None => false
         end)
      resources in
  if enough then
    (true,
     fold_left
       (fun s resource =>
          put s "*" (fst resource)
              (PrimFloat.sub (get s "*" (fst resource)) (snd resource)))
       resources summary)
  else (false, summary).

(** The loop of [assignTasksToOffer] over the tasks still to look at, last
    task first: what is left of the offer, the tasks selected (in the order
    they were taken) and the tasks not taken (last task first). *)
Fixpoint takeLoop (remain : gmap string (gmap string float))
    (fromLast : list TaskInfo) (selectedTasks : list TaskInfo)
    : gmap string (gmap string float) * list TaskInfo * list TaskInfo :=
  match fromLast with
  | [] => (remain, selectedTasks, [])
  | t :: rest =>
      let r := CanTakeTask remain t in
      if fst r then takeLoop (snd r) rest (selectedTasks ++ [t])%list
      else (snd r, selectedTasks, fromLast)
  end.

(** What [assignTasksToOffer] did: the slice it returns, the tasks it
    selected, and the result of the launch call when it made one. *)
Record Assigned := {
  returned : list TaskInfo;
  selected : list TaskInfo;
  launch : option (option error)
}.

Section Assign.

(** [s.launcher.LaunchTasks(offer, selectedTasks)]. *)
Variable LaunchTasks : list OfferResource -> list TaskInfo -> option error.

(** [func (s *schedulerManager) assignTasksToOffer(tasks, offer)]. *)
Definition assignTasksToOffer (tasks : list TaskInfo)
    (offer : list OfferResource) : Assigned :=
  let remain := GetOfferScalarResourceSummary offer in
  let r := takeLoop remain (rev tasks) [] in
  let selectedTasks := snd (fst r) in
  let tasks' := rev (snd r) in
  if (0 <? length selectedTasks)%nat then
    {| returned := tasks'; selected := selectedTasks;
       launch := Some (LaunchTasks offer selectedTasks) |}
  else
    {| returned := tasks'; selected := selectedTasks; launch := None |}.

End Assign.

(** What a task asks of one resource: its limit for cpus, mem and disk,
    nothing for any other name. *)
Definition demand (name : string) (t : TaskInfo) : float :=
  match list_find (fun resource => fst resource = name)
                  (ConvertToMesosTaskInfo t) with
  | Some (_, resource) => snd resource
  | None => PrimFloat.zero
  end.

(** An amount after the demands of a list of tasks were taken off it one
    after the other, each subtraction rounded as the code rounds it. *)
Definition leftAfter (name : string) (ts : list TaskInfo) (start : float)
    : float :=
  fold_left (fun acc t => PrimFloat.sub acc (demand name t)) ts start.

(** The scalar values an offer holds of a resource under a role, added up
    from 0 in the order of the offer, each addition rounded. *)
Definition offered (role name : string) (resources : list OfferResource)
    : float :=
  fold_left
    (fun acc resource =>
       match ResScalar resource with
       | Some value =>
           if bool_decide (default "*" (Role resource) = role
                           /\ ResName resource = name)
           then PrimFloat.add acc value else acc
       | None => acc
       end)
    resources PrimFloat.zero.

(** *** Sample data *)

Definition offerOf (cpus mem disk : float) : list OfferResource :=
  [ {| Role := None; ResName := "cpus"; ResScalar := Some cpus |};
    {| Role := Some "*"; ResName := "mem"; ResScalar := Some mem |};
    {| Role := None; ResName := "disk"; ResScalar := Some disk |} ].

Definition taskOf (name : string) (cpus mem disk : float) : TaskInfo :=
  {| TaskId := name;
     Resource := {| CpusLimit := cpus; MemLimitMb := mem;
                    DiskLimitMb := disk |} |}.

Definition launchFails (offer : list OfferResource) (ts : list TaskInfo)
    : option error :=
  Some "launch failed".

Definition sampleOffer : list OfferResource := offerOf 4%float 8%float 16%float.

Definition sampleTasks : list TaskInfo :=
  [taskOf "a" 2%float 2%float 2%float; taskOf "b" 1%float 1%float 1%float;
   taskOf "c" 2%float 2%float 2%float].

(** The float64 values nearest to 0.1, 0.3 and 0.4. *)
Definition f01 : float := 0x1.999999999999ap-4%float.
Definition f03 : float := 0x1.3333333333333p-2%float.
Definition f04 : float := 0x1.999999999999ap-2%float.

(** One cpu on offer; tasks of 0.4, 0.3 and 0.3 cpus. *)
Definition unitOffer : list OfferResource := offerOf 1%float 8%float 16%float.

Definition fractionTasks : list TaskInfo :=
  [taskOf "x" f04 1%float 1%float; taskOf "y" f03 1%float 1%float;
   taskOf "z" f03 1%float 1%float].

End sched.

(** ** master/job: creating a job *)

Module master_job.

Record JobConfig := { InstanceCount : N }.

Record TaskInfo := {
  RuntimeState : pb_task.TaskState;
  RuntimeTaskId : string;
  JobConfig_ : JobConfig;
  InstanceId : N;
  JobId : string
}.

Inductive CreateResponse :=
| AlreadyExists (id : string) (message : error)
| Result (id : string).

(** The job store, the task store and the task queue, for one job id.
    The fault fields say which calls fail: the creation of the job (for
    whatever reason), the creation of the task of an instance, the enqueue
    call for a slice of tasks.  [queue] lists the slices enqueued, oldest
    first. *)
Record World := {
  job : option JobConfig;
  tasks : gmap N TaskInfo;
  queue : list (list TaskInfo);
  jobFault : option error;
  createFault : gset N;
  enqueueFails : list TaskInfo -> bool
}.

Definition set_job (c : JobConfig) (w : World) : World :=
  {| job := Some c; tasks := tasks w; queue := queue w;
     jobFault := jobFault w; createFault := createFault w;
     enqueueFails := enqueueFails w |}.

Definition set_tasks (m : gmap N TaskInfo) (w : World) : World :=
  {| job := job w; tasks := m; queue := queue w;
     jobFault := jobFault w; createFault := createFault w;
     enqueueFails := enqueueFails w |}.

Definition set_queue (q : list (list TaskInfo)) (w : World) : World :=
  {| job := job w; tasks := tasks w; queue := q;
     jobFault := jobFault w; createFault := createFault w;
     enqueueFails := enqueueFails w |}.

Definition CreateJob (w : World) (c : JobConfig) : World * option error :=
  match jobFault w with
  | Some e => (w, Some e)
  | None => (set_job c w, None)
  end.

Definition CreateTask (w : World) (i : N) (t : TaskInfo)
    : World * option error :=
  if bool_decide (i ∈ createFault w) then (w, Some "create failed")
  else (set_tasks (<[i := t]> (tasks w)) w, None).

(** [func (m *jobManager) putTasks(tasks) error]: one Enqueue call. *)
Definition putTasks (w : World) (ts : list TaskInfo)
    : World * option error :=
  if enqueueFails w ts then (w, Some "enqueue failed")
  else (set_queue (queue w ++ [ts])%list w, None).

Section Create.

(** [uuid.NewUUID().String()] for the task of an instance. *)
Variable NewUUID : N -> string.

(** The task that the loop of [Create] builds for instance [i]. *)
Definition taskFor (jobId : string) (jobConfig : JobConfig) (i : N)
    : TaskInfo :=
  {| RuntimeState := pb_task.INITIALIZED;
     RuntimeTaskId :=
       jobId ++ "-" ++ formatInt (Z.of_N i) ++ "-" ++ NewUUID i;
     JobConfig_ := jobConfig;
     InstanceId := i;
     JobId := jobId |}.

(** The loop of [Create] over the instances: a task whose creation fails
    is skipped, the result of [putTasks] is not looked at. *)
Fixpoint createTasks (w : World) (jobId : string) (jobConfig : JobConfig)
    (instances : list N) : World :=
  match instances with
  | [] => w
  | i :: rest =>
      let taskInfo := taskFor jobId jobConfig i in
      match CreateTask w i taskInfo with
      | (w', Some _) => createTasks w' jobId jobConfig rest
      | (w', None) =>
          createTasks (fst (putTasks w' [taskInfo])) jobId jobConfig rest
      end
  end.

(** [func (m *jobManager) Create(ctx, reqMeta, body)]: the response; the
    error it returns is always nil. *)
Definition Create (w : World) (jobId : string) (jobConfig : JobConfig)
    : World * CreateResponse :=
  match CreateJob w jobConfig with
  | (w', Some e) => (w', AlreadyExists jobId e)
  | (w', None) =>
      (createTasks w' jobId jobConfig
         (recovery.instanceRange 0 (InstanceCount jobConfig)),
       Result jobId)
  end.

End Create.

(** *** Sample data: a new job of three instances; the creation of
    instance 1 fails and so does every enqueue call *)

Definition brokenWorld : World :=
  {| job := None; tasks := ∅; queue := [];
     jobFault := None; createFault := {[ 1%N ]};
     enqueueFails := fun _ => true |}.

End master_job.

(** * Properties *)

(** ** The tracked task *)

Section TrackedProps.
Import pb_task tracked.

Lemma DeepEqual_true a b : DeepEqual a b = true <-> a = b.
Proof. unfold DeepEqual. apply bool_decide_eq_true. Qed.

Lemma DeepEqual_false a b : DeepEqual a b = false <-> a <> b.
Proof. unfold DeepEqual. apply bool_decide_eq_false. Qed.

(** An update that is not dropped leaves every field but the runtime and
    its update time alone. *)
Lemma UpdateRuntime_frame t r now :
  job (UpdateRuntime t r now) = job t
  /\ id (UpdateRuntime t r now) = id t
  /\ lastAction (UpdateRuntime t r now) = lastAction t
  /\ lastActionTime (UpdateRuntime t r now) = lastActionTime t
  /\ killingAttempts (UpdateRuntime t r now) = killingAttempts t.
Proof.
  unfold UpdateRuntime.
  destruct (DeepEqual _ _); [done|].
  destruct (_ <? _)%N; [done|].
  destruct (_ && _); done.
Qed.

(** What [UpdateRuntime] does when it does not drop the update. *)
Lemma UpdateRuntime_taken t r now :
  runtime t <> r ->
  (revisionOf (runtime t) <= revisionOf r)%N ->
  runtime (UpdateRuntime t r now) = r
  /\ lastRuntimeUpdateTime (UpdateRuntime t r now) = now.
Proof.
  intros Hne Hle. unfold UpdateRuntime.
  apply DeepEqual_false in Hne. rewrite Hne.
  destruct (N.ltb_spec (revisionOf r) (revisionOf (runtime t))); [lia|].
  destruct (_ && _); done.
Qed.

(** C1 (stale update dropped): when the cached runtime carries revision
    [r] and the new runtime a strictly smaller one, [UpdateRuntime]
    returns the task as it was: the cached runtime, the time of the last
    runtime update and every other field are unchanged. *)
Theorem UpdateRuntime_stale_dropped (t : task) (new : option RuntimeInfo)
    (now : Time) :
  (revisionOf new < revisionOf (runtime t))%N ->
  UpdateRuntime t new now = t.
Proof.
  intros Hlt. unfold UpdateRuntime.
  destruct (DeepEqual (runtime t) new); [reflexivity|].
  destruct (N.ltb_spec (revisionOf new) (revisionOf (runtime t))) as [_|Hge].
  - reflexivity.
  - lia.
Qed.

(** Scenario S7: cached revision 5, incoming revision 4. *)
Lemma UpdateRuntime_stale_dropped_witness :
  (revisionOf (Some (runtime_rev FAILED 4))
   < revisionOf (runtime (cached_at (Some (runtime_rev RUNNING 5)))))%N
  /\ UpdateRuntime (cached_at (Some (runtime_rev RUNNING 5)))
                   (Some (runtime_rev FAILED 4)) 99
     = cached_at (Some (runtime_rev RUNNING 5)).
Proof.
  split.
  - vm_compute. reflexivity.
  - apply (UpdateRuntime_stale_dropped
             (cached_at (Some (runtime_rev RUNNING 5)))
             (Some (runtime_rev FAILED 4)) 99).
    vm_compute. reflexivity.
Defined.

(** C2, the code at an equal revision: the cached runtime (revision 5,
    RUNNING) meets a different runtime of the same revision (FAILED).
    The cache entry is not left nil: the new runtime is stored and the
    update time is set. *)
Theorem UpdateRuntime_same_revision_replaces :
  let t := cached_at (Some (runtime_rev RUNNING 5)) in
  let new := Some (runtime_rev FAILED 5) in
  runtime t <> None
  /\ revisionOf new = revisionOf (runtime t)
  /\ runtime t <> new
  /\ runtime (UpdateRuntime t new 99) = new
  /\ runtime (UpdateRuntime t new 99) <> None
  /\ lastRuntimeUpdateTime (UpdateRuntime t new 99) = 99.
Proof. vm_compute. repeat split; congruence. Qed.

(** The same, for every task: at an equal revision the differing runtime
    replaces the cached one. *)
Lemma UpdateRuntime_same_revision t new now :
  runtime t <> new ->
  revisionOf new = revisionOf (runtime t) ->
  runtime (UpdateRuntime t new now) = new
  /\ lastRuntimeUpdateTime (UpdateRuntime t new now) = now.
Proof. intros Hne Heq. apply UpdateRuntime_taken; [done|lia]. Qed.

End TrackedProps.

Section ActionProps.
Import pb_task tracked.

Variable GetTaskRuntime : string -> N -> result RuntimeInfo.
Variable GetTaskConfig : string -> N -> N -> result TaskConfig.
Variables start stop initialize launchRetry sendLaunchInfoToResMgr
  : task -> task * option error.
Variable failureRetry : task -> task * (bool * option error).
Variable UpdateTaskRuntime : task -> RuntimeInfo -> task * option error.

Local Abbreviation run :=
  (RunAction GetTaskRuntime GetTaskConfig start stop initialize launchRetry
             sendLaunchInfoToResMgr failureRetry UpdateTaskRuntime).

(** [reloadRuntime] never returns a nil error. *)
Lemma reloadRuntime_error t now :
  snd (reloadRuntime GetTaskRuntime t now) <> None.
Proof.
  unfold reloadRuntime. destruct (GetTaskRuntime _ _); simpl; congruence.
Qed.

(** The reload action is the recorded action followed by
    [reloadRuntime], with the reschedule flag left set. *)
Lemma RunAction_reload t nowAction now :
  let t0 := set_lastAction ReloadTaskRuntime nowAction t in
  run ReloadTaskRuntime t nowAction now
  = {| after := fst (reloadRuntime GetTaskRuntime t0 now);
       reschedule := true;
       err := snd (reloadRuntime GetTaskRuntime t0 now) |}.
Proof. reflexivity. Qed.

(** What [UpdateRuntime] leaves in the cache when the revision it is
    given is not below the cached one. *)
Lemma UpdateRuntime_not_older t r now :
  (revisionOf (runtime t) <= revisionOf r)%N ->
  runtime (UpdateRuntime t r now) = r.
Proof.
  intros Hle. destruct (decide (runtime t = r)) as [Heq|Hne].
  - unfold UpdateRuntime. apply DeepEqual_true in Heq as Hd. rewrite Hd.
    exact Heq.
  - by apply UpdateRuntime_taken.
Qed.

Lemma UpdateRuntime_older t r now :
  (revisionOf r < revisionOf (runtime t))%N -> UpdateRuntime t r now = t.
Proof.
  intros Hlt. unfold UpdateRuntime.
  destruct (DeepEqual _ _); [reflexivity|].
  destruct (N.ltb_spec (revisionOf r) (revisionOf (runtime t)));
    [reflexivity|lia].
Qed.

(** C10 (reload returns a sentinel error): when the store delivers the
    runtime [r], [reloadRuntime] passes [r] to [UpdateRuntime] and
    returns a non-nil error whatever that call did.  The cache holds [r]
    afterwards whenever the revision of [r] is not below the cached one,
    a nil cache (the case in which the action is chosen) among them, and
    is then stamped with the time of the reload unless it held [r]
    already; a stored runtime of a lower revision is dropped and the task
    stays as it was.  The same holds of [RunAction] on
    [ReloadTaskRuntime], which asks to be rescheduled. *)
Theorem reloadRuntime_sentinel_error (t : task) (r : RuntimeInfo)
    (nowAction now : Time) :
  GetTaskRuntime (job t) (id t) = Ok r ->
  let res := reloadRuntime GetTaskRuntime t now in
  let act := run ReloadTaskRuntime t nowAction now in
  snd res = Some "runtime reloaded after error"
  /\ fst res = UpdateRuntime t (Some r) now
  /\ (runtime t = None ->
      runtime (fst res) = Some r
      /\ lastRuntimeUpdateTime (fst res) = now)
  /\ err act = Some "runtime reloaded after error"
  /\ reschedule act = true
  /\ after act
     = UpdateRuntime (set_lastAction ReloadTaskRuntime nowAction t)
                     (Some r) now
  /\ (runtime t = None -> runtime (after act) = Some r)
  /\ ((revisionOf (runtime t) <= revisionOf (Some r))%N ->
      runtime (fst res) = Some r /\ runtime (after act) = Some r)
  /\ ((revisionOf (runtime t) <= revisionOf (Some r))%N ->
      runtime t <> Some r ->
      lastRuntimeUpdateTime (fst res) = now
      /\ lastRuntimeUpdateTime (after act) = now)
  /\ ((revisionOf (Some r) < revisionOf (runtime t))%N ->
      fst res = t
      /\ after act = set_lastAction ReloadTaskRuntime nowAction t).
Proof.
  intros Hget res act.
  assert (Hres : res = (UpdateRuntime t (Some r) now,
                        Some "runtime reloaded after error")).
  { unfold res, reloadRuntime. rewrite Hget. reflexivity. }
  assert (Hact : act
                 = {| after := UpdateRuntime
                                 (set_lastAction ReloadTaskRuntime
                                                 nowAction t)
                                 (Some r) now;
                      reschedule := true;
                      err := Some "runtime reloaded after error" |}).
  { unfold act. rewrite RunAction_reload. unfold reloadRuntime.
    simpl. rewrite Hget. reflexivity. }
  assert (Hnil : forall t', runtime t' = None ->
                  runtime (UpdateRuntime t' (Some r) now) = Some r
                  /\ lastRuntimeUpdateTime (UpdateRuntime t' (Some r) now)
                     = now).
  { intros t' Hn. apply UpdateRuntime_taken; rewrite Hn.
    - congruence.
    - unfold revisionOf. simpl. lia. }
  rewrite Hres, Hact. simpl.
  split; [reflexivity|]. split; [reflexivity|].
  split; [exact (Hnil t)|].
  split; [reflexivity|]. split; [reflexivity|]. split; [reflexivity|].
  split; [intros Hn; apply Hnil; exact Hn|].
  split.
  { intros Hle. split; apply UpdateRuntime_not_older; exact Hle. }
  split.
  { intros Hle Hne.
    split; apply UpdateRuntime_taken; assumption. }
  intros Hlt. split; apply UpdateRuntime_older; exact Hlt.
Qed.

End ActionProps.

(** A task whose cache is nil reloads revision 7 from the store. *)
Lemma reloadRuntime_sentinel_error_witness :
  tracked.store_with (tracked.runtime_rev pb_task.RUNNING 7) "job" 0%N
  = tracked.Ok (tracked.runtime_rev pb_task.RUNNING 7)
  /\ tracked.err (tracked.sampleRunAction
                    (tracked.runtime_rev pb_task.RUNNING 7)
                    tracked.ReloadTaskRuntime (tracked.cached_at None) 30 31)
     = Some "runtime reloaded after error"
  /\ tracked.runtime
       (tracked.after (tracked.sampleRunAction
                         (tracked.runtime_rev pb_task.RUNNING 7)
                         tracked.ReloadTaskRuntime (tracked.cached_at None)
                         30 31))
     = Some (tracked.runtime_rev pb_task.RUNNING 7).
Proof.
  pose proof (reloadRuntime_sentinel_error
                (tracked.store_with (tracked.runtime_rev pb_task.RUNNING 7))
                tracked.no_config tracked.idle tracked.idle tracked.idle
                tracked.idle tracked.idle tracked.idleRetry
                tracked.idleUpdate
                (tracked.cached_at None)
                (tracked.runtime_rev pb_task.RUNNING 7) 30 31
                eq_refl) as H.
  simpl in H.
  destruct H as (_ & _ & _ & Herr & _ & _ & Hrun & _).
  split; [reflexivity|]. split; [exact Herr|]. apply Hrun. reflexivity.
Defined.

(** C10 as stated fails on a cache that is ahead of the store.  The cache
    holds revision 9, the store delivers revision 7: the reload returns the
    sentinel error, and the cache still holds revision 9, with the update
    time it had; the runtime read from the store is not in the cache. *)
Lemma reloadRuntime_stale_store_counterexample :
  let t := tracked.cached_at (Some (tracked.runtime_rev pb_task.RUNNING 9)) in
  let stored := tracked.runtime_rev pb_task.FAILED 7 in
  let act := tracked.sampleRunAction stored tracked.ReloadTaskRuntime t
                                     30 31 in
  tracked.store_with stored "job" 0%N = tracked.Ok stored
  /\ tracked.err act = Some "runtime reloaded after error"
  /\ tracked.runtime (tracked.after act)
     = Some (tracked.runtime_rev pb_task.RUNNING 9)
  /\ tracked.lastRuntimeUpdateTime (tracked.after act) = 20
  /\ ~ (tracked.runtime (tracked.after act) = Some stored).
Proof.
  cbv zeta. split; [reflexivity|]. split; [reflexivity|].
  split; [reflexivity|]. split; [reflexivity|].
  intros H. vm_compute in H. discriminate H.
Qed.

(** ** Batch placement *)

Section ScalarProps.
Import scalar.

Lemma Contains_within r other :
  Contains r other = true <-> within other r.
Proof.
  unfold Contains, within.
  rewrite !andb_true_iff, !Qle_bool_iff. tauto.
Qed.

Lemma Contains_false r other :
  Contains r other = false <-> ~ within other r.
Proof.
  rewrite <- Contains_within. destruct (Contains r other); split;
    congruence.
Qed.

Lemma TrySubtract_Some r other r' :
  TrySubtract r other = Some r' ->
  within other r /\ r' = Subtract r other.
Proof.
  unfold TrySubtract. destruct (Contains r other) eqn:E; [|discriminate].
  intros [= <-]. split; [by apply Contains_within|reflexivity].
Qed.

Lemma TrySubtract_None r other :
  TrySubtract r other = None -> Contains r other = false.
Proof. unfold TrySubtract. destruct (Contains r other); congruence. Qed.

(** Adding a demand that fits to a total that fits what is left. *)
Lemma within_Add u s r :
  within u r -> within s (Subtract r u) -> within (Add u s) r.
Proof.
  unfold within, Add, Subtract. simpl.
  intros (?&?&?&?) (?&?&?&?). repeat split; lra.
Qed.

Lemma within_Add_Zero u r : within u r -> within (Add u Zero) r.
Proof.
  unfold within, Add, Zero. simpl.
  intros (?&?&?&?). repeat split; lra.
Qed.

End ScalarProps.

Section PortProps.
Import mesos_v1 batch.

Lemma addRanges_app p l1 l2 :
  addRanges p (l1 ++ l2)%list = addRanges (addRanges p l1) l2.
Proof. unfold addRanges. apply fold_left_app. Qed.

Lemma availablePorts_ranges resources :
  availablePorts resources = addRanges 0 (portRanges resources).
Proof.
  unfold availablePorts, portRanges.
  generalize 0%N as p.
  induction resources as [|r rs IH]; intros p; simpl; [reflexivity|].
  rewrite addRanges_app, IH.
  destruct (String.eqb (Name r) "ports"); reflexivity.
Qed.

Lemma addRanges_exact ranges : forall p,
  Forall (fun r => (Begin r <= End_ r)%N) ranges ->
  Z.of_N p + fold_right (fun r s => rangeSize r + s) 0 ranges < 2 ^ 64 ->
  Z.of_N (addRanges p ranges)
  = Z.of_N p + fold_right (fun r s => rangeSize r + s) 0 ranges.
Proof.
  induction ranges as [|r ranges IH]; intros p Hwf Hsum; simpl in *.
  - unfold addRanges. simpl. lia.
  - inversion Hwf as [|? ? Hr Hrest]; subst.
    assert (Htail : 0 <= fold_right (fun r s => rangeSize r + s) 0 ranges).
    { clear -Hrest. induction Hrest; simpl; [lia|].
      unfold rangeSize in *. lia. }
    unfold rangeSize in *.
    change (addRanges p (r :: ranges))
      with (addRanges (wrap64 (Z.of_N p
                               + (Z.of_N (End_ r) - Z.of_N (Begin r) + 1)))
                      ranges).
    assert (Hw : Z.of_N (wrap64 (Z.of_N p
                                 + (Z.of_N (End_ r) - Z.of_N (Begin r) + 1)))
                 = Z.of_N p + (Z.of_N (End_ r) - Z.of_N (Begin r) + 1)).
    { unfold wrap64. rewrite Z2N.id by (apply Z.mod_pos_bound; lia).
      apply Z.mod_small. lia. }
    rewrite IH; [rewrite Hw; lia|exact Hrest|rewrite Hw; lia].
Qed.

(** X9. On an offer whose port ranges are well formed and hold fewer than 2^64
    ports, [availablePorts] is the number of ports in the ranges. *)
Lemma availablePorts_exact resources :
  Forall (fun r => (Begin r <= End_ r)%N) (portRanges resources) ->
  portCount resources < 2 ^ 64 ->
  Z.of_N (availablePorts resources) = portCount resources.
Proof.
  intros Hwf Hsum. rewrite availablePorts_ranges.
  rewrite addRanges_exact; [reflexivity|exact Hwf|exact Hsum].
Qed.

End PortProps.

Section BatchProps.
Import mesos_v1 scalar batch.

Variable FromMesosResources : list Resource -> Resources.
Variable FromResourceConfig : option ResourceConfig -> Resources.

Local Abbreviation fill := (fillLoop FromResourceConfig).
Local Abbreviation usage := (usageOf FromResourceConfig).
Local Abbreviation total := (sumUsage FromResourceConfig).
Local Abbreviation fit := (fits FromResourceConfig).
Local Abbreviation left := (remainAfter FromResourceConfig).

Lemma usageOf_SetHost offer a : usage (SetHost offer a) = usage a.
Proof. reflexivity. Qed.

(** Everything the loop places carries the offer as its host. *)
Lemma fillLoop_hosts l : forall offer rp r a,
  a ∈ fst (fill offer rp r l) -> GetHost a = Some offer.
Proof.
  induction l as [|p l IH]; intros offer rp r a; simpl.
  - intros H. inversion H.
  - destruct (rp <? NumPorts (Task p))%N; simpl.
    + intros H. inversion H.
    + destruct (TrySubtract r _) as [r'|]; simpl.
      * intros H. apply elem_of_cons in H as [->|H]; [reflexivity|].
        eapply IH. exact H.
      * intros H. inversion H.
Qed.

(** The loop invariant behind placement sufficiency: what was placed
    asks for no more ports than were left, and for no more of any scalar
    resource than was left. *)
Lemma fillLoop_sufficient l : forall offer rp r,
  (sumPorts (fst (fill offer rp r l)) <= rp)%N
  /\ (fst (fill offer rp r l) <> [] ->
      within (total (fst (fill offer rp r l))) r).
Proof.
  induction l as [|p l IH]; intros offer rp r; simpl.
  - split; [lia|congruence].
  - destruct (N.ltb_spec rp (NumPorts (Task p))) as [Hlt|Hge]; simpl.
    + split; [lia|congruence].
    + destruct (TrySubtract r _) as [r'|] eqn:Hsub; simpl.
      * apply TrySubtract_Some in Hsub as [Hin ->].
        destruct (IH offer (rp - NumPorts (Task p))%N
                     (Subtract r (FromResourceConfig (Resource_ (Task p)))))
          as [Hports Hres].
        split; [lia|]. intros _.
        destruct (fst (fill offer _ _ l)) as [|q placed] eqn:Hplaced.
        -- simpl. apply within_Add_Zero. exact Hin.
        -- apply within_Add; [exact Hin|]. apply Hres. congruence.
      * split; [lia|congruence].
Qed.

(** The uint64 counter never holds more than the well-formed ranges it
    went over: a wrap-around can only make it smaller. *)
Lemma addRanges_le ranges : forall p,
  Forall (fun r => (Begin r <= End_ r)%N) ranges ->
  Z.of_N (addRanges p ranges)
  <= Z.of_N p + fold_right (fun r s => rangeSize r + s) 0 ranges.
Proof.
  induction ranges as [|r ranges IH]; intros p Hwf; simpl.
  - unfold addRanges. simpl. lia.
  - inversion Hwf as [|? ? Hr Hrest]; subst.
    change (addRanges p (r :: ranges))
      with (addRanges (wrap64 (Z.of_N p
                               + (Z.of_N (End_ r) - Z.of_N (Begin r) + 1)))
                      ranges).
    specialize (IH (wrap64 (Z.of_N p
                            + (Z.of_N (End_ r) - Z.of_N (Begin r) + 1)))
                   Hrest).
    assert (Hw : Z.of_N (wrap64 (Z.of_N p
                                 + (Z.of_N (End_ r) - Z.of_N (Begin r) + 1)))
                 <= Z.of_N p + (Z.of_N (End_ r) - Z.of_N (Begin r) + 1)).
    { unfold wrap64. rewrite Z2N.id by (apply Z.mod_pos_bound; lia).
      apply Z.mod_le; lia. }
    unfold rangeSize at 1. lia.
Qed.

Lemma availablePorts_le resources :
  Forall (fun r => (Begin r <= End_ r)%N) (portRanges resources) ->
  Z.of_N (availablePorts resources) <= portCount resources.
Proof.
  intros Hwf. rewrite availablePorts_ranges.
  pose proof (addRanges_le (portRanges resources) 0%N Hwf) as H.
  unfold portCount. simpl in H. exact H.
Qed.

(** C3 (placement sufficiency): on an offer whose port ranges are well
    formed (no range ends before it begins), for every assignment that
    [fillOffer] assigned to the offer, the assigned tasks together ask
    for no more of cpu, mem, disk and gpu than the offer has (their sum
    can be subtracted from the offer's resources, [Contains] holds), and
    for no more ports than the offer's port ranges hold, counted range by
    range; nor for more than the counter of [availablePorts], which holds
    of every offer.  Scalar quantities are exact rationals. *)
Theorem fillOffer_sufficient (offer : Host) (unassigned : list Assignment)
    (a : Assignment) :
  Forall (fun r => (Begin r <= End_ r)%N) (portRanges (Resources_ offer)) ->
  a ∈ fst (fillOffer FromMesosResources FromResourceConfig offer
                     unassigned) ->
  let placed :=
    fst (fillOffer FromMesosResources FromResourceConfig offer unassigned) in
  GetHost a = Some offer
  /\ Contains (FromMesosResources (Resources_ offer)) (total placed) = true
  /\ within (total placed) (FromMesosResources (Resources_ offer))
  /\ (sumPorts placed <= availablePorts (Resources_ offer))%N
  /\ Z.of_N (sumPorts placed) <= portCount (Resources_ offer).
Proof.
  intros Hwf Hin placed. unfold fillOffer in Hin, placed.
  destruct (fillLoop_sufficient unassigned offer
              (availablePorts (Resources_ offer))
              (FromMesosResources (Resources_ offer))) as [Hports Hres].
  fold placed in Hports, Hres, Hin.
  assert (Hne : placed <> []).
  { intros E. rewrite E in Hin. inversion Hin. }
  split; [eapply fillLoop_hosts; exact Hin|].
  split; [apply Contains_within; apply Hres; exact Hne|].
  split; [apply Hres; exact Hne|]. split; [exact Hports|].
  pose proof (availablePorts_le (Resources_ offer) Hwf). lia.
Qed.

End BatchProps.

(** Scenario S1: both tasks are placed on an offer with four ports. *)
Lemma fillOffer_sufficient_witness :
  batch.SetHost (batch.mkOffer 4 4096 100 103) (batch.mkTask "a" 2 1024 2)
    ∈ fst (batch.sampleFill (batch.mkOffer 4 4096 100 103)
             [batch.mkTask "a" 2 1024 2; batch.mkTask "b" 2 1024 2])
  /\ (batch.sumPorts
        (fst (batch.sampleFill (batch.mkOffer 4 4096 100 103)
                [batch.mkTask "a" 2 1024 2; batch.mkTask "b" 2 1024 2]))
      <= batch.availablePorts
           (batch.Resources_ (batch.mkOffer 4 4096 100 103)))%N
  /\ Z.of_N (batch.sumPorts
               (fst (batch.sampleFill (batch.mkOffer 4 4096 100 103)
                       [batch.mkTask "a" 2 1024 2;
                        batch.mkTask "b" 2 1024 2])))
     <= batch.portCount (batch.Resources_ (batch.mkOffer 4 4096 100 103)).
Proof.
  assert (Hin : batch.SetHost (batch.mkOffer 4 4096 100 103)
                  (batch.mkTask "a" 2 1024 2)
                ∈ fst (batch.sampleFill (batch.mkOffer 4 4096 100 103)
                         [batch.mkTask "a" 2 1024 2;
                          batch.mkTask "b" 2 1024 2])).
  { apply list_elem_of_here. }
  assert (Hwf : Forall (fun r => (mesos_v1.Begin r <= mesos_v1.End_ r)%N)
                  (batch.portRanges
                     (batch.Resources_ (batch.mkOffer 4 4096 100 103)))).
  { repeat constructor. simpl. lia. }
  split; [exact Hin|].
  exact (proj2 (proj2 (proj2
           (fillOffer_sufficient batch.sampleFromMesosResources
              batch.sampleFromResourceConfig _ _ _ Hwf Hin)))).
Defined.

(** C3 as stated fails on an offer with a range that ends before it
    begins.  The range 5..3 holds no port, yet the uint64 counter of
    [availablePorts] wraps to 2^64 - 1, and [fillOffer] places a task that
    needs 8000 ports. *)
Lemma fillOffer_malformed_range_counterexample :
  let offer := batch.mkOffer 4 4096 5 3 in
  let task := batch.mkTask "a" 1 1 8000 in
  let placed := fst (batch.sampleFill offer [task]) in
  (forall p : N, ~ (5 <= p <= 3)%N)
  /\ batch.availablePorts (batch.Resources_ offer) = 18446744073709551615%N
  /\ placed = [batch.SetHost offer task]
  /\ batch.SetHost offer task ∈ placed
  /\ batch.sumPorts placed = 8000%N
  /\ ~ (Z.of_N (batch.sumPorts placed)
        <= batch.portCount (batch.Resources_ offer))
  /\ ~ (Z.of_N (batch.sumPorts placed) <= 0).
Proof.
  cbv zeta.
  assert (Hplaced : fst (batch.sampleFill (batch.mkOffer 4 4096 5 3)
                           [batch.mkTask "a" 1 1 8000])
                    = [batch.SetHost (batch.mkOffer 4 4096 5 3)
                         (batch.mkTask "a" 1 1 8000)])
    by (vm_compute; reflexivity).
  rewrite Hplaced.
  split; [intros p; lia|]. split; [vm_compute; reflexivity|].
  split; [reflexivity|]. split; [apply list_elem_of_here|].
  split; [reflexivity|].
  split; [vm_compute; intros H; apply H; reflexivity|].
  vm_compute. intros H; apply H; reflexivity.
Qed.

Section FirstFitProps.
Import mesos_v1 scalar batch.

Variable FromMesosResources : list Resource -> Resources.
Variable FromResourceConfig : option ResourceConfig -> Resources.

Local Abbreviation fill := (fillLoop FromResourceConfig).
Local Abbreviation fit := (fits FromResourceConfig).
Local Abbreviation left := (remainAfter FromResourceConfig).

(** The loop takes the longest prefix in which every assignment fits what
    the ones before it left, and returns the rest as it found it. *)
Lemma fillLoop_first_fit l : forall offer rp r,
  exists k : nat,
    fill offer rp r l = (SetHost offer <$> take k l, drop k l)
    /\ (forall j a, (j < k)%nat -> l !! j = Some a ->
          fit (portsAfter rp (take j l)) (left r (take j l)) a = true)
    /\ (forall a, l !! k = Some a ->
          fit (portsAfter rp (take k l)) (left r (take k l)) a = false).
Proof.
  induction l as [|p l IH]; intros offer rp r.
  - exists 0%nat. simpl. repeat split; intros; try lia; discriminate.
  - simpl fillLoop.
    destruct (N.ltb_spec rp (NumPorts (Task p))) as [Hlt|Hge].
    + exists 0%nat. simpl. split; [reflexivity|].
      split; [intros; lia|].
      intros a [= <-]. unfold fits.
      destruct (N.leb_spec (NumPorts (Task p)) rp); [lia|reflexivity].
    + destruct (TrySubtract r _) as [r'|] eqn:Hsub.
      * apply TrySubtract_Some in Hsub as [Hin ->].
        destruct (IH offer (rp - NumPorts (Task p))%N
                     (Subtract r (FromResourceConfig (Resource_ (Task p)))))
          as (k & Heq & Hfit & Hstop).
        exists (S k). rewrite Heq. simpl.
        split; [reflexivity|]. split.
        -- intros [|j] a Hj Ha; simpl in *.
           ++ injection Ha as <-. unfold fits, usageOf.
              apply andb_true_iff. split.
              ** apply N.leb_le. lia.
              ** by apply Contains_within.
           ++ apply Hfit; [lia|exact Ha].
        -- intros a Ha. apply Hstop. exact Ha.
      * exists 0%nat. simpl. split; [reflexivity|].
        split; [intros; lia|].
        intros a [= <-]. unfold fits, usageOf.
        apply TrySubtract_None in Hsub. rewrite Hsub.
        apply andb_false_r.
Qed.

(** C4 (first fit, stop at the first misfit): [fillOffer] assigns the
    first [k] assignments, each of which fits the ports and scalar
    resources the earlier ones left, and returns the input from position
    [k] on, untouched; assignment [k], when there is one, does not fit.
    When every assignment fits the returned list is empty.  Assigning is
    setting the host: every assignment it placed carries the offer as its
    host, and the placed assignments are the first [k] of the input, task
    for task. *)
Theorem fillOffer_first_fit (offer : Host) (unassigned : list Assignment) :
  exists k : nat,
    (k <= length unassigned)%nat
    /\ fillOffer FromMesosResources FromResourceConfig offer unassigned
       = (SetHost offer <$> take k unassigned, drop k unassigned)
    /\ (forall j a, (j < k)%nat -> unassigned !! j = Some a ->
          fit (portsAfter (availablePorts (Resources_ offer))
                          (take j unassigned))
              (left (FromMesosResources (Resources_ offer))
                    (take j unassigned)) a = true)
    /\ (forall a, unassigned !! k = Some a ->
          fit (portsAfter (availablePorts (Resources_ offer))
                          (take k unassigned))
              (left (FromMesosResources (Resources_ offer))
                    (take k unassigned)) a = false)
    /\ (k = length unassigned ->
        snd (fillOffer FromMesosResources FromResourceConfig
                       offer unassigned) = [])
    /\ (forall a,
          a ∈ fst (fillOffer FromMesosResources FromResourceConfig
                             offer unassigned) ->
          GetHost a = Some offer)
    /\ Task <$> fst (fillOffer FromMesosResources FromResourceConfig
                               offer unassigned)
       = Task <$> take k unassigned
    /\ (forall j a, (j < k)%nat -> unassigned !! j = Some a ->
          exists a',
            fst (fillOffer FromMesosResources FromResourceConfig
                           offer unassigned) !! j = Some a'
            /\ Task a' = Task a /\ GetHost a' = Some offer).
Proof.
  assert (Hhost : forall a,
            a ∈ fst (fillOffer FromMesosResources FromResourceConfig
                               offer unassigned) ->
            GetHost a = Some offer).
  { intros a Ha. unfold fillOffer in Ha. eapply fillLoop_hosts. exact Ha. }
  assert (Hplaced : forall k,
            fst (fillOffer FromMesosResources FromResourceConfig
                           offer unassigned)
            = SetHost offer <$> take k unassigned ->
            Task <$> fst (fillOffer FromMesosResources FromResourceConfig
                                    offer unassigned)
            = Task <$> take k unassigned
            /\ (forall j a, (j < k)%nat -> unassigned !! j = Some a ->
                  exists a',
                    fst (fillOffer FromMesosResources FromResourceConfig
                                   offer unassigned) !! j = Some a'
                    /\ Task a' = Task a /\ GetHost a' = Some offer)).
  { intros k Heq. split.
    - rewrite Heq, <- list_fmap_compose. apply list_fmap_ext.
      intros i x _. reflexivity.
    - intros j a Hj Ha. exists (SetHost offer a).
      split; [|split; reflexivity].
      rewrite Heq, list_lookup_fmap, lookup_take_lt by exact Hj.
      rewrite Ha. reflexivity. }
  revert Hhost Hplaced. unfold fillOffer. intros Hhost Hplaced.
  destruct (fillLoop_first_fit unassigned offer
              (availablePorts (Resources_ offer))
              (FromMesosResources (Resources_ offer)))
    as (k & Heq & Hfit & Hstop).
  destruct (Nat.le_gt_cases k (length unassigned)) as [Hle|Hgt].
  - exists k.
    split; [exact Hle|]. split; [exact Heq|]. split; [exact Hfit|].
    split; [exact Hstop|].
    split; [intros ->; rewrite Heq; simpl; apply drop_all|].
    split; [exact Hhost|].
    apply Hplaced. rewrite Heq. reflexivity.
  - exists (length unassigned).
    assert (Heq' : fillLoop FromResourceConfig offer
                     (availablePorts (Resources_ offer))
                     (FromMesosResources (Resources_ offer)) unassigned
                   = (SetHost offer <$> take (length unassigned) unassigned,
                      drop (length unassigned) unassigned)).
    { rewrite Heq. rewrite !take_ge, !drop_ge by lia. reflexivity. }
    split; [lia|]. split; [exact Heq'|]. split.
    { intros j a Hj Ha. apply Hfit; [lia|exact Ha]. }
    split.
    { intros a Ha. apply lookup_lt_Some in Ha. lia. }
    split; [intros _; rewrite Heq'; simpl; apply drop_all|].
    split; [exact Hhost|].
    apply Hplaced. rewrite Heq'. reflexivity.
Qed.

End FirstFitProps.

(** Scenario S2: one port on offer, two tasks that need one each; the first
    is placed and the second comes back. *)
Example fillOffer_ports_starvation :
  batch.sampleFill (batch.mkOffer 8 8192 100 100)
    [batch.mkTask "a" 1 1 1; batch.mkTask "b" 1 1 1]
  = ([batch.SetHost (batch.mkOffer 8 8192 100 100) (batch.mkTask "a" 1 1 1)],
     [batch.mkTask "b" 1 1 1]).
Proof. reflexivity. Qed.

(** A later assignment that would fit is not assigned once an earlier one
    did not: the second task needs two ports, the third none. *)
Example fillOffer_stops_at_first_misfit :
  batch.sampleFill (batch.mkOffer 8 8192 100 100)
    [batch.mkTask "a" 1 1 1; batch.mkTask "b" 1 1 2; batch.mkTask "c" 1 1 0]
  = ([batch.SetHost (batch.mkOffer 8 8192 100 100) (batch.mkTask "a" 1 1 1)],
     [batch.mkTask "b" 1 1 2; batch.mkTask "c" 1 1 0]).
Proof. reflexivity. Qed.

(** ** The offer pool *)

Section OfferProps.
Import offer.

Lemma isExpired_unforced holdTime now o :
  isExpired false holdTime now o = true <-> holdTime < now - Timestamp o.
Proof. unfold isExpired. simpl. apply Z.ltb_lt. Qed.

Lemma isExpired_forced holdTime now o :
  isExpired true holdTime now o = true.
Proof. reflexivity. Qed.

(** The ids returned are the keys of the offers that are expired. *)
Lemma RemoveExpiredOffers_returned pool force now (id : string) :
  id ∈ fst (RemoveExpiredOffers pool force now)
  <-> exists o, offers pool !! id = Some o
                /\ isExpired force (offerHoldTime pool) now o = true.
Proof.
  unfold RemoveExpiredOffers. simpl.
  rewrite list_elem_of_fmap. split.
  - intros ([k o] & -> & Hin). simpl.
    apply elem_of_map_to_list in Hin.
    apply map_lookup_filter_Some in Hin as [Hlook Hexp].
    exists o. split; [exact Hlook|exact Hexp].
  - intros (o & Hlook & Hexp). exists (id, o). split; [reflexivity|].
    apply elem_of_map_to_list. apply map_lookup_filter_Some.
    split; [exact Hlook|exact Hexp].
Qed.

(** The pool keeps the offers that are not expired, as they were. *)
Lemma RemoveExpiredOffers_kept pool force now (id : string) o :
  offers (snd (RemoveExpiredOffers pool force now)) !! id = Some o
  <-> offers pool !! id = Some o
      /\ isExpired force (offerHoldTime pool) now o = false.
Proof. unfold RemoveExpiredOffers. simpl. apply map_lookup_filter_Some. Qed.

(** C5 (offer expiry): without force, [RemoveExpiredOffers] returns the
    ids of exactly the offers whose age [now - timestamp] exceeds the
    hold time, each once, and the pool keeps exactly the others,
    unchanged; with force it returns every offer's id and leaves the pool
    empty. *)
Theorem RemoveExpiredOffers_exact (pool : offerPool) (now : Time)
    (id : string) :
  (id ∈ fst (RemoveExpiredOffers pool false now)
   <-> exists o, offers pool !! id = Some o
                 /\ offerHoldTime pool < now - Timestamp o)
  /\ (forall o,
        offers (snd (RemoveExpiredOffers pool false now)) !! id = Some o
        <-> offers pool !! id = Some o
            /\ now - Timestamp o <= offerHoldTime pool)
  /\ NoDup (fst (RemoveExpiredOffers pool false now))
  /\ (id ∈ fst (RemoveExpiredOffers pool true now)
      <-> is_Some (offers pool !! id))
  /\ offers (snd (RemoveExpiredOffers pool true now)) = ∅
  /\ NoDup (fst (RemoveExpiredOffers pool true now)).
Proof.
  split; [|split; [|split; [|split; [|split]]]].
  - rewrite RemoveExpiredOffers_returned.
    split; intros (o & Hlook & Hexp); exists o; split; try exact Hlook;
      by apply isExpired_unforced.
  - intros o. rewrite RemoveExpiredOffers_kept.
    split; intros [Hlook Hexp]; (split; [exact Hlook|]).
    + destruct (Z.le_gt_cases (now - Timestamp o) (offerHoldTime pool))
        as [Hle|Hgt]; [exact Hle|].
      apply isExpired_unforced in Hgt. congruence.
    + destruct (isExpired false (offerHoldTime pool) now o) eqn:E;
        [|reflexivity].
      apply isExpired_unforced in E. lia.
  - apply NoDup_fst_map_to_list.
  - rewrite RemoveExpiredOffers_returned. split.
    + intros (o & Hlook & _). by exists o.
    + intros [o Hlook]. exists o. split; [exact Hlook|reflexivity].
  - apply map_empty. intros i.
    destruct (offers (snd (RemoveExpiredOffers pool true now)) !! i)
      as [o|] eqn:E; [|reflexivity].
    apply RemoveExpiredOffers_kept in E as [_ E]. discriminate.
  - apply NoDup_fst_map_to_list.
Qed.

End OfferProps.

(** Scenario S3 and TestRemoveExpiredOffers: with a hold time of one minute
    an offer that arrived two minutes ago is returned, the fresh ones stay. *)
Example RemoveExpiredOffers_S3 :
  fst (offer.RemoveExpiredOffers
         (offer.poolAt 1000000000000 offer.minute
            [("offer1", 0); ("offer2", 2 * offer.minute); ("offer3", 0)])
         false 1000000000000)
  = ["offer2"]
  /\ dom (offer.offers
            (snd (offer.RemoveExpiredOffers
                    (offer.poolAt 1000000000000 offer.minute
                       [("offer1", 0); ("offer2", 2 * offer.minute);
                        ("offer3", 0)])
                    false 1000000000000)))
     = {[ "offer1"; "offer3" ]}
  /\ length (fst (offer.RemoveExpiredOffers
                    (offer.poolAt 1000000000000 (5 * offer.minute)
                       [("offer1", 0); ("offer2", 0)])
                    true 1000000000000)) = 2%nat.
Proof. vm_compute. repeat split. Qed.

(** ** The update run *)

Section UpdateProps.
Import goalstate.

Variable classify : N -> InstanceStatus.

Lemma tooManyFailures_true u :
  tooManyFailures classify u = true
  <-> MaxFailureInstances (Config u) <> 0%N
      /\ (MaxFailureInstances (Config u)
          <= N.of_nat (length (failedAfter classify u)))%N.
Proof.
  unfold tooManyFailures.
  rewrite andb_true_iff, negb_true_iff, N.eqb_neq, N.leb_le. tauto.
Qed.

(** C6, as the code has it: when the limit on failed instances is set
    (not 0) and the number of failed instances reaches it, then under
    rollback_on_failure in state ROLLING_FORWARD the current and target
    versions are swapped and the state becomes ROLLING_BACKWARD;
    otherwise progress is written with state FAILED and the update is
    enqueued for finalization. *)
Theorem UpdateRun_failure_policy (u : Update) :
  MaxFailureInstances (Config u) <> 0%N ->
  (MaxFailureInstances (Config u)
   <= N.of_nat (length (failedAfter classify u)))%N ->
  failurePolicy classify u.
Proof.
  intros Hset Hreach.
  assert (Htoo : tooManyFailures classify u = true)
    by (apply tooManyFailures_true; split; assumption).
  unfold failurePolicy, UpdateRun. rewrite Htoo. split.
  - intros [Hroll Hfwd]. rewrite Hroll.
    rewrite (bool_decide_eq_true_2 _ Hfwd). simpl. repeat split.
  - intros Hnot.
    destruct (RollbackOnFailure (Config u)) eqn:Hroll; simpl.
    + rewrite bool_decide_eq_false_2; [|intros Hfwd; apply Hnot; by split].
      simpl. split; [reflexivity|]. split.
      * apply list_elem_of_here.
      * apply list_elem_of_further, list_elem_of_here.
    + split; [reflexivity|]. split.
      * apply list_elem_of_here.
      * apply list_elem_of_further, list_elem_of_here.
Qed.

End UpdateProps.

(** TestRunningUpdateRolledBack and scenario S4: three of seven instances
    failed, the limit is three, rollback is on. *)
Lemma UpdateRun_failure_policy_witness :
  goalstate.failurePolicy goalstate.classifyFailed
    (goalstate.updateOf goalstate.ROLLING_FORWARD (goalstate.newSlice 0 7)
                        3 true).
Proof.
  apply (UpdateRun_failure_policy goalstate.classifyFailed
           (goalstate.updateOf goalstate.ROLLING_FORWARD
                               (goalstate.newSlice 0 7) 3 true)).
  - vm_compute. discriminate.
  - vm_compute. discriminate.
Defined.

(** C6 as stated fails when no limit is set.  TestRunningUpdate: the limit
    is 0, no instance has failed, so the count has reached the limit; the
    run writes ordinary progress and neither fails the update nor enqueues
    it. *)
Lemma UpdateRun_zero_limit_counterexample :
  let u := goalstate.updateOf goalstate.ROLLING_FORWARD [2; 3; 4; 5; 6]%N
                              0 false in
  (goalstate.MaxFailureInstances (goalstate.Config u)
   <= N.of_nat (length (goalstate.failedAfter goalstate.classifyRunning u)))%N
  /\ goalstate.UpdateRun goalstate.classifyRunning u
     = (goalstate.withProgress goalstate.ROLLING_FORWARD
          [3; 6]%N [] [2; 4; 5]%N u,
        [goalstate.WriteProgress goalstate.ROLLING_FORWARD
           [3; 6]%N [] [2; 4; 5]%N])
  /\ ~ goalstate.failurePolicy goalstate.classifyRunning u.
Proof.
  split; [vm_compute; discriminate|].
  split; [reflexivity|].
  intros [_ Helse].
  destruct Helse as (Hfailed & _ & _).
  - intros [Hroll _]. discriminate Hroll.
  - discriminate Hfailed.
Qed.

(** The expectations of the suite's failure tests. *)
Example TestRunningUpdateFailed :
  snd (goalstate.UpdateRun goalstate.classifyFailed
         (goalstate.updateOf goalstate.ROLLING_FORWARD
                             (goalstate.newSlice 0 7) 3 false))
  = [goalstate.WriteProgress goalstate.FAILED (goalstate.newSlice 3 7)
       (goalstate.newSlice 0 3) [];
     goalstate.Enqueue].
Proof. reflexivity. Qed.

Example TestUpdateRollingBackFailed :
  snd (goalstate.UpdateRun goalstate.classifyFailed
         (goalstate.updateOf goalstate.ROLLING_BACKWARD
                             (goalstate.newSlice 0 7) 3 true))
  = [goalstate.WriteProgress goalstate.FAILED (goalstate.newSlice 3 7)
       (goalstate.newSlice 0 3) [];
     goalstate.Enqueue].
Proof. reflexivity. Qed.

Example TestRunningUpdatePartialFailure :
  snd (goalstate.UpdateRun goalstate.classifyFailed
         (goalstate.updateOf goalstate.ROLLING_FORWARD
                             (goalstate.newSlice 0 7) 4 false))
  = [goalstate.WriteProgress goalstate.ROLLING_FORWARD
       (goalstate.newSlice 3 7) (goalstate.newSlice 0 3) []].
Proof. reflexivity. Qed.

Example TestRunningUpdateRolledBack :
  let r := goalstate.UpdateRun goalstate.classifyFailed
             (goalstate.updateOf goalstate.ROLLING_FORWARD
                                 (goalstate.newSlice 0 7) 3 true) in
  goalstate.UpdateState (fst r) = goalstate.ROLLING_BACKWARD
  /\ goalstate.TargetVersion (fst r) = 3%N
  /\ goalstate.CurrentVersion (fst r) = 4%N
  /\ snd r = [goalstate.Enqueue].
Proof. repeat split. Qed.

(** ** Recovery *)

Section RecoveryProps.
Import pb_task jm_task recovery.

Variable NewUUID : N -> string.

(** Whatever the job's type, a task created by recovery is INITIALIZED
    with goal state SUCCEEDED. *)
Lemma createTaskForJob_states w jobID i cfg w' task :
  createTaskForJob NewUUID w jobID i cfg = (w', inl task) ->
  State (Runtime task) = INITIALIZED
  /\ GoalState (Runtime task) = SUCCEEDED
  /\ InstanceId task = i
  /\ tasks w' !! i = Some task.
Proof.
  unfold createTaskForJob, CreateTask.
  destruct (bool_decide (i ∈ createFault w)); [discriminate|].
  intros [= <- <-]. simpl. repeat split. apply lookup_insert_eq.
Qed.

(** The sibling path, [CreateInitializingTask], does take the default of
    the job's type. *)
Lemma CreateInitializingTask_goal jobID i cfg :
  State (CreateInitializingTask jobID i cfg) = INITIALIZED
  /\ GoalState (CreateInitializingTask jobID i cfg)
     = GetDefaultTaskGoalState (Type_ cfg).
Proof. split; reflexivity. Qed.

Lemma GetDefaultTaskGoalState_table :
  GetDefaultTaskGoalState SERVICE = RUNNING
  /\ GetDefaultTaskGoalState BATCH = SUCCEEDED.
Proof. split; reflexivity. Qed.

Lemma GetTaskForJob_sound w i :
  readFault w = ∅ ->
  GetTaskForJob w i = match tasks w !! i with
                      | Some t => Found [t]
                      | None => TaskNotFoundError
                      end.
Proof.
  intros Hr. unfold GetTaskForJob. rewrite Hr.
  rewrite bool_decide_eq_false_2 by set_solver. reflexivity.
Qed.

(** One batch of a recovery whose store calls all succeed: the loop ends
    without error; an instance with no record gets one, INITIALIZED with
    goal state SUCCEEDED, and is requeued; an instance with a record keeps
    it, and is requeued when it is INITIALIZED; other instances are not
    touched. *)
Lemma recoverRange_sound jobID cfg instances : forall w acc,
  readFault w = ∅ -> createFault w = ∅ -> NoDup instances ->
  exists w' req,
    recoverRange NewUUID w jobID cfg instances acc = (w', inl req)
    /\ (forall t, t ∈ acc -> t ∈ req)
    /\ (forall j, j ∉ instances -> tasks w' !! j = tasks w !! j)
    /\ (forall i, i ∈ instances ->
          match tasks w !! i with
          | None =>
              exists t, tasks w' !! i = Some t
                        /\ State (Runtime t) = INITIALIZED
                        /\ GoalState (Runtime t) = SUCCEEDED
                        /\ InstanceId t = i /\ t ∈ req
          | Some t =>
              tasks w' !! i = Some t
              /\ (State (Runtime t) = INITIALIZED -> t ∈ req)
          end).
Proof.
  induction instances as [|i rest IH]; intros w acc Hr Hc Hnd.
  - exists w, acc. simpl. repeat split; try tauto.
    intros i Hi. inversion Hi.
  - apply NoDup_cons in Hnd as [Hi Hnd].
    simpl. rewrite (GetTaskForJob_sound w i Hr).
    destruct (tasks w !! i) as [t|] eqn:Hlook.
    + destruct (IH w (acc ++ filter (fun taskInfo =>
                                       State (Runtime taskInfo) = INITIALIZED)
                                    [t])%list Hr Hc Hnd)
        as (w' & req & Heq & Hacc & Hframe & Hall).
      exists w', req. split; [exact Heq|]. split; [|split].
      * intros u Hu. apply Hacc. apply elem_of_app. by left.
      * intros j Hj. apply Hframe. intros Hin. apply Hj.
        by apply list_elem_of_further.
      * intros k Hk. apply elem_of_cons in Hk as [->|Hk]; [|by apply Hall].
        rewrite Hlook. split; [by rewrite Hframe|].
        intros Hinit. apply Hacc. apply elem_of_app. right.
        apply list_elem_of_filter. split; [exact Hinit|].
        apply list_elem_of_here.
    + unfold createTaskForJob, CreateTask. rewrite Hc.
      rewrite bool_decide_eq_false_2 by set_solver.
      match goal with
      | |- context [recoverRange _ ?w1 _ _ _ (acc ++ [?task])%list] =>
          destruct (IH w1 (acc ++ [task])%list Hr Hc Hnd)
            as (w' & req & Heq & Hacc & Hframe & Hall);
          exists w', req; split; [exact Heq|]; split; [|split]
      end.
      * intros u Hu. apply Hacc. apply elem_of_app. by left.
      * intros j Hj. rewrite Hframe.
        -- simpl. apply lookup_insert_ne. intros ->. apply Hj.
           apply list_elem_of_here.
        -- intros Hin. apply Hj. by apply list_elem_of_further.
      * intros k Hk. apply elem_of_cons in Hk as [->|Hk].
        -- rewrite Hlook. eexists. split.
           ++ rewrite (Hframe i Hi). simpl. apply lookup_insert_eq.
           ++ simpl. repeat split. apply Hacc. apply elem_of_app. right.
              apply list_elem_of_here.
        -- specialize (Hall k Hk). simpl in Hall.
           rewrite lookup_insert_ne in Hall; [exact Hall|].
           intros ->. contradiction.
Qed.

End RecoveryProps.

(** C7, the code on a SERVICE job with two instances, of which instance 0
    is stored INITIALIZED and instance 1 is missing: recovery succeeds,
    leaves instance 0 as stored and requeues it, and creates instance 1
    INITIALIZED, but with goal state SUCCEEDED, which is not the default of
    the job's type (RUNNING); both are handed to the resource manager and
    the job becomes PENDING. *)
Theorem recoverJob_service_goal_state :
  let r := recovery.recoverJob recovery.sampleUUID recovery.serviceWorld
                               "J" (20 * offer.minute) in
  let created :=
    {| recovery.Runtime :=
         {| pb_task.State := pb_task.INITIALIZED;
            pb_task.GoalState := pb_task.SUCCEEDED;
            pb_task.MesosTaskId := Some "J-1-uuid";
            pb_task.ConfigVersion := 0; pb_task.DesiredConfigVersion := 0;
            pb_task.FailureCount := 0;
            pb_task.Healthy := pb_task.HEALTH_UNKNOWN;
            pb_task.Revision := None |};
       recovery.InstanceId := 1; recovery.JobId := "J" |} in
  snd r = None
  /\ recovery.tasks recovery.serviceWorld !! 1%N = None
  /\ recovery.tasks (fst r) !! 1%N = Some created
  /\ pb_task.GoalState (recovery.Runtime created)
     <> jm_task.GetDefaultTaskGoalState jm_task.SERVICE
  /\ recovery.tasks (fst r) !! 0%N
     = Some (recovery.storedTask "J" 0 pb_task.INITIALIZED)
  /\ recovery.queued (fst r)
     = [[recovery.storedTask "J" 0 pb_task.INITIALIZED; created]]
  /\ recovery.jobRuntime (fst r)
     = Some {| recovery.JobState_ := recovery.JOB_PENDING;
               recovery.CreationTime := Some 0 |}.
Proof. vm_compute. repeat split; discriminate. Qed.

(** ** Mesos state translation *)

(** C8 (state translation): STAGING and STARTING become LAUNCHED, RUNNING
    and KILLING become RUNNING, FINISHED becomes SUCCEEDED, FAILED and
    ERROR become FAILED, KILLED becomes KILLED, LOST becomes LOST, and
    every other Mesos state becomes INITIALIZED; the function is total. *)
Theorem MesosStateToPelotonState_table :
  util.MesosStateToPelotonState util.TASK_STAGING = pb_task.LAUNCHED
  /\ util.MesosStateToPelotonState util.TASK_STARTING = pb_task.LAUNCHED
  /\ util.MesosStateToPelotonState util.TASK_RUNNING = pb_task.RUNNING
  /\ util.MesosStateToPelotonState util.TASK_KILLING = pb_task.RUNNING
  /\ util.MesosStateToPelotonState util.TASK_FINISHED = pb_task.SUCCEEDED
  /\ util.MesosStateToPelotonState util.TASK_FAILED = pb_task.FAILED
  /\ util.MesosStateToPelotonState util.TASK_ERROR = pb_task.FAILED
  /\ util.MesosStateToPelotonState util.TASK_KILLED = pb_task.KILLED
  /\ util.MesosStateToPelotonState util.TASK_LOST = pb_task.LOST
  /\ (forall m : util.mesos_TaskState,
        m ∉ [util.TASK_STAGING; util.TASK_STARTING; util.TASK_RUNNING;
             util.TASK_KILLING; util.TASK_FINISHED; util.TASK_FAILED;
             util.TASK_ERROR; util.TASK_KILLED; util.TASK_LOST] ->
        util.MesosStateToPelotonState m = pb_task.INITIALIZED)
  /\ (forall m : util.mesos_TaskState,
        util.MesosStateToPelotonState m
          ∈ [pb_task.LAUNCHED; pb_task.RUNNING; pb_task.SUCCEEDED;
             pb_task.FAILED; pb_task.KILLED; pb_task.LOST;
             pb_task.INITIALIZED]).
Proof.
  repeat (split; [reflexivity|]). split.
  - intros m Hm. destruct m; try reflexivity;
      exfalso; apply Hm; repeat constructor.
  - intros m. destruct m; simpl; repeat constructor.
Qed.

(** ** Task-id parsing *)

Section ParseProps.
Import util.

Lemma Split_nonempty s : Split s <> [].
Proof.
  destruct s as [|c s]; simpl; [congruence|].
  destruct (Ascii.eqb c "-"); [congruence|].
  destruct (Split s); congruence.
Qed.

(** [Split] cuts at the dashes and nowhere else: joining the pieces with
    dashes gives the string back, and no piece holds a dash. *)
Lemma Split_Join s : Join (Split s) = s.
Proof.
  induction s as [|c s IH]; [reflexivity|].
  simpl. destruct (Ascii.eqb c "-") eqn:E.
  - apply Ascii.eqb_eq in E as ->.
    pose proof (Split_nonempty s) as Hne.
    destruct (Split s) as [|p ps]; [congruence|].
    simpl in *. rewrite IH. reflexivity.
  - pose proof (Split_nonempty s) as Hne.
    destruct (Split s) as [|p ps]; [congruence|].
    destruct ps; simpl in *; rewrite <- IH; reflexivity.
Qed.

Lemma Split_no_dash s : forall p, p ∈ Split s -> hasDash p = false.
Proof.
  induction s as [|c s IH]; simpl; intros p Hp.
  - apply list_elem_of_singleton in Hp as ->. reflexivity.
  - destruct (Ascii.eqb c "-") eqn:E.
    + apply elem_of_cons in Hp as [->|Hp]; [reflexivity|by apply IH].
    + pose proof (Split_nonempty s) as Hne.
      destruct (Split s) as [|q qs]; [congruence|].
      apply elem_of_cons in Hp as [->|Hp].
      * simpl. rewrite E. simpl. apply IH. apply list_elem_of_here.
      * apply IH. by apply list_elem_of_further.
Qed.

Lemma digitOf_range c d : digitOf c = Some d -> 0 <= d <= 9.
Proof.
  unfold digitOf.
  destruct (48 <=? Z.of_nat (nat_of_ascii c)) eqn:E1; [|discriminate].
  destruct (Z.of_nat (nat_of_ascii c) <=? 57) eqn:E2; [|discriminate].
  simpl. intros [= <-]. lia.
Qed.

Lemma digitsValue_mono s : forall n, 0 <= n -> n <= digitsValue s n.
Proof.
  induction s as [|c s IH]; simpl; intros n Hn; [lia|].
  destruct (digitOf c) as [d|] eqn:E.
  - apply digitOf_range in E.
    specialize (IH (10 * n + d)). lia.
  - specialize (IH (10 * n + 0)). lia.
Qed.

(** The digit loop succeeds exactly on digit strings whose value stays
    within uint64, and then returns that value. *)
Lemma parseUintLoop_spec s : forall n v,
  0 <= n <= 2 ^ 64 - 1 ->
  parseUintLoop s n = inl v
  <-> allDigits s = true /\ digitsValue s n <= 2 ^ 64 - 1
      /\ v = digitsValue s n.
Proof.
  induction s as [|c s IH]; simpl; intros n v Hn.
  - split.
    + intros [= <-]. repeat split; lia.
    + intros (_ & _ & ->). reflexivity.
  - unfold isDigit. destruct (digitOf c) as [d|] eqn:E.
    + pose proof (digitOf_range _ _ E) as Hd. simpl.
      destruct (Z.ltb_spec (2 ^ 64 - 1) (10 * n + d)) as [Hbig|Hok].
      * split; [discriminate|].
        intros (_ & Hle & _).
        pose proof (digitsValue_mono s (10 * n + d)). lia.
      * apply IH. lia.
    + simpl. split; [discriminate|]. intros (? & _). discriminate.
Qed.

Lemma ParseUint_spec s v :
  ParseUint s = inl v
  <-> s <> EmptyString /\ allDigits s = true
      /\ digitsValue s 0 <= 2 ^ 64 - 1 /\ v = digitsValue s 0.
Proof.
  destruct s as [|c s].
  - simpl. split; [discriminate|]. intros (H & _). congruence.
  - unfold ParseUint. rewrite parseUintLoop_spec by lia.
    split.
    + intros (?&?&?). repeat split; try assumption. congruence.
    + intros (_&?&?&?). repeat split; assumption.
Qed.

Lemma digitsValue_nonneg s : 0 <= digitsValue s 0.
Proof. apply digitsValue_mono. lia. Qed.

Lemma nonempty_allDigits digits :
  match digits with
  | EmptyString => false
  | String a s0 => allDigits (String a s0)
  end = true
  <-> digits <> EmptyString /\ allDigits digits = true.
Proof.
  destruct digits as [|d ds].
  - split; [discriminate|]. intros [H _]. congruence.
  - split.
    + intros H. split; [discriminate|exact H].
    + intros [_ H]. exact H.
Qed.

(** [Atoi] accepts exactly the decimal integers that fit an [int], and
    returns their value. *)
Lemma Atoi_spec s v :
  Atoi s = inl v <-> isDecimalInt s = true /\ v = decimalValue s.
Proof.
  unfold isDecimalInt, isDecimalInteger, decimalValue, minInt, maxInt,
    intSize.
  rewrite !andb_true_iff, !Z.leb_le.
  destruct s as [|c s].
  - simpl. split; [discriminate|]. intros [[[? _] _] _]. discriminate.
  - unfold Atoi, unsignedPart, isNegative, intSize.
    set (digits := if (Ascii.eqb c "+" || Ascii.eqb c "-")%bool
                   then s else String c s).
    rewrite (nonempty_allDigits digits).
    pose proof (digitsValue_nonneg digits) as H0.
    pose proof (ParseUint_spec digits) as Hp.
    destruct (ParseUint digits) as [un|e].
    + destruct (proj1 (Hp un) eq_refl) as (Hne & Hall & Hmax & Hun).
      clear Hp. subst un.
      remember (digitsValue digits 0) as un eqn:Hun.
      destruct (Ascii.eqb c "-") eqn:Em; cbn [negb andb].
      * destruct (Z.ltb_spec (2 ^ (64 - 1)) un).
        -- split; [discriminate|]. intros [[[_ ?] ?] _]. lia.
        -- split.
           ++ intros [= <-]. repeat split; try assumption; lia.
           ++ intros [_ ->]. reflexivity.
      * destruct (Z.leb_spec (2 ^ (64 - 1)) un).
        -- split; [discriminate|]. intros [[[_ ?] ?] _]. lia.
        -- split.
           ++ intros [= <-]. repeat split; try assumption; lia.
           ++ intros [_ ->]. reflexivity.
    + split; [discriminate|].
      intros [[[[Hne Hall] Hlo] Hhi] _].
      assert (Hok : inr e = inl (digitsValue digits 0) :> Z + NumError).
      { apply Hp. repeat split; try assumption.
        destruct (Ascii.eqb c "-"); lia. }
      discriminate Hok.
Qed.

End ParseProps.

Section ParseTaskIDProps.
Import util.

Lemma Atoi_error s :
  isError (Atoi s) = true <-> isDecimalInt s = false.
Proof.
  destruct (Atoi s) as [v|e] eqn:E; simpl.
  - apply Atoi_spec in E as [-> _]. split; discriminate.
  - split; [|reflexivity]. intros _.
    destruct (isDecimalInt s) eqn:Hd; [|reflexivity].
    assert (Atoi s = inl (decimalValue s)) by (apply Atoi_spec; auto).
    congruence.
Qed.

(** C9, as the code has it: the parser splits on dashes and returns an
    error exactly when there are fewer than two pieces or the second
    piece is not a decimal integer that fits an [int] (an optional sign,
    digits, a value between -2^63 and 2^63-1); otherwise it returns the
    first piece, a dash, and the second piece's value in decimal. *)
Theorem ParseTaskIDFromMesosTaskID_spec (mesosTaskID : string) :
  (isError (ParseTaskIDFromMesosTaskID mesosTaskID) = true
   <-> (length (Split mesosTaskID) < 2)%nat
       \/ exists p, secondPart mesosTaskID = Some p
                    /\ isDecimalInt p = false)
  /\ (forall taskID,
        ParseTaskIDFromMesosTaskID mesosTaskID = inl taskID
        <-> exists p, secondPart mesosTaskID = Some p
                      /\ isDecimalInt p = true
                      /\ taskID = firstPart mesosTaskID ++ "-"
                                  ++ formatInt (decimalValue p)).
Proof.
  unfold ParseTaskIDFromMesosTaskID, secondPart, firstPart.
  destruct (Split mesosTaskID) as [|jobID [|part1 rest]] eqn:Hs.
  - exfalso. by eapply Split_nonempty.
  - simpl. split.
    + split; [intros _; left; lia|reflexivity].
    + intros taskID. split; [discriminate|].
      intros (p & Hp & _). discriminate.
  - simpl. split.
    + destruct (Atoi part1) as [v|e] eqn:E; simpl.
      * apply Atoi_spec in E as [Hd _]. split; [discriminate|].
        intros [Hlen|(p & [= <-] & Hp)]; [lia|congruence].
      * split; [|reflexivity]. intros _. right.
        exists part1. split; [reflexivity|].
        apply Atoi_error. rewrite E. reflexivity.
    + intros taskID. destruct (Atoi part1) as [v|e] eqn:E.
      * apply Atoi_spec in E as [Hd ->]. split.
        -- intros [= <-]. exists part1. repeat split. exact Hd.
        -- intros (p & [= <-] & _ & ->). reflexivity.
      * split; [discriminate|].
        intros (p & [= <-] & Hd & _).
        assert (isError (Atoi part1) = true) by (rewrite E; reflexivity).
        apply Atoi_error in H. congruence.
Qed.

(** The instance id that comes out is never negative: a piece between
    dashes cannot start with a minus sign. *)
Lemma ParseTaskID_instance_nonneg mesosTaskID p :
  secondPart mesosTaskID = Some p -> 0 <= decimalValue p.
Proof.
  unfold secondPart. intros Hp.
  assert (Hd : hasDash p = false).
  { eapply Split_no_dash. eapply list_elem_of_lookup_2. exact Hp. }
  unfold decimalValue, isNegative.
  destruct p as [|c p]; simpl in *; [lia|].
  apply orb_false_iff in Hd as [-> _].
  apply digitsValue_nonneg.
Qed.

End ParseTaskIDProps.

(** C9 as stated fails on a second piece that is a decimal integer but
    does not fit an [int]: twenty nines.  There are two pieces, the second
    is all digits, and the parser returns an error. *)
Lemma ParseTaskID_overflow_counterexample :
  util.Split "job-99999999999999999999" = ["job"; "99999999999999999999"]
  /\ util.isDecimalInteger "99999999999999999999" = true
  /\ util.isError
       (util.ParseTaskIDFromMesosTaskID "job-99999999999999999999") = true
  /\ ~ (util.isError
          (util.ParseTaskIDFromMesosTaskID "job-99999999999999999999") = true
        <-> (length (util.Split "job-99999999999999999999") < 2)%nat
            \/ exists p,
                 util.secondPart "job-99999999999999999999" = Some p
                 /\ util.isDecimalInteger p = false).
Proof.
  split; [reflexivity|]. split; [reflexivity|]. split; [reflexivity|].
  intros [Hto _].
  destruct (Hto eq_refl) as [Hlen|(p & Hp & Hd)].
  - vm_compute in Hlen. lia.
  - vm_compute in Hp. injection Hp as <-. vm_compute in Hd. discriminate.
Qed.

(** The task ids the parser is written for. *)
Example ParseTaskID_examples :
  util.ParseTaskIDFromMesosTaskID "job-12-abc-de" = inl "job-12"
  /\ util.ParseTaskIDFromMesosTaskID "job-3" = inl "job-3"
  /\ util.ParseTaskIDFromMesosTaskID "job-+007-1" = inl "job-7"
  /\ util.ParseTaskIDFromMesosTaskID "a-9223372036854775807-x"
     = inl "a-9223372036854775807"
  /\ util.isError (util.ParseTaskIDFromMesosTaskID "job") = true
  /\ util.isError (util.ParseTaskIDFromMesosTaskID "job-x1-2") = true
  /\ util.isError (util.ParseTaskIDFromMesosTaskID "job--1") = true
  /\ util.isError
       (util.ParseTaskIDFromMesosTaskID "a-9223372036854775808-x") = true.
Proof. vm_compute. repeat split. Qed.

(** * Further properties of the code *)

(** ** The cache of a tracked task *)

Section CacheProps.
Import pb_task tracked.

(** X1. The revision held in the cache never goes down, whatever runtime
    [UpdateRuntime] is given. *)
Theorem UpdateRuntime_revision_monotone (t : task)
    (new : option RuntimeInfo) (now : Time) :
  (revisionOf (runtime t) <= revisionOf (runtime (UpdateRuntime t new now)))%N.
Proof.
  unfold UpdateRuntime.
  destruct (DeepEqual (runtime t) new); [lia|].
  destruct (N.ltb_spec (revisionOf new) (revisionOf (runtime t)));
    [lia|].
  destruct (_ && _); simpl; lia.
Qed.

(** X2. Delivering the same runtime a second time changes nothing more, not
    even the time of the last update. *)
Theorem UpdateRuntime_idempotent (t : task) (new : option RuntimeInfo)
    (now now' : Time) :
  UpdateRuntime (UpdateRuntime t new now) new now' = UpdateRuntime t new now.
Proof.
  destruct (DeepEqual (runtime t) new) eqn:Heq.
  - assert (Hsame : UpdateRuntime t new now = t)
      by (unfold UpdateRuntime; rewrite Heq; reflexivity).
    rewrite Hsame. unfold UpdateRuntime. rewrite Heq. reflexivity.
  - destruct (revisionOf new <? revisionOf (runtime t))%N eqn:Hlt.
    + assert (Hsame : UpdateRuntime t new now = t)
        by (unfold UpdateRuntime; rewrite Heq, Hlt; reflexivity).
      rewrite Hsame. unfold UpdateRuntime. rewrite Heq, Hlt. reflexivity.
    + assert (Hnew : runtime (UpdateRuntime t new now) = new).
      { apply UpdateRuntime_taken.
        - by apply DeepEqual_false.
        - apply N.ltb_ge in Hlt. exact Hlt. }
      unfold UpdateRuntime at 1.
      apply DeepEqual_true in Hnew. rewrite Hnew. reflexivity.
Qed.

(** X3. Whenever [UpdateRuntime] changes the task at all, the new runtime
    differed from the cached one and was not older, the cache now holds it,
    the update time is the time of the call, and nothing else changed. *)
Theorem UpdateRuntime_change (t : task) (new : option RuntimeInfo)
    (now : Time) :
  UpdateRuntime t new now <> t ->
  runtime t <> new
  /\ (revisionOf (runtime t) <= revisionOf new)%N
  /\ UpdateRuntime t new now
     = set_lastRuntimeUpdateTime now (set_runtime new t).
Proof.
  unfold UpdateRuntime. intros Hchg.
  destruct (DeepEqual (runtime t) new) eqn:Heq; [congruence|].
  destruct (N.ltb_spec (revisionOf new) (revisionOf (runtime t)));
    [congruence|].
  split; [by apply DeepEqual_false|]. split; [lia|].
  destruct (_ && _); reflexivity.
Qed.

End CacheProps.

Lemma UpdateRuntime_change_witness :
  tracked.UpdateRuntime (tracked.cached_at None)
    (Some (tracked.runtime_rev pb_task.RUNNING 1)) 42
  <> tracked.cached_at None
  /\ tracked.UpdateRuntime (tracked.cached_at None)
       (Some (tracked.runtime_rev pb_task.RUNNING 1)) 42
     = tracked.set_lastRuntimeUpdateTime 42
         (tracked.set_runtime (Some (tracked.runtime_rev pb_task.RUNNING 1))
                              (tracked.cached_at None)).
Proof.
  assert (H : tracked.UpdateRuntime (tracked.cached_at None)
                (Some (tracked.runtime_rev pb_task.RUNNING 1)) 42
              <> tracked.cached_at None) by (vm_compute; discriminate).
  split; [exact H|].
  exact (proj2 (proj2 (UpdateRuntime_change _ _ _ H))).
Defined.

(** ** Running actions *)

Section RunActionProps.
Import pb_task tracked.

Variable GetTaskRuntime : string -> N -> result RuntimeInfo.
Variable GetTaskConfig : string -> N -> N -> result TaskConfig.
Variables start stop initialize launchRetry sendLaunchInfoToResMgr
  : task -> task * option error.
Variable failureRetry : task -> task * (bool * option error).
Variable UpdateTaskRuntime : task -> RuntimeInfo -> task * option error.

Local Abbreviation run :=
  (RunAction GetTaskRuntime GetTaskConfig start stop initialize launchRetry
             sendLaunchInfoToResMgr failureRetry UpdateTaskRuntime).

(** X4. An action the switch has no case for is answered with an error and a
    request to reschedule; the task only records the action and its time.
    [UseGoalVersionAction], though declared, is such an action. *)
Theorem RunAction_unhandled (action : TaskAction) (t : task)
    (nowAction now : Time) :
  action ∉ [NoAction; KilledAction; StartAction; StopAction; PreemptAction;
            InitializeAction; FailAction; LaunchRetryAction;
            NotifyLaunchedTasksAction; ReloadTaskRuntime; FailRetryAction] ->
  after (run action t nowAction now) = set_lastAction action nowAction t
  /\ reschedule (run action t nowAction now) = true
  /\ err (run action t nowAction now) <> None.
Proof.
  intros Hnot.
  assert (Hne : forall a, a ∈ [NoAction; KilledAction; StartAction;
                              StopAction; PreemptAction; InitializeAction;
                              FailAction; LaunchRetryAction;
                              NotifyLaunchedTasksAction; ReloadTaskRuntime;
                              FailRetryAction] ->
                String.eqb action a = false).
  { intros a Ha. apply String.eqb_neq. intros ->. contradiction. }
  unfold RunAction, runSwitch.
  rewrite !Hne by (repeat constructor).
  simpl. repeat split. discriminate.
Qed.

(** X5. Starting and stopping ask to be rescheduled exactly when they failed;
    [NoAction] and [KilledAction] never fail and never reschedule, and
    [KilledAction] resets the count of kill attempts. *)
Theorem RunAction_reschedule_on_failure (t : task) (nowAction now : Time) :
  (reschedule (run StartAction t nowAction now) = true
   <-> err (run StartAction t nowAction now) <> None)
  /\ (reschedule (run StopAction t nowAction now) = true
      <-> err (run StopAction t nowAction now) <> None)
  /\ reschedule (run NoAction t nowAction now) = false
  /\ err (run NoAction t nowAction now) = None
  /\ reschedule (run KilledAction t nowAction now) = false
  /\ err (run KilledAction t nowAction now) = None
  /\ killingAttempts (after (run KilledAction t nowAction now)) = 0.
Proof.
  unfold RunAction, runSwitch, with_flag. simpl.
  split; [|split].
  - destruct (snd (start _)); split; congruence.
  - destruct (snd (stop _)); split; congruence.
  - repeat split.
Qed.

(** X6. The fail action reports no error once the runtime was read, whatever
    the write of the FAILED runtime returned: the write's error goes to a
    variable of the switch case, not to the one the function returns. *)
Theorem RunAction_fail_hides_write_error (t : task) (r : RuntimeInfo)
    (nowAction now : Time) :
  GetTaskRuntime (job t) (id t) = Ok r ->
  let t0 := set_lastAction FailAction nowAction t in
  exists r',
    after (run FailAction t nowAction now) = fst (UpdateTaskRuntime t0 r')
    /\ State r' = FAILED /\ GoalState r' = GoalState r
    /\ Revision r' = Revision r
    /\ reschedule (run FailAction t nowAction now) = true
    /\ err (run FailAction t nowAction now) = None.
Proof.
  intros Hget t0. unfold RunAction, runSwitch. simpl. rewrite Hget.
  eexists. split; [reflexivity|]. repeat split.
Qed.

(** When the runtime cannot be read the fail action returns that error and
    leaves the task as it was, the recorded action apart. *)
Theorem RunAction_fail_read_error (t : task) (e : error)
    (nowAction now : Time) :
  GetTaskRuntime (job t) (id t) = Err e ->
  run FailAction t nowAction now
  = {| after := set_lastAction FailAction nowAction t;
       reschedule := true; err := Some e |}.
Proof.
  intros Hget. unfold RunAction, runSwitch. simpl. rewrite Hget.
  reflexivity.
Qed.

(** The action chosen after a preemption is [NoAction] or
    [InitializeAction], never [PreemptAction] again. *)
Lemma getPostPreemptAction_range t action :
  getPostPreemptAction GetTaskConfig t = Ok action ->
  action = NoAction \/ action = InitializeAction.
Proof.
  unfold getPostPreemptAction, getTaskPreemptionPolicy.
  destruct (GetTaskConfig _ _ _) as [cfg|e]; [|discriminate].
  destruct (GetPreemptionPolicy cfg) as [[[|]]|]; intros [= <-]; auto.
Qed.

(** X7. Preemption with a kill-on-preempt policy ends in [NoAction]: nothing
    runs, nothing is rescheduled, and [NoAction] is what the task records
    as its last action. *)
Theorem RunAction_preempt_kill (t : task) (cfg : TaskConfig)
    (nowAction now : Time) :
  GetTaskConfig (job t) (id t) (GetDesiredConfigVersion (runtime t)) = Ok cfg ->
  GetPreemptionPolicy cfg = Some {| KillOnPreempt := true |} ->
  reschedule (run PreemptAction t nowAction now) = false
  /\ err (run PreemptAction t nowAction now) = None
  /\ lastAction (after (run PreemptAction t nowAction now)) = NoAction
  /\ runtime (after (run PreemptAction t nowAction now)) = runtime t
  /\ killingAttempts (after (run PreemptAction t nowAction now))
     = killingAttempts t.
Proof.
  intros Hcfg Hpp.
  unfold RunAction, getPostPreemptAction, getTaskPreemptionPolicy. simpl.
  rewrite Hcfg, Hpp. simpl. by repeat split.
Qed.

(** Preemption without a kill-on-preempt policy runs the initialize action
    on the task, records [InitializeAction], and asks to be rescheduled. *)
Theorem RunAction_preempt_initialize (t : task) (cfg : TaskConfig)
    (nowAction now : Time) :
  GetTaskConfig (job t) (id t) (GetDesiredConfigVersion (runtime t)) = Ok cfg ->
  GetPreemptionPolicy cfg <> Some {| KillOnPreempt := true |} ->
  run PreemptAction t nowAction now
  = {| after := fst (initialize (set_lastAction InitializeAction nowAction t));
       reschedule := true;
       err := snd (initialize (set_lastAction InitializeAction nowAction t)) |}.
Proof.
  intros Hcfg Hpp.
  unfold RunAction, getPostPreemptAction, getTaskPreemptionPolicy. simpl.
  rewrite Hcfg.
  destruct (GetPreemptionPolicy cfg) as [[[|]]|]; try congruence;
    reflexivity.
Qed.

(** X8. When the preemption policy cannot be read, [RunAction] asks to be
    rescheduled but returns no error: the wrapped error stays in a variable
    of the switch case. *)
Theorem RunAction_preempt_lookup_error (t : task) (e : error)
    (nowAction now : Time) :
  GetTaskConfig (job t) (id t) (GetDesiredConfigVersion (runtime t)) = Err e ->
  run PreemptAction t nowAction now
  = {| after := set_lastAction PreemptAction nowAction t;
       reschedule := true; err := None |}.
Proof.
  intros Hcfg.
  unfold RunAction, getPostPreemptAction, getTaskPreemptionPolicy. simpl.
  rewrite Hcfg. reflexivity.
Qed.

End RunActionProps.

Lemma RunAction_unhandled_witness :
  (tracked.UseGoalVersionAction
    ∉ [tracked.NoAction; tracked.KilledAction; tracked.StartAction;
       tracked.StopAction; tracked.PreemptAction; tracked.InitializeAction;
       tracked.FailAction; tracked.LaunchRetryAction;
       tracked.NotifyLaunchedTasksAction; tracked.ReloadTaskRuntime;
       tracked.FailRetryAction])
  /\ tracked.err
       (tracked.sampleRunAction (tracked.runtime_rev pb_task.RUNNING 1)
          tracked.UseGoalVersionAction (tracked.cached_at None) 1 2)
     <> None.
Proof.
  assert (H : tracked.UseGoalVersionAction
                ∉ [tracked.NoAction; tracked.KilledAction;
                   tracked.StartAction; tracked.StopAction;
                   tracked.PreemptAction; tracked.InitializeAction;
                   tracked.FailAction; tracked.LaunchRetryAction;
                   tracked.NotifyLaunchedTasksAction;
                   tracked.ReloadTaskRuntime; tracked.FailRetryAction]).
  { intros Hin. repeat (apply elem_of_cons in Hin as [Hin|Hin];
                        [discriminate Hin|]).
    inversion Hin. }
  split; [exact H|].
  exact (proj2 (proj2
           (RunAction_unhandled
              (tracked.store_with (tracked.runtime_rev pb_task.RUNNING 1))
              tracked.no_config tracked.idle tracked.idle tracked.idle
              tracked.idle tracked.idle tracked.idleRetry tracked.idleUpdate
              tracked.UseGoalVersionAction (tracked.cached_at None) 1 2 H))).
Defined.

(** The runtime is read, the write of the FAILED runtime fails, and the
    action still returns no error. *)
Lemma RunAction_fail_hides_write_error_witness :
  tracked.store_with (tracked.runtime_rev pb_task.RUNNING 1) "job" 0%N
  = tracked.Ok (tracked.runtime_rev pb_task.RUNNING 1)
  /\ snd (tracked.failingUpdate (tracked.cached_at None)
            (tracked.runtime_rev pb_task.FAILED 1)) <> None
  /\ tracked.err
       (tracked.sampleRunActionWith tracked.no_config tracked.failingUpdate
          (tracked.runtime_rev pb_task.RUNNING 1)
          tracked.FailAction (tracked.cached_at None) 1 2)
     = None.
Proof.
  split; [reflexivity|]. split; [discriminate|].
  destruct (RunAction_fail_hides_write_error
              (tracked.store_with (tracked.runtime_rev pb_task.RUNNING 1))
              tracked.no_config tracked.idle tracked.idle tracked.idle
              tracked.idle tracked.idle tracked.idleRetry
              tracked.failingUpdate
              (tracked.cached_at None)
              (tracked.runtime_rev pb_task.RUNNING 1) 1 2 eq_refl)
    as (r' & _ & _ & _ & _ & _ & Herr).
  exact Herr.
Defined.

Lemma RunAction_preempt_kill_witness :
  tracked.reschedule
    (tracked.sampleRunActionWith tracked.config_kill tracked.idleUpdate
       (tracked.runtime_rev pb_task.RUNNING 1)
       tracked.PreemptAction (tracked.cached_at None) 1 2) = false
  /\ tracked.err
       (tracked.sampleRunActionWith tracked.config_kill tracked.idleUpdate
          (tracked.runtime_rev pb_task.RUNNING 1)
          tracked.PreemptAction (tracked.cached_at None) 1 2) = None.
Proof.
  refine (let H := RunAction_preempt_kill
           (tracked.store_with (tracked.runtime_rev pb_task.RUNNING 1))
           tracked.config_kill tracked.idle tracked.idle tracked.idle
           tracked.idle tracked.idle tracked.idleRetry tracked.idleUpdate
           (tracked.cached_at None)
           {| tracked.GetPreemptionPolicy :=
                Some {| tracked.KillOnPreempt := true |} |}
           1 2 eq_refl eq_refl in _).
  exact (conj (proj1 H) (proj1 (proj2 H))).
Defined.

Lemma RunAction_preempt_lookup_error_witness :
  tracked.sampleRunAction (tracked.runtime_rev pb_task.RUNNING 1)
    tracked.PreemptAction (tracked.cached_at None) 1 2
  = {| tracked.after :=
         tracked.set_lastAction tracked.PreemptAction 1
                                (tracked.cached_at None);
       tracked.reschedule := true; tracked.err := None |}.
Proof.
  exact (RunAction_preempt_lookup_error
           (tracked.store_with (tracked.runtime_rev pb_task.RUNNING 1))
           tracked.no_config tracked.idle tracked.idle tracked.idle
           tracked.idle tracked.idle tracked.idleRetry tracked.idleUpdate
           (tracked.cached_at None) "no config" 1 2 eq_refl).
Defined.

(** ** Offers and placement *)

(** Port ranges 100..103 and 200..200 hold five ports. *)
Lemma availablePorts_exact_witness :
  Z.of_N (batch.availablePorts
            [ {| mesos_v1.Name := "cpus"; mesos_v1.Scalar := Some 4%Q;
                 mesos_v1.Ranges := [] |};
              {| mesos_v1.Name := "ports"; mesos_v1.Scalar := None;
                 mesos_v1.Ranges :=
                   [ {| mesos_v1.Begin := 100; mesos_v1.End_ := 103 |};
                     {| mesos_v1.Begin := 200; mesos_v1.End_ := 200 |} ] |} ])
  = 5.
Proof.
  rewrite availablePorts_exact.
  - reflexivity.
  - repeat constructor; simpl; lia.
  - vm_compute. reflexivity.
Defined.

Section PlacementProps.
Import mesos_v1 scalar batch.

Variable FromMesosResources : list Resource -> Resources.
Variable FromResourceConfig : option ResourceConfig -> Resources.

Local Abbreviation fillOffer' :=
  (fillOffer FromMesosResources FromResourceConfig).
Local Abbreviation PlaceOnce' :=
  (PlaceOnce FromMesosResources FromResourceConfig).

Lemma Task_SetHost offer (l : list Assignment) :
  Task <$> (SetHost offer <$> l) = Task <$> l.
Proof.
  induction l as [|a l IH]; [reflexivity|].
  rewrite !fmap_cons, IH. reflexivity.
Qed.

(** X10. [fillOffer] loses no task and invents none: the tasks it placed,
    followed by the tasks it returned, are the tasks it was given, in the
    same order. *)
Theorem fillOffer_conservation (offer : Host)
    (unassigned : list Assignment) :
  Task <$> (fst (fillOffer' offer unassigned)
            ++ snd (fillOffer' offer unassigned))%list
  = Task <$> unassigned.
Proof.
  unfold fillOffer.
  destruct (fillLoop_first_fit FromResourceConfig unassigned offer
              (availablePorts (Resources_ offer))
              (FromMesosResources (Resources_ offer))) as (k & Heq & _).
  rewrite Heq. simpl.
  rewrite fmap_app, Task_SetHost, <- fmap_app, take_drop. reflexivity.
Qed.

Lemma fillOffer_tasks offer unassigned :
  Task <$> (fst (fillOffer' offer unassigned)
            ++ snd (fillOffer' offer unassigned))%list
  = Task <$> unassigned.
Proof.
  unfold fillOffer.
  destruct (fillLoop_first_fit FromResourceConfig unassigned offer
              (availablePorts (Resources_ offer))
              (FromMesosResources (Resources_ offer))) as (k & Heq & _).
  rewrite Heq. simpl.
  rewrite fmap_app, Task_SetHost, <- fmap_app, take_drop. reflexivity.
Qed.

Lemma fillOffer_suffix offer unassigned :
  exists k, snd (fillOffer' offer unassigned) = drop k unassigned.
Proof.
  unfold fillOffer.
  destruct (fillLoop_first_fit FromResourceConfig unassigned offer
              (availablePorts (Resources_ offer))
              (FromMesosResources (Resources_ offer))) as (k & Heq & _).
  exists k. rewrite Heq. reflexivity.
Qed.

(** X11. [PlaceOnce] over any list of hosts loses no task and invents none;
    what is left unassigned is a tail of the input, untouched; and every
    assignment it placed carries one of the given hosts. *)
Theorem PlaceOnce_conservation (hosts : list Host)
    (unassigned : list Assignment) :
  Task <$> (fst (PlaceOnce' unassigned hosts)
            ++ snd (PlaceOnce' unassigned hosts))%list
  = Task <$> unassigned
  /\ (exists k, snd (PlaceOnce' unassigned hosts) = drop k unassigned)
  /\ (forall a, a ∈ fst (PlaceOnce' unassigned hosts) ->
        exists host, host ∈ hosts /\ GetHost a = Some host).
Proof.
  revert unassigned.
  induction hosts as [|host hosts IH]; intros unassigned; simpl.
  - split; [reflexivity|]. split; [by exists 0%nat|].
    intros a Ha. inversion Ha.
  - destruct (IH (snd (fillOffer' host unassigned)))
      as (Hcons & (k' & Hsuf) & Hhost).
    split; [|split].
    + rewrite <- (fillOffer_tasks host unassigned).
      rewrite <- app_assoc, !fmap_app. f_equal.
      rewrite <- fmap_app. exact Hcons.
    + destruct (fillOffer_suffix host unassigned) as (k & Hk).
      exists (k + k')%nat. rewrite Hsuf, Hk. apply drop_drop.
    + intros a Ha. apply elem_of_app in Ha as [Ha|Ha].
      * exists host. split; [apply list_elem_of_here|].
        unfold fillOffer in Ha. eapply fillLoop_hosts. exact Ha.
      * destruct (Hhost a Ha) as (h & Hh & Hget).
        exists h. split; [by apply list_elem_of_further|exact Hget].
Qed.

(** X12. Head-of-line blocking: when the first unassigned task fits none of the
    hosts as offered, [PlaceOnce] places nothing at all, whatever the
    tasks behind it need. *)
Theorem PlaceOnce_head_blocks (hosts : list Host) (a : Assignment)
    (unassigned : list Assignment) :
  (forall host, host ∈ hosts ->
     fits FromResourceConfig (availablePorts (Resources_ host))
          (FromMesosResources (Resources_ host)) a = false) ->
  PlaceOnce' (a :: unassigned) hosts = ([], a :: unassigned).
Proof.
  intros Hnone.
  induction hosts as [|host hosts IH]; simpl; [reflexivity|].
  assert (Hfill : fillOffer' host (a :: unassigned) = ([], a :: unassigned)).
  { specialize (Hnone host (list_elem_of_here _ _)).
    unfold fits, usageOf in Hnone. unfold fillOffer. simpl.
    destruct (N.ltb_spec (availablePorts (Resources_ host))
                         (NumPorts (Task a))) as [Hlt|Hge];
      [reflexivity|].
    apply andb_false_iff in Hnone as [Hp|Hc].
    - apply N.leb_gt in Hp. lia.
    - unfold TrySubtract. rewrite Hc. reflexivity. }
  rewrite Hfill. simpl. rewrite IH; [reflexivity|].
  intros h Hh. apply Hnone. by apply list_elem_of_further.
Qed.

End PlacementProps.

(** Two hosts with no ports and a first task that needs one: the second
    task, which needs none, is not placed either. *)
Lemma PlaceOnce_head_blocks_witness :
  batch.samplePlaceOnce
    [batch.mkTask "a" 1 1 1; batch.mkTask "b" 1 1 0]
    [batch.mkOffer 8 8192 1 0; batch.mkOffer 4 4096 1 0]
  = ([], [batch.mkTask "a" 1 1 1; batch.mkTask "b" 1 1 0]).
Proof.
  apply (PlaceOnce_head_blocks batch.sampleFromMesosResources
           batch.sampleFromResourceConfig).
  intros host Hhost.
  apply elem_of_cons in Hhost as [->|Hhost]; [reflexivity|].
  apply elem_of_cons in Hhost as [->|Hhost]; [reflexivity|].
  inversion Hhost.
Defined.

Section FiltersProps.
Import batch.

Variable C : Type.
Variable Constraint : ResmgrTask -> option C.
Variable FilterString : HostFilter C -> string.

Local Abbreviation step := (filtersStep C Constraint FilterString).
Local Abbreviation keyOf :=
  (fun a => FilterString (getHostFilter C Constraint a)).
Local Abbreviation group := (withFilter C Constraint FilterString).

(** The loop of [Filters] from any state of the map: a group that exists
    keeps its first filter and gains the matching assignments in order; a
    group that does not exist is created by the first matching assignment,
    if there is one. *)
Lemma filters_fold assignments : forall groups (s : string),
  fold_left step assignments groups !! s
  = match groups !! s with
    | Some (first, batch) => Some (first, (batch ++ group s assignments)%list)
    | None =>
        match group s assignments with
        | [] => None
        | a :: rest => Some (getHostFilter C Constraint a, a :: rest)
        end
    end.
Proof.
  induction assignments as [|a l IH]; intros groups s.
  - simpl. destruct (groups !! s) as [[first batch]|]; [|reflexivity].
    unfold withFilter. rewrite filter_nil, app_nil_r. reflexivity.
  - simpl fold_left. rewrite IH. unfold filtersStep at 1, withFilter.
    rewrite filter_cons.
    destruct (decide (keyOf a = s)) as [Heq|Hne].
    + rewrite Heq.
      destruct (groups !! s) as [[first batch]|] eqn:Hg.
      * rewrite lookup_insert_eq. rewrite <- app_assoc. reflexivity.
      * rewrite lookup_insert_eq. subst s. reflexivity.
    + destruct (groups !! keyOf a) as [[first batch]|] eqn:Hg;
        rewrite lookup_insert_ne by exact Hne; reflexivity.
Qed.

(** X13. [Filters] groups the assignments by the text of their host filter: the
    group for a text holds exactly the assignments with that text, in
    input order, under the filter of the first of them; a text no
    assignment has gets no group. *)
Theorem Filters_groups (assignments : list Assignment) (s : string) :
  Filters C Constraint FilterString assignments !! s
  = match group s assignments with
    | [] => None
    | a :: rest => Some (getHostFilter C Constraint a, a :: rest)
    end.
Proof. unfold Filters. rewrite filters_fold, lookup_empty. reflexivity. Qed.

Lemma Filters_lookup (assignments : list Assignment) (s : string) :
  Filters C Constraint FilterString assignments !! s
  = match group s assignments with
    | [] => None
    | a :: rest => Some (getHostFilter C Constraint a, a :: rest)
    end.
Proof. unfold Filters. rewrite filters_fold, lookup_empty. reflexivity. Qed.

(** X14. Every assignment lands in one group, the one of its own filter's
    text. *)
Theorem Filters_member (assignments : list Assignment) (a : Assignment) :
  a ∈ assignments ->
  exists first batch,
    Filters C Constraint FilterString assignments !! keyOf a
    = Some (first, batch)
    /\ a ∈ batch
    /\ FilterString first = keyOf a
    /\ (forall s' first' batch',
          Filters C Constraint FilterString assignments !! s'
          = Some (first', batch') ->
          a ∈ batch' -> s' = keyOf a).
Proof.
  intros Ha. rewrite Filters_lookup.
  assert (Hin : a ∈ group (keyOf a) assignments).
  { apply list_elem_of_filter. split; [reflexivity|exact Ha]. }
  destruct (group (keyOf a) assignments) as [|b rest] eqn:Hg;
    [inversion Hin|].
  exists (getHostFilter C Constraint b), (b :: rest).
  split; [reflexivity|]. split; [exact Hin|]. split.
  - assert (Hb : b ∈ group (keyOf a) assignments)
      by (rewrite Hg; apply list_elem_of_here).
    apply list_elem_of_filter in Hb as [Hb _]. exact Hb.
  - intros s' first' batch' Hs' Ha'. rewrite Filters_lookup in Hs'.
    destruct (group s' assignments) as [|c rest'] eqn:Hg'; [discriminate|].
    injection Hs' as _ <-. rewrite <- Hg' in Ha'.
    apply list_elem_of_filter in Ha' as [Ha' _]. by symmetry.
Qed.

End FiltersProps.

Lemma Filters_member_witness :
  batch.mkTask "b" 1 1 0
    ∈ [batch.mkTask "a" 1 1 1; batch.mkTask "b" 1 1 0;
       batch.mkTask "c" 2 2 0]
  /\ batch.sampleFilters
       [batch.mkTask "a" 1 1 1; batch.mkTask "b" 1 1 0;
        batch.mkTask "c" 2 2 0] !! "no-ports"
     = Some (batch.getHostFilter unit (fun _ => None)
               (batch.mkTask "b" 1 1 0),
             [batch.mkTask "b" 1 1 0; batch.mkTask "c" 2 2 0]).
Proof.
  assert (Hin : batch.mkTask "b" 1 1 0
                  ∈ [batch.mkTask "a" 1 1 1; batch.mkTask "b" 1 1 0;
                     batch.mkTask "c" 2 2 0])
    by (apply list_elem_of_further, list_elem_of_here).
  split; [exact Hin|].
  destruct (Filters_member unit (fun _ => None) batch.sampleFilterString
              _ _ Hin) as (first & batch & Hlook & _).
  vm_compute. reflexivity.
Defined.

(** ** Task ids: printing and parsing *)

Section DecimalProps.
Import util.

Lemma digitsValue_of_uint_acc d : forall acc,
  Zpos (Pos.of_uint_acc d acc)
  = digitsValue (NilEmpty.string_of_uint d) (Zpos acc).
Proof.
  induction d; intros acc; simpl; try reflexivity;
    rewrite IHd; f_equal;
    match goal with
    | |- context [Z.of_nat (nat_of_ascii ?c)] =>
        let v := eval vm_compute in (Z.of_nat (nat_of_ascii c)) in
        change (Z.of_nat (nat_of_ascii c)) with v
    end; lia.
Qed.

Lemma digitsValue_of_uint d :
  Z.of_N (Pos.of_uint d) = digitsValue (NilEmpty.string_of_uint d) 0.
Proof.
  induction d; simpl; try reflexivity; try exact IHd;
    apply digitsValue_of_uint_acc.
Qed.

Lemma allDigits_of_uint d : allDigits (NilEmpty.string_of_uint d) = true.
Proof. induction d; simpl; try reflexivity; exact IHd. Qed.

Lemma hasDash_of_uint d : hasDash (NilEmpty.string_of_uint d) = false.
Proof. induction d; simpl; try reflexivity; exact IHd. Qed.

(** The decimal form of a number that is not negative: digits only, at
    least one, which read back as the number. *)
Lemma formatInt_digits n :
  0 <= n ->
  formatInt n <> EmptyString
  /\ allDigits (formatInt n) = true
  /\ hasDash (formatInt n) = false
  /\ digitsValue (formatInt n) 0 = n.
Proof.
  intros Hn. unfold formatInt.
  destruct n as [|p|p]; [| |lia].
  - simpl. repeat split. discriminate.
  - simpl. unfold NilZero.string_of_uint.
    pose proof (DecimalPos.Unsigned.to_uint_nonnil p) as Hnil.
    pose proof (DecimalPos.Unsigned.of_to p) as Hof.
    destruct (Pos.to_uint p) as [|d|d|d|d|d|d|d|d|d|d] eqn:E;
      [congruence|..];
      (split; [simpl; discriminate|]);
      (split; [apply (allDigits_of_uint)|]);
      (split; [apply (hasDash_of_uint)|]);
      rewrite <- digitsValue_of_uint, Hof; reflexivity.
Qed.

Lemma digit_not_sign c :
  isDigit c = true -> Ascii.eqb c "+" = false /\ Ascii.eqb c "-" = false.
Proof.
  intros Hd. split.
  - destruct (Ascii.eqb c "+") eqn:E; [|reflexivity].
    apply Ascii.eqb_eq in E as ->. discriminate Hd.
  - destruct (Ascii.eqb c "-") eqn:E; [|reflexivity].
    apply Ascii.eqb_eq in E as ->. discriminate Hd.
Qed.

Lemma digits_unsigned s :
  allDigits s = true -> unsignedPart s = s /\ isNegative s = false.
Proof.
  destruct s as [|c s]; simpl; [auto|].
  intros H. apply andb_true_iff in H as [Hc _].
  apply digit_not_sign in Hc as [-> ->]. auto.
Qed.

(** Printing a number between 0 and the largest [int] and reading it back
    with [Atoi] gives the number. *)
Lemma Atoi_formatInt n :
  0 <= n <= maxInt -> Atoi (formatInt n) = inl n.
Proof.
  intros [Hlo Hhi].
  destruct (formatInt_digits n Hlo) as (Hne & Hall & _ & Hval).
  destruct (digits_unsigned _ Hall) as [Hun Hneg].
  apply Atoi_spec. unfold isDecimalInt, isDecimalInteger, decimalValue.
  rewrite Hun, Hneg, Hval.
  split; [|reflexivity].
  rewrite !andb_true_iff, !Z.leb_le. split; [split|].
  - destruct (formatInt n); [congruence|exact Hall].
  - unfold minInt, intSize. lia.
  - exact Hhi.
Qed.

End DecimalProps.

Section TaskIDProps.
Import util.

Lemma hasDash_app a b : hasDash (a ++ b) = hasDash a || hasDash b.
Proof.
  induction a as [|c a IH]; simpl; [reflexivity|].
  rewrite IH. apply orb_assoc.
Qed.

Lemma Split_dashless a : hasDash a = false -> Split a = [a].
Proof.
  induction a as [|c a IH]; simpl; [reflexivity|].
  intros H. apply orb_false_iff in H as [Hc Ha].
  rewrite Hc, (IH Ha). reflexivity.
Qed.

Lemma Split_app a rest :
  hasDash a = false -> Split (a ++ String "-" rest) = a :: Split rest.
Proof.
  induction a as [|c a IH]; simpl; [reflexivity|].
  intros H. apply orb_false_iff in H as [Hc Ha].
  rewrite Hc, (IH Ha). reflexivity.
Qed.

Lemma LastIndex_dashless s : hasDash s = false -> LastIndex s = -1.
Proof.
  induction s as [|c s IH]; simpl; [reflexivity|].
  intros H. apply orb_false_iff in H as [Hc Hs].
  rewrite (IH Hs), Hc. reflexivity.
Qed.

Lemma LastIndex_bound s : -1 <= LastIndex s.
Proof.
  induction s as [|c s IH]; simpl; [lia|].
  destruct (Z.leb_spec 0 (LastIndex s)); [lia|].
  destruct (Ascii.eqb c "-"); lia.
Qed.

Lemma LastIndex_dash s : LastIndex s = -1 -> hasDash s = false.
Proof.
  induction s as [|c s IH]; simpl; [reflexivity|].
  pose proof (LastIndex_bound s) as Hb.
  destruct (Z.leb_spec 0 (LastIndex s)); [lia|].
  destruct (Ascii.eqb c "-"); [lia|].
  intros _. apply IH. lia.
Qed.

Lemma LastIndex_app a d :
  hasDash d = false ->
  LastIndex (a ++ String "-" d) = Z.of_nat (String.length a).
Proof.
  intros Hd. induction a as [|c a IH].
  - simpl. rewrite (LastIndex_dashless d Hd). reflexivity.
  - simpl append. simpl LastIndex. rewrite IH.
    destruct (Z.leb_spec 0 (Z.of_nat (String.length a))); [|lia].
    simpl String.length. lia.
Qed.

Lemma substring_all s : substring 0 (String.length s) s = s.
Proof. induction s as [|c s IH]; simpl; [reflexivity|]. by rewrite IH. Qed.

Lemma sliceTo_app a b : sliceTo (a ++ b) (Z.of_nat (String.length a)) = a.
Proof.
  unfold sliceTo. rewrite Nat2Z.id.
  induction a as [|c a IH]; simpl.
  - destruct b; reflexivity.
  - by rewrite IH.
Qed.

Lemma sliceFrom_app a d :
  sliceFrom (a ++ String "-" d) (Z.of_nat (String.length a) + 1) = d.
Proof.
  unfold sliceFrom.
  replace (Z.to_nat (Z.of_nat (String.length a) + 1))
    with (S (String.length a)) by lia.
  induction a as [|c a IH]; simpl.
  - rewrite Nat.sub_0_r. apply substring_all.
  - exact IH.
Qed.

(** [ParseTaskID] undoes the printing of a task id, whatever the job id
    looks like: the job id may itself hold dashes. *)
Lemma ParseTaskID_formatInt jobID n :
  0 <= n <= maxInt ->
  ParseTaskID (jobID ++ "-" ++ formatInt n) = (jobID, n, None).
Proof.
  intros Hn.
  destruct (formatInt_digits n (proj1 Hn)) as (_ & _ & Hdash & _).
  unfold ParseTaskID.
  change (jobID ++ "-" ++ formatInt n)
    with (jobID ++ String "-" (formatInt n)).
  rewrite (LastIndex_app jobID _ Hdash).
  destruct (Z.eqb_spec (Z.of_nat (String.length jobID)) (-1)); [lia|].
  rewrite sliceTo_app, sliceFrom_app.
  unfold AtoiPair. rewrite (Atoi_formatInt n Hn). reflexivity.
Qed.

(** X15. Round trip: a task id printed as job id, dash, instance number parses
    back into that job id and that number without error, also when the
    job id holds dashes. *)
Theorem ParseTaskID_roundtrip (jobID : string) (n : Z) :
  0 <= n <= maxInt ->
  ParseTaskID (jobID ++ "-" ++ formatInt n) = (jobID, n, None).
Proof. apply ParseTaskID_formatInt. Qed.

(** X16. [ParseTaskID] succeeds exactly on strings that hold a dash and whose
    part after the last dash is a decimal integer that fits an [int]; a
    string without a dash comes back whole, as the job id, beside the
    error. *)
Theorem ParseTaskID_error (taskID : string) :
  (snd (ParseTaskID taskID) = None
   <-> hasDash taskID = true
       /\ isDecimalInt (sliceFrom taskID (LastIndex taskID + 1)) = true)
  /\ (hasDash taskID = false ->
      fst (ParseTaskID taskID) = (taskID, 0)
      /\ snd (ParseTaskID taskID) <> None).
Proof.
  unfold ParseTaskID, AtoiPair.
  destruct (Z.eqb_spec (LastIndex taskID) (-1)) as [Hnone|Hsome].
  - pose proof (LastIndex_dash _ Hnone) as Hd. simpl. split.
    + split; [discriminate|]. intros [H _]. congruence.
    + intros _. split; [reflexivity|discriminate].
  - assert (Hd : hasDash taskID = true).
    { destruct (hasDash taskID) eqn:E; [reflexivity|].
      apply LastIndex_dashless in E. contradiction. }
    split; [|congruence].
    destruct (Atoi (sliceFrom taskID (LastIndex taskID + 1)))
      as [v|[|]] eqn:E; simpl.
    + apply Atoi_spec in E as [Hok _]. split; auto.
    + split; [discriminate|]. intros [_ Hok].
      assert (isError (Atoi (sliceFrom taskID (LastIndex taskID + 1)))
              = true) by (rewrite E; reflexivity).
      apply Atoi_error in H. congruence.
    + split; [discriminate|]. intros [_ Hok].
      assert (isError (Atoi (sliceFrom taskID (LastIndex taskID + 1)))
              = true) by (rewrite E; reflexivity).
      apply Atoi_error in H. congruence.
Qed.

Lemma ParseTaskIDFromMesosTaskID_formatInt jobID suffix n :
  hasDash jobID = false ->
  0 <= n <= maxInt ->
  ParseTaskIDFromMesosTaskID (jobID ++ "-" ++ formatInt n ++ "-" ++ suffix)
  = inl (jobID ++ "-" ++ formatInt n)
  /\ ParseTaskIDFromMesosTaskID (jobID ++ "-" ++ formatInt n)
     = inl (jobID ++ "-" ++ formatInt n).
Proof.
  intros Hjob Hn.
  destruct (formatInt_digits n (proj1 Hn)) as (_ & _ & Hdash & _).
  unfold ParseTaskIDFromMesosTaskID. split.
  - change (jobID ++ "-" ++ formatInt n ++ "-" ++ suffix)
      with (jobID ++ String "-" (formatInt n ++ String "-" suffix)).
    rewrite (Split_app jobID _ Hjob), (Split_app (formatInt n) _ Hdash).
    pose proof (Split_nonempty suffix).
    rewrite (Atoi_formatInt n Hn). reflexivity.
  - change (jobID ++ "-" ++ formatInt n)
      with (jobID ++ String "-" (formatInt n)).
    rewrite (Split_app jobID _ Hjob), (Split_dashless _ Hdash).
    rewrite (Atoi_formatInt n Hn). reflexivity.
Qed.

(** X17. A mesos task id printed as job id, instance number and any suffix
    parses back into job id and instance number, as long as the job id
    holds no dash; the suffix is optional and never looked at. *)
Theorem ParseTaskIDFromMesosTaskID_roundtrip (jobID suffix : string)
    (n : Z) :
  hasDash jobID = false ->
  0 <= n <= maxInt ->
  ParseTaskIDFromMesosTaskID (jobID ++ "-" ++ formatInt n ++ "-" ++ suffix)
  = inl (jobID ++ "-" ++ formatInt n)
  /\ ParseTaskIDFromMesosTaskID (jobID ++ "-" ++ formatInt n)
     = inl (jobID ++ "-" ++ formatInt n).
Proof. apply ParseTaskIDFromMesosTaskID_formatInt. Qed.

(** X18. The two parsers compose: whatever [ParseTaskIDFromMesosTaskID]
    accepts, [ParseTaskID] takes apart again without error, into the first
    piece of the mesos task id and an instance number that is not
    negative. *)
Theorem ParseTaskID_after_mesos (mesosTaskID taskID : string) :
  ParseTaskIDFromMesosTaskID mesosTaskID = inl taskID ->
  exists n, 0 <= n <= maxInt
            /\ ParseTaskID taskID = (firstPart mesosTaskID, n, None).
Proof.
  unfold ParseTaskIDFromMesosTaskID, firstPart.
  destruct (Split mesosTaskID) as [|jobID [|part1 rest]] eqn:Hs;
    [discriminate..|].
  destruct (Atoi part1) as [v|e] eqn:E; [|discriminate].
  intros [= <-].
  apply Atoi_spec in E as [Hok ->].
  assert (Hlo : 0 <= decimalValue part1).
  { apply (ParseTaskID_instance_nonneg mesosTaskID).
    unfold secondPart. rewrite Hs. reflexivity. }
  assert (Hhi : decimalValue part1 <= maxInt).
  { unfold isDecimalInt in Hok.
    rewrite !andb_true_iff, !Z.leb_le in Hok. tauto. }
  exists (decimalValue part1). split; [lia|].
  apply ParseTaskID_formatInt. lia.
Qed.

End TaskIDProps.

Lemma ParseTaskID_roundtrip_witness :
  0 <= 12 <= util.maxInt
  /\ util.ParseTaskID ("a1-b2-c3" ++ "-" ++ formatInt 12)
     = ("a1-b2-c3", 12, None).
Proof.
  assert (H : 0 <= 12 <= util.maxInt) by (vm_compute; split; discriminate).
  split; [exact H|]. exact (ParseTaskID_roundtrip "a1-b2-c3" 12 H).
Defined.

Lemma ParseTaskIDFromMesosTaskID_roundtrip_witness :
  util.ParseTaskIDFromMesosTaskID
    ("job7" ++ "-" ++ formatInt 3 ++ "-" ++ "c0ffee-11") = inl "job7-3".
Proof.
  assert (Hn : 0 <= 3 <= util.maxInt) by (vm_compute; split; discriminate).
  exact (proj1 (ParseTaskIDFromMesosTaskID_roundtrip "job7" "c0ffee-11" 3
                  eq_refl Hn)).
Defined.

Lemma ParseTaskID_after_mesos_witness :
  util.ParseTaskIDFromMesosTaskID "job7-3-c0ffee" = inl "job7-3"
  /\ exists n, util.ParseTaskID "job7-3" = ("job7", n, None).
Proof.
  split; [reflexivity|].
  destruct (ParseTaskID_after_mesos "job7-3-c0ffee" "job7-3" eq_refl)
    as (n & _ & Hn).
  exists n. exact Hn.
Defined.

(** ** Task ids of created tasks *)

Section CreatedIDProps.
Import pb_task jm_task recovery util.

Variable NewUUID : N -> string.

(** X19. The mesos task ids that task creation writes are ids the parser reads:
    for a job id without a dash, the id of a task made by
    [CreateInitializingTask], and of one made by recovery's
    [createTaskForJob], parses into job id, dash, instance number. *)
Theorem created_task_id_parses (w : World) (jobID : string) (i : N)
    (cfg : JobConfig) :
  hasDash jobID = false ->
  Z.of_N i <= maxInt ->
  (exists m,
     MesosTaskId (CreateInitializingTask jobID i cfg) = Some m
     /\ ParseTaskIDFromMesosTaskID m
        = inl (jobID ++ "-" ++ formatInt (Z.of_N i)))
  /\ (forall w' task,
        createTaskForJob NewUUID w jobID i cfg = (w', inl task) ->
        exists m,
          MesosTaskId (Runtime task) = Some m
          /\ ParseTaskIDFromMesosTaskID m
             = inl (jobID ++ "-" ++ formatInt (Z.of_N i))).
Proof.
  intros Hjob Hi.
  assert (Hn : 0 <= Z.of_N i <= maxInt) by lia.
  split.
  - eexists. split; [reflexivity|].
    apply (ParseTaskIDFromMesosTaskID_formatInt jobID (formatInt 1) _
             Hjob Hn).
  - intros w' task. unfold createTaskForJob, CreateTask.
    destruct (bool_decide (i ∈ createFault w)); [discriminate|].
    intros [= <- <-]. eexists. split; [reflexivity|].
    apply (ParseTaskIDFromMesosTaskID_formatInt jobID (NewUUID i) _
             Hjob Hn).
Qed.

End CreatedIDProps.

Lemma created_task_id_parses_witness :
  exists m,
    pb_task.MesosTaskId
      (jm_task.CreateInitializingTask "job7" 3
         {| jm_task.InstanceCount := 5; jm_task.OwningTeam := "team";
            jm_task.Type_ := jm_task.BATCH;
            jm_task.ChangeLogVersion := 1 |}) = Some m
    /\ util.ParseTaskIDFromMesosTaskID m = inl "job7-3".
Proof.
  assert (Hi : Z.of_N 3 <= util.maxInt) by (vm_compute; discriminate).
  exact (proj1 (created_task_id_parses recovery.sampleUUID
                  recovery.serviceWorld "job7" 3
                  {| jm_task.InstanceCount := 5;
                     jm_task.OwningTeam := "team";
                     jm_task.Type_ := jm_task.BATCH;
                     jm_task.ChangeLogVersion := 1 |} eq_refl Hi)).
Defined.

(** ** Recovery of a job *)

Section RecoverJobProps.
Import pb_task jm_task recovery.

Variable NewUUID : N -> string.

(** Two worlds that differ in the task table only. *)
Local Abbreviation sameButTasks w w' :=
  (jobConfig w' = jobConfig w /\ jobRuntime w' = jobRuntime w
   /\ readFault w' = readFault w /\ createFault w' = createFault w
   /\ enqueueFault w' = enqueueFault w /\ updateFault w' = updateFault w).

Lemma elem_of_instanceRange i start end_ :
  i ∈ instanceRange start end_ <-> (start <= i < end_)%N.
Proof.
  unfold instanceRange. rewrite list_elem_of_fmap. split.
  - intros (k & -> & Hk). apply elem_of_seq in Hk. lia.
  - intros Hi. exists (N.to_nat (i - start)). split; [lia|].
    apply elem_of_seq. lia.
Qed.

Lemma NoDup_instanceRange start end_ : NoDup (instanceRange start end_).
Proof.
  unfold instanceRange. apply NoDup_fmap_2; [|apply NoDup_seq].
  intros a b Hab. lia.
Qed.

(** One batch, whatever fails: stored tasks stay as they are, a new record
    belongs to an instance of the batch and is INITIALIZED, and nothing but
    the task table changes. *)
Lemma recoverRange_inv jobID cfg instances : forall w acc w' res,
  recoverRange NewUUID w jobID cfg instances acc = (w', res) ->
  sameButTasks w w' /\ queued w' = queued w
  /\ (forall i t, tasks w !! i = Some t -> tasks w' !! i = Some t)
  /\ (forall i t, tasks w' !! i = Some t -> tasks w !! i = None ->
        i ∈ instances /\ State (Runtime t) = INITIALIZED
        /\ InstanceId t = i).
Proof.
  induction instances as [|i rest IH]; intros w acc w' res; simpl.
  - intros [= <- <-]. split; [tauto|]. split; [reflexivity|].
    split; [tauto|]. intros j t H1 H2. congruence.
  - assert (Hskip : forall acc',
              recoverRange NewUUID w jobID cfg rest acc' = (w', res) ->
              sameButTasks w w' /\ queued w' = queued w
              /\ (forall j t, tasks w !! j = Some t ->
                              tasks w' !! j = Some t)
              /\ (forall j t, tasks w' !! j = Some t ->
                              tasks w !! j = None ->
                              j ∈ i :: rest
                              /\ State (Runtime t) = INITIALIZED
                              /\ InstanceId t = j)).
    { intros acc' H. apply IH in H as (Hs & Hq & Hkeep & Hnew).
      split; [exact Hs|]. split; [exact Hq|]. split; [exact Hkeep|].
      intros j t H1 H2. destruct (Hnew j t H1 H2) as (Hin & Hst & Hid).
      split; [by apply list_elem_of_further|]. by split. }
    unfold GetTaskForJob.
    destruct (bool_decide (i ∈ readFault w)); [apply Hskip|].
    destruct (tasks w !! i) as [t0|] eqn:Hlook; [apply Hskip|].
    clear Hskip. unfold createTaskForJob, CreateTask.
    destruct (bool_decide (i ∈ createFault w)).
    { intros [= <- <-]. split; [tauto|]. split; [reflexivity|].
      split; [tauto|]. intros j t H1 H2. congruence. }
    intros H. apply IH in H as (Hs & Hq & Hkeep & Hnew). simpl in *.
    split; [tauto|]. split; [exact Hq|]. split.
    + intros j t Hj. apply Hkeep.
      rewrite lookup_insert_ne; [exact Hj|]. intros ->. congruence.
    + intros j t Hj Hnone.
      destruct (decide (i = j)) as [<-|Hne].
      * specialize (Hkeep i _ (lookup_insert_eq _ _ _)).
        rewrite Hkeep in Hj. injection Hj as <-. simpl.
        split; [apply list_elem_of_here|]. split; reflexivity.
      * destruct (Hnew j t Hj) as (Hin & Hst & Hid).
        -- rewrite lookup_insert_ne by exact Hne. exact Hnone.
        -- split; [by apply list_elem_of_further|]. split; assumption.
Qed.

Lemma EnqueueTasks_inv w ts w' e :
  EnqueueTasks w ts = (w', e) ->
  sameButTasks w w' /\ tasks w' = tasks w
  /\ (e = None -> queued w' = (queued w ++ [ts])%list)
  /\ (e <> None -> queued w' = queued w).
Proof.
  unfold EnqueueTasks.
  destruct (enqueueFault w) eqn:E; intros [= <- <-]; simpl;
    intuition congruence.
Qed.

(** All batches, whatever fails. *)
Lemma recoverBatches_inv jobID cfg batches : forall w w' e,
  recoverBatches NewUUID w jobID cfg batches = (w', e) ->
  sameButTasks w w'
  /\ (exists more, queued w' = (queued w ++ more)%list)
  /\ (forall i t, tasks w !! i = Some t -> tasks w' !! i = Some t)
  /\ (forall i t, tasks w' !! i = Some t -> tasks w !! i = None ->
        (i < InstanceCount cfg)%N /\ State (Runtime t) = INITIALIZED
        /\ InstanceId t = i).
Proof.
  induction batches as [|b rest IH]; intros w w' e; simpl.
  - intros [= <- <-]. split; [tauto|]. split; [exists []; by rewrite app_nil_r|].
    split; [tauto|]. intros i t H1 H2. congruence.
  - destruct (recoverRange NewUUID w jobID cfg _ []) as [w1 [req|e1]] eqn:Hr;
      apply recoverRange_inv in Hr as (Hs1 & Hq1 & Hkeep1 & Hnew1).
    + assert (Hbound : forall i t, tasks w1 !! i = Some t ->
                         tasks w !! i = None ->
                         (i < InstanceCount cfg)%N
                         /\ State (Runtime t) = INITIALIZED
                         /\ InstanceId t = i).
      { intros i t H1 H2. destruct (Hnew1 i t H1 H2) as (Hin & ? & ?).
        apply elem_of_instanceRange in Hin. unfold util.Min in Hin.
        split; [|by split].
        destruct (_ <? _)%N eqn:E in Hin; [apply N.ltb_lt in E|]; lia. }
      assert (Hstep : forall w2 more,
                sameButTasks w1 w2 -> tasks w2 = tasks w1 ->
                queued w2 = (queued w1 ++ more)%list ->
                recoverBatches NewUUID w2 jobID cfg rest = (w', e) ->
                sameButTasks w w'
                /\ (exists more, queued w' = (queued w ++ more)%list)
                /\ (forall i t, tasks w !! i = Some t ->
                                tasks w' !! i = Some t)
                /\ (forall i t, tasks w' !! i = Some t ->
                                tasks w !! i = None ->
                                (i < InstanceCount cfg)%N
                                /\ State (Runtime t) = INITIALIZED
                                /\ InstanceId t = i)).
      { intros w2 more Hs2 Ht2 Hq2 Hrec.
        apply IH in Hrec as (Hs & (more' & Hq) & Hkeep & Hnew).
        split; [intuition congruence|]. split.
        - exists (more ++ more')%list.
          rewrite Hq, Hq2, Hq1, app_assoc. reflexivity.
        - split.
          + intros i t Hi. apply Hkeep. rewrite Ht2. by apply Hkeep1.
          + intros i t Hi Hnone.
            destruct (tasks w1 !! i) as [t1|] eqn:H1.
            * assert (tasks w' !! i = Some t1)
                by (apply Hkeep; rewrite Ht2; exact H1).
              assert (t = t1) by congruence. subst t1.
              by apply Hbound.
            * apply Hnew; [exact Hi|]. rewrite Ht2. exact H1. }
      destruct (0 <? length req)%nat.
      * destruct (EnqueueTasks w1 req) as [w2 [e2|]] eqn:He;
          apply EnqueueTasks_inv in He as (Hs2 & Ht2 & Hok & Hfail).
        -- intros [= <- <-].
           split; [intuition congruence|]. split.
           ++ exists []. rewrite app_nil_r, Hfail, Hq1; congruence.
           ++ rewrite Ht2. split; [exact Hkeep1|exact Hbound].
        -- apply (Hstep w2 [req]); [exact Hs2|exact Ht2|by apply Hok].
      * apply (Hstep w1 []); [tauto|reflexivity|by rewrite app_nil_r].
    + intros [= <- <-]. split; [tauto|]. split.
      * exists []. by rewrite app_nil_r, Hq1.
      * split; [exact Hkeep1|].
        intros i t H1 H2. destruct (Hnew1 i t H1 H2) as (Hin & ? & ?).
        apply elem_of_instanceRange in Hin. unfold util.Min in Hin.
        split; [|by split].
        destruct (_ <? _)%N eqn:E in Hin; [apply N.ltb_lt in E|]; lia.
Qed.

(** The whole recovery, whatever fails. *)
Lemma recoverJob_inv w jobID now :
  let r := recoverJob NewUUID w jobID now in
  jobConfig (fst r) = jobConfig w
  /\ (forall i t, tasks w !! i = Some t -> tasks (fst r) !! i = Some t)
  /\ (forall i t, tasks (fst r) !! i = Some t -> tasks w !! i = None ->
        exists cfg, jobConfig w = Some cfg
                    /\ (i < InstanceCount cfg)%N
                    /\ State (Runtime t) = INITIALIZED
                    /\ InstanceId t = i)
  /\ (forall e, snd r = Some e -> jobRuntime (fst r) = jobRuntime w)
  /\ (snd r = None ->
      fst r = w
      \/ exists rt, jobRuntime w = Some rt
                    /\ jobRuntime (fst r)
                       = Some {| JobState_ := JOB_PENDING;
                                 CreationTime := CreationTime rt |}).
Proof.
  unfold recoverJob.
  assert (Hstay : forall e : option error,
            jobConfig (fst (w, e)) = jobConfig w
            /\ (forall i t, tasks w !! i = Some t ->
                            tasks (fst (w, e)) !! i = Some t)
            /\ (forall i t, tasks (fst (w, e)) !! i = Some t ->
                            tasks w !! i = None ->
                            exists cfg, jobConfig w = Some cfg
                                        /\ (i < InstanceCount cfg)%N
                                        /\ State (Runtime t) = INITIALIZED
                                        /\ InstanceId t = i)
            /\ (forall e', snd (w, e) = Some e' ->
                           jobRuntime (fst (w, e)) = jobRuntime w)
            /\ (snd (w, e) = None ->
                fst (w, e) = w
                \/ exists rt, jobRuntime w = Some rt
                              /\ jobRuntime (fst (w, e))
                                 = Some {| JobState_ := JOB_PENDING;
                                           CreationTime := CreationTime rt |})).
  { intros e. simpl. split; [reflexivity|]. split; [tauto|].
    split; [intros i t H1 H2; congruence|]. split; [reflexivity|].
    intros _. by left. }
  destruct (jobConfig w) as [cfg|] eqn:Hcfg; [|apply Hstay].
  destruct (jobRuntime w) as [rt|] eqn:Hrt; [|apply Hstay].
  destruct (CreationTime rt) as [createTime|] eqn:Hct; [|apply Hstay].
  destruct (now - createTime <? recoveryInterval); [apply Hstay|].
  clear Hstay.
  destruct (recoverBatches NewUUID w jobID cfg _) as [w1 [e|]] eqn:Hb;
    apply recoverBatches_inv in Hb as (Hs & _ & Hkeep & Hnew).
  - simpl. split; [intuition congruence|]. split; [exact Hkeep|]. split.
    + intros i t H1 H2. exists cfg. split; [reflexivity|]. by apply Hnew.
    + split; [intros _ _; intuition congruence|discriminate].
  - unfold UpdateJobRuntime. destruct (updateFault w1); simpl.
    + split; [intuition congruence|]. split; [exact Hkeep|]. split.
      * intros i t H1 H2. exists cfg. split; [reflexivity|]. by apply Hnew.
      * split; [intros _ _; intuition congruence|discriminate].
    + split; [intuition congruence|]. split; [exact Hkeep|]. split.
      * intros i t H1 H2. exists cfg. split; [reflexivity|]. by apply Hnew.
      * split; [discriminate|]. intros _. right. exists rt.
        rewrite Hct. by split.
Qed.

(** X20. Recovery never overwrites or removes a stored task, whatever fails on
    the way; what it adds are records of instances below the job's
    instance count, each INITIALIZED and filed under its own id. *)
Theorem recoverJob_preserves_tasks (w : World) (jobID : string)
    (now : Time) :
  (forall i t, tasks w !! i = Some t ->
     tasks (fst (recoverJob NewUUID w jobID now)) !! i = Some t)
  /\ (forall i t,
        tasks (fst (recoverJob NewUUID w jobID now)) !! i = Some t ->
        tasks w !! i = None ->
        exists cfg, jobConfig w = Some cfg
                    /\ (i < InstanceCount cfg)%N
                    /\ State (Runtime t) = INITIALIZED
                    /\ InstanceId t = i).
Proof.
  destruct (recoverJob_inv w jobID now) as (_ & Hkeep & Hnew & _).
  split; [exact Hkeep|exact Hnew].
Qed.

(** X21. The job's runtime is written only at the very end: a recovery that
    returns an error leaves the stored job runtime as it was, and one that
    returns no error has either done nothing at all or moved the job to
    PENDING, keeping its creation time. *)
Theorem recoverJob_job_state (w : World) (jobID : string) (now : Time) :
  (forall e, snd (recoverJob NewUUID w jobID now) = Some e ->
     jobRuntime (fst (recoverJob NewUUID w jobID now)) = jobRuntime w)
  /\ (snd (recoverJob NewUUID w jobID now) = None ->
      fst (recoverJob NewUUID w jobID now) = w
      \/ exists rt, jobRuntime w = Some rt
                    /\ jobRuntime (fst (recoverJob NewUUID w jobID now))
                       = Some {| JobState_ := JOB_PENDING;
                                 CreationTime := CreationTime rt |}).
Proof.
  destruct (recoverJob_inv w jobID now) as (_ & _ & _ & Herr & Hok).
  split; [exact Herr|exact Hok].
Qed.

(** X22. A job created less than the recovery interval ago is skipped: no task
    is created, nothing is enqueued, the job stays as it is, and no error
    is returned. *)
Theorem recoverJob_recent_skipped (w : World) (jobID : string)
    (now : Time) (cfg : JobConfig) (rt : JobRuntime) (createTime : Time) :
  jobConfig w = Some cfg ->
  jobRuntime w = Some rt ->
  CreationTime rt = Some createTime ->
  now - createTime < recoveryInterval ->
  recoverJob NewUUID w jobID now = (w, None).
Proof.
  intros Hcfg Hrt Hct Hrecent. unfold recoverJob.
  rewrite Hcfg, Hrt, Hct.
  destruct (Z.ltb_spec (now - createTime) recoveryInterval);
    [reflexivity|lia].
Qed.

End RecoverJobProps.

(** The same service job, looked at five minutes after it was created. *)
Lemma recoverJob_recent_skipped_witness :
  recovery.recoverJob recovery.sampleUUID recovery.serviceWorld "J"
                      (5 * offer.minute)
  = (recovery.serviceWorld, None).
Proof.
  apply (recoverJob_recent_skipped recovery.sampleUUID
           recovery.serviceWorld "J" (5 * offer.minute)
           {| jm_task.InstanceCount := 2; jm_task.OwningTeam := "team";
              jm_task.Type_ := jm_task.SERVICE;
              jm_task.ChangeLogVersion := 1 |}
           {| recovery.JobState_ := recovery.JOB_INITIALIZED;
              recovery.CreationTime := Some 0 |} 0);
    try reflexivity.
Defined.

Section RecoverCompleteProps.
Import pb_task jm_task recovery.

Variable NewUUID : N -> string.

Lemma wrap32_small z : 0 <= z < 2 ^ 32 -> wrap32 z = Z.to_N z.
Proof. intros Hz. unfold wrap32. by rewrite Z.mod_small. Qed.

(** All batches of a recovery whose store calls all succeed, as long as
    the batch bounds stay within uint32: no error, and every instance of
    every batch has a record afterwards, which is in a batch handed to the
    resource manager if it is INITIALIZED. *)
Lemma recoverBatches_sound jobID cfg batches : forall w,
  readFault w = ∅ -> createFault w = ∅ -> enqueueFault w = false ->
  (forall b, b ∈ batches -> (Z.of_N b + 1) * 1000 < 2 ^ 32) ->
  exists w',
    recoverBatches NewUUID w jobID cfg batches = (w', None)
    /\ (forall b i, b ∈ batches ->
          (b * 1000 <= i)%N -> (i < (b + 1) * 1000)%N ->
          (i < InstanceCount cfg)%N ->
          exists t, tasks w' !! i = Some t
                    /\ (State (Runtime t) = INITIALIZED ->
                        exists q, q ∈ queued w' /\ t ∈ q)).
Proof.
  induction batches as [|b rest IH]; intros w Hr Hc He Hsmall.
  - exists w. split; [reflexivity|]. intros b i Hb. inversion Hb.
  - simpl recoverBatches.
    assert (Hb : (Z.of_N b + 1) * 1000 < 2 ^ 32)
      by (apply Hsmall, list_elem_of_here).
    rewrite !wrap32_small by (unfold batchRows; lia).
    set (start := Z.to_N (Z.of_N b * 1000)).
    set (end_ := util.Min (Z.to_N ((Z.of_N b + 1) * 1000))
                          (InstanceCount cfg)).
    destruct (recoverRange_sound NewUUID jobID cfg
                (instanceRange start end_) w [] Hr Hc
                (NoDup_instanceRange start end_))
      as (w1 & req & Heq & _ & _ & Hall).
    rewrite Heq.
    pose proof (recoverRange_inv NewUUID jobID cfg _ _ _ _ _ Heq)
      as (Hs1 & Hq1 & _ & _).
    assert (Hin : forall i, (b * 1000 <= i)%N -> (i < (b + 1) * 1000)%N ->
                    (i < InstanceCount cfg)%N ->
                    exists t, tasks w1 !! i = Some t
                              /\ (State (Runtime t) = INITIALIZED ->
                                  t ∈ req)).
    { intros i H1 H2 H3.
      assert (Hi : i ∈ instanceRange start end_).
      { apply elem_of_instanceRange. unfold start, end_, util.Min, batchRows.
        destruct (_ <? _)%N eqn:E; [apply N.ltb_lt in E|apply N.ltb_ge in E];
          lia. }
      specialize (Hall i Hi).
      destruct (tasks w !! i) as [t|].
      - exists t. exact Hall.
      - destruct Hall as (t & Ht & Hst & _ & _ & Hreq).
        exists t. split; [exact Ht|]. intros _. exact Hreq. }
    assert (Hnext : forall w2,
              readFault w2 = ∅ -> createFault w2 = ∅ ->
              enqueueFault w2 = false -> tasks w2 = tasks w1 ->
              (req <> [] -> req ∈ queued w2) ->
              exists w',
                recoverBatches NewUUID w2 jobID cfg rest = (w', None)
                /\ (forall b' i, b' ∈ b :: rest ->
                      (b' * 1000 <= i)%N -> (i < (b' + 1) * 1000)%N ->
                      (i < InstanceCount cfg)%N ->
                      exists t, tasks w' !! i = Some t
                                /\ (State (Runtime t) = INITIALIZED ->
                                    exists q, q ∈ queued w' /\ t ∈ q))).
    { intros w2 Hr2 Hc2 He2 Ht2 Hq2.
      destruct (IH w2 Hr2 Hc2 He2) as (w' & Hrec & Hrest).
      { intros b' Hb'. apply Hsmall. by apply list_elem_of_further. }
      exists w'. split; [exact Hrec|].
      pose proof (recoverBatches_inv NewUUID jobID cfg _ _ _ _ Hrec)
        as (_ & (more & Hmore) & Hkeep & _).
      intros b' i Hb' H1 H2 H3.
      apply elem_of_cons in Hb' as [->|Hb'];
        [|by apply (Hrest b' i Hb')].
      destruct (Hin i H1 H2 H3) as (t & Ht & Hreq).
      exists t. split; [apply Hkeep; by rewrite Ht2|].
      intros Hst. specialize (Hreq Hst). exists req. split; [|exact Hreq].
      rewrite Hmore. apply elem_of_app. left. apply Hq2.
      intros ->. inversion Hreq. }
    destruct req as [|t0 req'].
    + simpl. apply Hnext; try reflexivity; intuition congruence.
    + simpl Nat.ltb. cbv iota. unfold EnqueueTasks.
      replace (enqueueFault w1) with false by intuition congruence.
      apply Hnext; simpl; try reflexivity; try intuition congruence.
      intros _. rewrite Hq1. apply elem_of_app. right.
      apply list_elem_of_here.
Qed.

Lemma recoverJob_sound (w : World) (jobID : string) (now : Time)
    (cfg : JobConfig) (rt : JobRuntime) (createTime : Time) :
  jobConfig w = Some cfg ->
  jobRuntime w = Some rt ->
  CreationTime rt = Some createTime ->
  recoveryInterval <= now - createTime ->
  Z.of_N (InstanceCount cfg) + 1000 < 2 ^ 32 ->
  readFault w = ∅ -> createFault w = ∅ ->
  enqueueFault w = false -> updateFault w = false ->
  let r := recoverJob NewUUID w jobID now in
  snd r = None
  /\ jobRuntime (fst r)
     = Some {| JobState_ := JOB_PENDING; CreationTime := Some createTime |}
  /\ (forall i, (i < InstanceCount cfg)%N ->
        exists t, tasks (fst r) !! i = Some t
                  /\ (State (Runtime t) = INITIALIZED ->
                      exists q, q ∈ queued (fst r) /\ t ∈ q)).
Proof.
  intros Hcfg Hrt Hct Hold Hcount Hr Hc He Hu r. unfold r, recoverJob.
  rewrite Hcfg, Hrt, Hct.
  destruct (Z.ltb_spec (now - createTime) recoveryInterval); [lia|].
  destruct (recoverBatches_sound jobID cfg
              (instanceRange 0 (InstanceCount cfg / batchRows + 1))
              w Hr Hc He) as (w1 & Hrec & Hall).
  { intros b Hb. apply elem_of_instanceRange in Hb. unfold batchRows in Hb.
    assert (b <= InstanceCount cfg / 1000)%N by lia.
    pose proof (N.Div0.mul_div_le (InstanceCount cfg) 1000). lia. }
  rewrite Hrec.
  pose proof (recoverBatches_inv NewUUID jobID cfg _ _ _ _ Hrec)
    as (Hs & _).
  unfold UpdateJobRuntime.
  replace (updateFault w1) with false by intuition congruence.
  simpl. split; [reflexivity|]. split; [reflexivity|].
  intros i Hi. apply (Hall (i / 1000)%N i).
  - apply elem_of_instanceRange. unfold batchRows.
    assert (Hle : (i <= InstanceCount cfg)%N) by lia.
    apply (N.Div0.div_le_mono _ _ 1000) in Hle.
    revert Hle. generalize (i / 1000)%N (InstanceCount cfg / 1000)%N.
    intros q q' Hle. lia.
  - pose proof (N.Div0.mul_div_le i 1000) as Hq.
    revert Hq. generalize (i / 1000)%N. intros q Hq. lia.
  - assert (Hq : (i < 1000 * N.succ (i / 1000))%N)
      by (apply N.mul_succ_div_gt; lia).
    revert Hq. generalize (i / 1000)%N. intros q Hq. lia.
  - exact Hi.
Qed.

(** X23. Recovery completes: when no store call fails, the job is old enough,
    and the instance count leaves room for the last batch bound in uint32,
    [recoverJob] returns no error, the job is PENDING, and every instance
    below the instance count has a task record; the INITIALIZED ones,
    among them all it created, were handed to the resource manager. *)
Theorem recoverJob_complete (w : World) (jobID : string) (now : Time)
    (cfg : JobConfig) (rt : JobRuntime) (createTime : Time) :
  jobConfig w = Some cfg ->
  jobRuntime w = Some rt ->
  CreationTime rt = Some createTime ->
  recoveryInterval <= now - createTime ->
  Z.of_N (InstanceCount cfg) + 1000 < 2 ^ 32 ->
  readFault w = ∅ -> createFault w = ∅ ->
  enqueueFault w = false -> updateFault w = false ->
  let r := recoverJob NewUUID w jobID now in
  snd r = None
  /\ jobRuntime (fst r)
     = Some {| JobState_ := JOB_PENDING; CreationTime := Some createTime |}
  /\ (forall i, (i < InstanceCount cfg)%N ->
        exists t, tasks (fst r) !! i = Some t
                  /\ (State (Runtime t) = INITIALIZED ->
                      exists q, q ∈ queued (fst r) /\ t ∈ q)).
Proof. apply recoverJob_sound. Qed.

(** When every instance below the instance count already has a record,
    recovery leaves the task table exactly as it is. *)
Lemma recoverJob_nothing_to_create w jobID now :
  (forall cfg i, jobConfig w = Some cfg -> (i < InstanceCount cfg)%N ->
     is_Some (tasks w !! i)) ->
  tasks (fst (recoverJob NewUUID w jobID now)) = tasks w.
Proof.
  intros Hfull.
  destruct (recoverJob_inv NewUUID w jobID now) as (_ & Hkeep & Hnew & _).
  apply map_eq. intros i.
  destruct (tasks w !! i) as [t|] eqn:Hw; [by apply Hkeep|].
  destruct (tasks (fst (recoverJob NewUUID w jobID now)) !! i)
    as [t|] eqn:Hr; [|reflexivity].
  destruct (Hnew i t Hr Hw) as (cfg & Hcfg & Hi & _).
  destruct (Hfull cfg i Hcfg Hi) as [t' Ht']. congruence.
Qed.

(** X24. Recovery is idempotent on the task table: after a recovery in which no
    store call failed, running recovery again, at any time, creates no
    further task and changes none. *)
Theorem recoverJob_idempotent (w : World) (jobID : string)
    (now now' : Time) (cfg : JobConfig) (rt : JobRuntime)
    (createTime : Time) :
  jobConfig w = Some cfg ->
  jobRuntime w = Some rt ->
  CreationTime rt = Some createTime ->
  recoveryInterval <= now - createTime ->
  Z.of_N (InstanceCount cfg) + 1000 < 2 ^ 32 ->
  readFault w = ∅ -> createFault w = ∅ ->
  enqueueFault w = false -> updateFault w = false ->
  tasks (fst (recoverJob NewUUID (fst (recoverJob NewUUID w jobID now))
                         jobID now'))
  = tasks (fst (recoverJob NewUUID w jobID now)).
Proof.
  intros Hcfg Hrt Hct Hold Hcount Hr Hc He Hu.
  apply recoverJob_nothing_to_create.
  intros cfg' i Hcfg' Hi.
  destruct (recoverJob_inv NewUUID w jobID now) as (Hsame & _).
  rewrite Hsame, Hcfg in Hcfg'. injection Hcfg' as <-.
  pose proof (recoverJob_sound w jobID now cfg rt createTime
                Hcfg Hrt Hct Hold Hcount Hr Hc He Hu) as (_ & _ & Hall).
  destruct (Hall i Hi) as (t & Ht & _). by exists t.
Qed.

End RecoverCompleteProps.

(** The service job with one stored and one missing task, twenty minutes
    after its creation: recovery gives instance 1 a record. *)
Lemma recoverJob_complete_witness :
  snd (recovery.recoverJob recovery.sampleUUID recovery.serviceWorld "J"
                           (20 * offer.minute)) = None
  /\ exists t,
       recovery.tasks
         (fst (recovery.recoverJob recovery.sampleUUID
                 recovery.serviceWorld "J" (20 * offer.minute))) !! 1%N
       = Some t.
Proof.
  assert (Hold : recovery.recoveryInterval <= 20 * offer.minute - 0)
    by (vm_compute; discriminate).
  assert (Hcount : Z.of_N 2 + 1000 < 2 ^ 32) by (vm_compute; reflexivity).
  destruct (recoverJob_complete recovery.sampleUUID recovery.serviceWorld
              "J" (20 * offer.minute)
              {| jm_task.InstanceCount := 2; jm_task.OwningTeam := "team";
                 jm_task.Type_ := jm_task.SERVICE;
                 jm_task.ChangeLogVersion := 1 |}
              {| recovery.JobState_ := recovery.JOB_INITIALIZED;
                 recovery.CreationTime := Some 0 |} 0
              eq_refl eq_refl eq_refl Hold Hcount
              eq_refl eq_refl eq_refl eq_refl) as (Herr & _ & Hall).
  split; [exact Herr|].
  destruct (Hall 1%N) as (t & Ht & _); [reflexivity|].
  exists t. exact Ht.
Defined.

Lemma recoverJob_idempotent_witness :
  recovery.tasks
    (fst (recovery.recoverJob recovery.sampleUUID
            (fst (recovery.recoverJob recovery.sampleUUID
                    recovery.serviceWorld "J" (20 * offer.minute)))
            "J" (40 * offer.minute)))
  = recovery.tasks
      (fst (recovery.recoverJob recovery.sampleUUID recovery.serviceWorld
              "J" (20 * offer.minute))).
Proof.
  assert (Hold : recovery.recoveryInterval <= 20 * offer.minute - 0)
    by (vm_compute; discriminate).
  assert (Hcount : Z.of_N 2 + 1000 < 2 ^ 32) by (vm_compute; reflexivity).
  exact (recoverJob_idempotent recovery.sampleUUID recovery.serviceWorld
           "J" (20 * offer.minute) (40 * offer.minute)
           {| jm_task.InstanceCount := 2; jm_task.OwningTeam := "team";
              jm_task.Type_ := jm_task.SERVICE;
              jm_task.ChangeLogVersion := 1 |}
           {| recovery.JobState_ := recovery.JOB_INITIALIZED;
              recovery.CreationTime := Some 0 |} 0
           eq_refl eq_refl eq_refl Hold Hcount
           eq_refl eq_refl eq_refl eq_refl).
Defined.

(** ** The scheduler's offer summary and task assignment *)

Section SchedProps.

Import sched.

Lemma get_put (s : gmap string (gmap string float)) (r n : string) (v : float)
    (r' n' : string) :
  get (put s r n v) r' n'
  = if bool_decide (r = r' /\ n = n') then v else get s r' n'.
Proof.
  unfold get, put.
  destruct (decide (r = r')) as [<-|Hr].
  - rewrite lookup_insert_eq.
    destruct (decide (n = n')) as [<-|Hn].
    + rewrite lookup_insert_eq, bool_decide_eq_true_2; [reflexivity|by split].
    + rewrite lookup_insert_ne by exact Hn.
      rewrite bool_decide_eq_false_2 by (intros [_ ?]; contradiction).
      destruct (s !! r); reflexivity.
  - rewrite lookup_insert_ne by exact Hr.
    rewrite bool_decide_eq_false_2 by (intros [? _]; contradiction).
    reflexivity.
Qed.

Lemma put_role (s : gmap string (gmap string float)) (r n : string)
    (v : float) (r' : string) :
  is_Some (put s r n v !! r') <-> r = r' \/ is_Some (s !! r').
Proof.
  unfold put. destruct (decide (r = r')) as [<-|Hr].
  - rewrite lookup_insert_eq. split; [by left|by eexists].
  - rewrite lookup_insert_ne by exact Hr. intuition.
Qed.

(** One entry of the summary through the loop, from any state of the map:
    the loop does to it what a single accumulator would. *)
Lemma summary_fold (rs : list OfferResource)
    (acc : gmap string (gmap string float)) (role name : string) :
  get (fold_left
         (fun result resource =>
            match ResScalar resource with
            | Some value =>
                let role := default "*" (Role resource) in
                put result role (ResName resource)
                    (PrimFloat.add (get result role (ResName resource))
                                   value)
            | None => result
            end) rs acc) role name
  = fold_left
      (fun acc resource =>
         match ResScalar resource with
         | Some value =>
             if bool_decide (default "*" (Role resource) = role
                             /\ ResName resource = name)
             then PrimFloat.add acc value else acc
         | None => acc
         end) rs (get acc role name).
Proof.
  revert acc. induction rs as [|x rs IH]; intros acc; simpl.
  - reflexivity.
  - rewrite IH. f_equal.
    destruct (ResScalar x) as [value|]; [|reflexivity].
    cbv zeta. rewrite get_put.
    destruct (bool_decide _) eqn:E; [|reflexivity].
    apply bool_decide_eq_true_1 in E. destruct E as [-> ->]. reflexivity.
Qed.

Lemma summary_fold_role (rs : list OfferResource)
    (acc : gmap string (gmap string float)) (role : string) :
  is_Some (fold_left
             (fun result resource =>
                match ResScalar resource with
                | Some value =>
                    let role := default "*" (Role resource) in
                    put result role (ResName resource)
                        (PrimFloat.add (get result role (ResName resource))
                                       value)
                | None => result
                end) rs acc !! role)
  <-> is_Some (acc !! role)
      \/ exists r, r ∈ rs /\ is_Some (ResScalar r)
                   /\ default "*" (Role r) = role.
Proof.
  revert acc. induction rs as [|x rs IH]; intros acc; simpl.
  - split; [by left|]. intros [H|(r & Hr & _)]; [exact H|].
    by apply elem_of_nil in Hr.
  - rewrite IH. split.
    + intros [H|(r & Hr & Hs & Hrole)].
      * destruct (ResScalar x) as [value|] eqn:E; [|by left].
        cbv zeta in H. apply put_role in H. destruct H as [H|H]; [|by left].
        right. exists x. split; [apply list_elem_of_here|].
        split; [rewrite E; by eexists|exact H].
      * right. exists r. split; [by apply list_elem_of_further|by split].
    + intros [H|(r & Hr & Hs & Hrole)].
      * left. destruct (ResScalar x); [|exact H].
        cbv zeta. apply put_role. by right.
      * apply elem_of_cons in Hr. destruct Hr as [->|Hr].
        -- left. destruct Hs as [value ->]. cbv zeta. apply put_role.
           by left.
        -- right. exists r. by split.
Qed.

Lemma summary_offered (resources : list OfferResource) (role name : string) :
  get (GetOfferScalarResourceSummary resources) role name
  = offered role name resources.
Proof.
  unfold GetOfferScalarResourceSummary, offered. rewrite summary_fold.
  unfold get. rewrite lookup_empty. reflexivity.
Qed.

(** X25. The entries of the summary do not disturb each other: for every
    role and name, the summary holds what a single float64 accumulator
    holds that starts at 0 and adds, in the order of the offer and with
    the rounding of each addition, the scalar values of the resources with
    that role and name.  A resource without a role counts under the
    default role, a resource that is no scalar is passed over, and a role
    has an entry exactly when some scalar resource carries it. *)
Theorem GetOfferScalarResourceSummary_sum (resources : list OfferResource)
    (role name : string) :
  get (GetOfferScalarResourceSummary resources) role name
  = offered role name resources
  /\ (is_Some (GetOfferScalarResourceSummary resources !! role)
      <-> exists r, r ∈ resources /\ is_Some (ResScalar r)
                    /\ default "*" (Role r) = role).
Proof.
  split; [apply summary_offered|].
  unfold GetOfferScalarResourceSummary. rewrite summary_fold_role.
  rewrite lookup_empty. split; [|by right].
  intros [[x Hx]|H]; [discriminate|exact H].
Qed.

Lemma demand_cpus (t : TaskInfo) : demand "cpus" t = CpusLimit (Resource t).
Proof. reflexivity. Qed.

Lemma demand_mem (t : TaskInfo) : demand "mem" t = MemLimitMb (Resource t).
Proof. reflexivity. Qed.

Lemma demand_disk (t : TaskInfo) :
  demand "disk" t = DiskLimitMb (Resource t).
Proof. reflexivity. Qed.

Lemma CanTakeTask_true_iff (s : gmap string (gmap string float))
    (t : TaskInfo) :
  fst (CanTakeTask s t) = true
  <-> is_Some (s !! "*")
      /\ forall name, name ∈ ["cpus"; "mem"; "disk"] ->
                      PrimFloat.ltb (get s "*" name) (demand name t) = false.
Proof.
  unfold CanTakeTask. cbv zeta.
  destruct (forallb _ _) eqn:E; simpl fst.
  - split; [intros _|reflexivity].
    unfold ConvertToMesosTaskInfo in E. simpl in E.
    destruct (s !! "*") as [inner|] eqn:Hs; [|discriminate].
    split; [by eexists|].
    apply andb_prop in E. destruct E as [Hc E].
    apply andb_prop in E. destruct E as [Hm E].
    apply andb_prop in E. destruct E as [Hd _].
    apply negb_true_iff in Hc, Hm, Hd.
    intros name Hname.
    repeat (apply elem_of_cons in Hname; destruct Hname as [->|Hname]);
      [rewrite demand_cpus|rewrite demand_mem|rewrite demand_disk|
       by apply elem_of_nil in Hname]; assumption.
  - split; [discriminate|]. intros [[inner Hs] Hall]. exfalso.
    unfold ConvertToMesosTaskInfo in E. simpl in E. rewrite Hs in E.
    assert (Hc := Hall "cpus" ltac:(apply list_elem_of_here)).
    assert (Hm := Hall "mem"
                    ltac:(apply list_elem_of_further, list_elem_of_here)).
    assert (Hd := Hall "disk"
                    ltac:(do 2 apply list_elem_of_further;
                          apply list_elem_of_here)).
    rewrite demand_cpus in Hc. rewrite demand_mem in Hm.
    rewrite demand_disk in Hd.
    rewrite Hc, Hm, Hd in E. discriminate.
Qed.

Lemma CanTakeTask_false (s : gmap string (gmap string float))
    (t : TaskInfo) :
  fst (CanTakeTask s t) = false -> snd (CanTakeTask s t) = s.
Proof.
  unfold CanTakeTask. cbv zeta. destruct (forallb _ _); simpl;
    [discriminate|reflexivity].
Qed.

Lemma CanTakeTask_get (s : gmap string (gmap string float)) (t : TaskInfo)
    (role name : string) :
  fst (CanTakeTask s t) = true ->
  get (snd (CanTakeTask s t)) role name
  = if bool_decide (role = "*" /\ name ∈ ["cpus"; "mem"; "disk"])
    then PrimFloat.sub (get s role name) (demand name t)
    else get s role name.
Proof.
  unfold CanTakeTask. cbv zeta. destruct (forallb _ _); simpl fst;
    [intros _|discriminate].
  unfold ConvertToMesosTaskInfo, snd at 1. simpl fold_left.
  cbn [fst snd]. rewrite !get_put.
  destruct (decide (role = "*")) as [->|Hr].
  - destruct (decide (name = "disk")) as [->|Hd].
    { rewrite (bool_decide_eq_true_2 (_ /\ "disk" = "disk")) by done.
      rewrite (bool_decide_eq_false_2 (_ /\ "mem" = "disk"))
        by (intros [_ ?]; discriminate).
      rewrite (bool_decide_eq_false_2 (_ /\ "cpus" = "disk"))
        by (intros [_ ?]; discriminate).
      rewrite bool_decide_eq_true_2
        by (split; [done|do 2 apply list_elem_of_further;
                         apply list_elem_of_here]).
      rewrite demand_disk. reflexivity. }
    rewrite (bool_decide_eq_false_2 (_ /\ "disk" = name))
      by (intros [_ ?]; congruence).
    destruct (decide (name = "mem")) as [->|Hm].
    { rewrite (bool_decide_eq_true_2 (_ /\ "mem" = "mem")) by done.
      rewrite (bool_decide_eq_false_2 (_ /\ "cpus" = "mem"))
        by (intros [_ ?]; discriminate).
      rewrite bool_decide_eq_true_2
        by (split; [done|apply list_elem_of_further, list_elem_of_here]).
      rewrite demand_mem. reflexivity. }
    rewrite (bool_decide_eq_false_2 (_ /\ "mem" = name))
      by (intros [_ ?]; congruence).
    destruct (decide (name = "cpus")) as [->|Hc].
    { rewrite (bool_decide_eq_true_2 (_ /\ "cpus" = "cpus")) by done.
      rewrite bool_decide_eq_true_2
        by (split; [done|apply list_elem_of_here]).
      rewrite demand_cpus. reflexivity. }
    rewrite (bool_decide_eq_false_2 (_ /\ "cpus" = name))
      by (intros [_ ?]; congruence).
    rewrite bool_decide_eq_false_2; [reflexivity|].
    intros [_ Hin].
    repeat (apply elem_of_cons in Hin; destruct Hin as [->|Hin]);
      try contradiction.
    by apply elem_of_nil in Hin.
  - rewrite !bool_decide_eq_false_2 by (intros [? _]; congruence).
    reflexivity.
Qed.

Lemma CanTakeTask_role (s : gmap string (gmap string float)) (t : TaskInfo)
    (role : string) :
  is_Some (snd (CanTakeTask s t) !! role) <-> is_Some (s !! role).
Proof.
  destruct (fst (CanTakeTask s t)) eqn:E.
  - apply CanTakeTask_true_iff in E. destruct E as [Hs _].
    unfold CanTakeTask. cbv zeta. destruct (forallb _ _); [|reflexivity].
    unfold ConvertToMesosTaskInfo, snd at 1. simpl fold_left.
    rewrite !put_role. split; [|tauto].
    intros [<-|[<-|[<-|H]]]; assumption.
  - by rewrite CanTakeTask_false.
Qed.

(** X26. [CanTakeTask] accepts a task exactly when the summary has the
    default role and, under it, none of cpus, mem and disk compares below
    the task's limit with the float64 [<] (so a NaN on either side is
    accepted); it then replaces these three entries of the default role by
    the float64 difference, entry minus limit, and touches no other role
    or name; when it refuses it leaves the summary as it was. *)
Theorem CanTakeTask_spec (s : gmap string (gmap string float))
    (t : TaskInfo) :
  (fst (CanTakeTask s t) = true
   <-> is_Some (s !! "*")
       /\ forall name, name ∈ ["cpus"; "mem"; "disk"] ->
            PrimFloat.ltb (get s "*" name) (demand name t) = false)
  /\ (fst (CanTakeTask s t) = true ->
      forall role name,
        get (snd (CanTakeTask s t)) role name
        = if bool_decide (role = "*" /\ name ∈ ["cpus"; "mem"; "disk"])
          then PrimFloat.sub (get s role name) (demand name t)
          else get s role name)
  /\ (fst (CanTakeTask s t) = false -> snd (CanTakeTask s t) = s).
Proof.
  split; [apply CanTakeTask_true_iff|].
  split; [intros H role name; by apply CanTakeTask_get|].
  apply CanTakeTask_false.
Qed.

(** The loop of [assignTasksToOffer]: it takes a prefix of the tasks it
    looks at, leaves of each entry what the subtractions leave, and stops
    only at a task that [CanTakeTask] refuses. *)
Lemma takeLoop_inv (fromLast : list TaskInfo) :
  forall (remain : gmap string (gmap string float)) (sel : list TaskInfo),
  exists taken,
    snd (fst (takeLoop remain fromLast sel)) = (sel ++ taken)%list
    /\ fromLast = (taken ++ snd (takeLoop remain fromLast sel))%list
    /\ (forall name, name ∈ ["cpus"; "mem"; "disk"] ->
          get (fst (fst (takeLoop remain fromLast sel))) "*" name
          = leftAfter name taken (get remain "*" name))
    /\ (is_Some (fst (fst (takeLoop remain fromLast sel)) !! "*")
        <-> is_Some (remain !! "*"))
    /\ (forall t rest,
          snd (takeLoop remain fromLast sel) = t :: rest ->
          fst (CanTakeTask (fst (fst (takeLoop remain fromLast sel))) t)
          = false).
Proof.
  induction fromLast as [|t rest IH]; intros remain sel.
  - exists []. simpl. rewrite app_nil_r.
    split; [reflexivity|]. split; [reflexivity|].
    split; [reflexivity|]. split; [reflexivity|]. discriminate.
  - simpl takeLoop. cbv zeta.
    destruct (fst (CanTakeTask remain t)) eqn:E.
    + destruct (IH (snd (CanTakeTask remain t)) (sel ++ [t])%list)
        as (taken & Hsel & Hfrom & Hget & Hrole & Hleft).
      exists (t :: taken).
      split; [rewrite Hsel, <- app_assoc; reflexivity|].
      split; [simpl; congruence|].
      split.
      { intros name Hname. rewrite (Hget name Hname).
        rewrite (CanTakeTask_get remain t "*" name E).
        rewrite bool_decide_eq_true_2 by (split; [reflexivity|exact Hname]).
        reflexivity. }
      split; [rewrite Hrole; apply CanTakeTask_role|exact Hleft].
    + exists []. cbn [fst snd]. rewrite app_nil_r.
      rewrite (CanTakeTask_false remain t E).
      split; [reflexivity|]. split; [reflexivity|].
      split; [reflexivity|]. split; [reflexivity|].
      intros t0 rest0 H. by inversion H; subst.
Qed.

Section AssignProps.

Variable LaunchTasks : list OfferResource -> list TaskInfo -> option error.

Lemma assign_fields (tasks : list TaskInfo) (offer : list OfferResource) :
  returned (assignTasksToOffer LaunchTasks tasks offer)
  = rev (snd (takeLoop (GetOfferScalarResourceSummary offer) (rev tasks) []))
  /\ selected (assignTasksToOffer LaunchTasks tasks offer)
     = snd (fst (takeLoop (GetOfferScalarResourceSummary offer)
                          (rev tasks) []))
  /\ launch (assignTasksToOffer LaunchTasks tasks offer)
     = match selected (assignTasksToOffer LaunchTasks tasks offer) with
       | [] => None
       | _ :: _ =>
           Some (LaunchTasks offer
                   (selected (assignTasksToOffer LaunchTasks tasks offer)))
       end.
Proof.
  unfold assignTasksToOffer. cbv zeta.
  destruct (snd (fst (takeLoop _ _ _))) as [|t sel] eqn:E; simpl;
    by repeat split.
Qed.

(** X27. [assignTasksToOffer] takes tasks off the end of the slice: the slice
    it returns followed by the selected tasks in reverse is the slice it was
    given, whatever the launch call returns; the launcher is called exactly
    when a task was selected, with the selected tasks, and a launch error
    does not put them back. *)
Theorem assignTasksToOffer_takes_from_end (tasks : list TaskInfo)
    (offer : list OfferResource) :
  let a := assignTasksToOffer LaunchTasks tasks offer in
  tasks = (returned a ++ rev (selected a))%list
  /\ launch a = match selected a with
                | [] => None
                | _ :: _ => Some (LaunchTasks offer (selected a))
                end.
Proof.
  intros a. unfold a.
  destruct (assign_fields tasks offer) as (Hr & Hs & Hl).
  split; [|exact Hl]. rewrite Hr, Hs.
  destruct (takeLoop_inv (rev tasks) (GetOfferScalarResourceSummary offer) [])
    as (taken & Hsel & Hfrom & _).
  simpl in Hsel. rewrite Hsel. rewrite <- rev_app_distr, <- Hfrom.
  symmetry. apply rev_involutive.
Qed.

(** X29. The selection stops only at a task that does not fit: when a task
    is left at the end of the returned slice, either the offer has no
    scalar resource under the default role, or for one of cpus, mem and
    disk what the offer holds, less the limits of the selected tasks
    subtracted one after the other in float64, compares below that task's
    limit. *)
Theorem assignTasksToOffer_maximal (tasks : list TaskInfo)
    (offer : list OfferResource) (t : TaskInfo) :
  last (returned (assignTasksToOffer LaunchTasks tasks offer)) = Some t ->
  (forall r, r ∈ offer ->
             ResScalar r = None \/ default "*" (Role r) <> "*")
  \/ exists name,
       name ∈ ["cpus"; "mem"; "disk"]
       /\ PrimFloat.ltb
            (leftAfter name
               (selected (assignTasksToOffer LaunchTasks tasks offer))
               (offered "*" name offer))
            (demand name t) = true.
Proof.
  destruct (assign_fields tasks offer) as (Hr & Hs & _).
  rewrite Hr, Hs.
  destruct (takeLoop_inv (rev tasks) (GetOfferScalarResourceSummary offer) [])
    as (taken & Hsel & _ & Hget & Hrole & Hleft).
  simpl in Hsel. rewrite Hsel.
  destruct (snd (takeLoop _ _ _)) as [|t0 rest] eqn:E.
  { discriminate. }
  simpl rev. rewrite last_snoc. intros [= ->].
  specialize (Hleft t rest eq_refl).
  destruct (decide (is_Some (GetOfferScalarResourceSummary offer !! "*")))
    as [Hsome|Hnone].
  - right.
    assert (Hlt : forall name, name ∈ ["cpus"; "mem"; "disk"] ->
              PrimFloat.ltb
                (get (fst (fst (takeLoop (GetOfferScalarResourceSummary offer)
                                         (rev tasks) []))) "*" name)
                (demand name t)
              = PrimFloat.ltb (leftAfter name taken (offered "*" name offer))
                              (demand name t)).
    { intros name Hname. rewrite (Hget name Hname), summary_offered.
      reflexivity. }
    destruct (PrimFloat.ltb (leftAfter "cpus" taken (offered "*" "cpus" offer))
                            (demand "cpus" t)) eqn:Hc.
    { exists "cpus". split; [apply list_elem_of_here|exact Hc]. }
    destruct (PrimFloat.ltb (leftAfter "mem" taken (offered "*" "mem" offer))
                            (demand "mem" t)) eqn:Hm.
    { exists "mem".
      split; [apply list_elem_of_further, list_elem_of_here|exact Hm]. }
    destruct (PrimFloat.ltb (leftAfter "disk" taken
                                       (offered "*" "disk" offer))
                            (demand "disk" t)) eqn:Hd.
    { exists "disk".
      split; [do 2 apply list_elem_of_further; apply list_elem_of_here
             |exact Hd]. }
    exfalso.
    assert (Htrue : fst (CanTakeTask
              (fst (fst (takeLoop (GetOfferScalarResourceSummary offer)
                                  (rev tasks) []))) t) = true).
    { apply CanTakeTask_true_iff. split; [by apply Hrole|].
      intros name Hname. rewrite (Hlt name Hname).
      repeat (apply elem_of_cons in Hname; destruct Hname as [->|Hname]);
        [assumption|assumption|assumption|by apply elem_of_nil in Hname]. }
    congruence.
  - left. intros r Hr'.
    destruct (ResScalar r) as [value|] eqn:Er; [|by left]. right.
    intros Hdef. apply Hnone.
    unfold GetOfferScalarResourceSummary. apply summary_fold_role.
    right. exists r. split; [exact Hr'|]. split; [rewrite Er; by eexists|].
    exact Hdef.
Qed.

End AssignProps.

End SchedProps.

Example assignTasksToOffer_sample :
  let a := sched.assignTasksToOffer sched.launchFails sched.sampleTasks
             sched.sampleOffer in
  sched.selected a
  = [sched.taskOf "c" 2%float 2%float 2%float;
     sched.taskOf "b" 1%float 1%float 1%float]
  /\ sched.returned a = [sched.taskOf "a" 2%float 2%float 2%float]
  /\ sched.launch a = Some (Some "launch failed").
Proof. vm_compute. repeat split. Qed.

(** Rounding decides: 1 - 0.3 - 0.3 in float64 is just below 0.4, so the
    task of 0.4 cpus is refused although the three limits add up to the
    offer; and ten subtractions of 0.1 from 1 leave less than 0.1 but the
    tenth of them is still granted. *)
Example assignTasksToOffer_rounding :
  sched.selected
    (sched.assignTasksToOffer sched.launchFails sched.fractionTasks
       sched.unitOffer)
  = [sched.taskOf "z" sched.f03 1%float 1%float;
     sched.taskOf "y" sched.f03 1%float 1%float]
  /\ length
       (sched.selected
          (sched.assignTasksToOffer sched.launchFails
             (repeat (sched.taskOf "t" sched.f01 0%float 0%float) 10)
             sched.unitOffer)) = 10%nat.
Proof. vm_compute. repeat split. Qed.

Lemma assignTasksToOffer_maximal_witness :
  (forall r, r ∈ sched.unitOffer ->
             sched.ResScalar r = None
             \/ default "*" (sched.Role r) <> "*")
  \/ exists name,
       name ∈ ["cpus"; "mem"; "disk"]
       /\ PrimFloat.ltb
            (sched.leftAfter name
               (sched.selected
                  (sched.assignTasksToOffer sched.launchFails
                     sched.fractionTasks sched.unitOffer))
               (sched.offered "*" name sched.unitOffer))
            (sched.demand name (sched.taskOf "x" sched.f04 1%float 1%float))
          = true.
Proof.
  apply (assignTasksToOffer_maximal sched.launchFails sched.fractionTasks
           sched.unitOffer (sched.taskOf "x" sched.f04 1%float 1%float)).
  vm_compute. reflexivity.
Defined.

(** ** Creating a job *)

Section CreateJobProps.

Import master_job.

Variable NewUUID : N -> string.

(** The loop of [Create] over distinct instances, from any world. *)
Lemma createTasks_inv (jobId : string) (cfg : JobConfig)
    (instances : list N) : forall w,
  NoDup instances ->
  job (createTasks NewUUID w jobId cfg instances) = job w
  /\ queue (createTasks NewUUID w jobId cfg instances)
     = (queue w
        ++ ((fun i => [taskFor NewUUID jobId cfg i])
              <$> filter (fun i =>
                            (i ∉ createFault w)
                            /\ enqueueFails w [taskFor NewUUID jobId cfg i]
                               = false)
                         instances))%list
  /\ (forall i, i ∉ instances \/ i ∈ createFault w ->
        tasks (createTasks NewUUID w jobId cfg instances) !! i
        = tasks w !! i)
  /\ (forall i, i ∈ instances -> i ∉ createFault w ->
        tasks (createTasks NewUUID w jobId cfg instances) !! i
        = Some (taskFor NewUUID jobId cfg i)).
Proof.
  induction instances as [|i rest IH]; intros w Hnd.
  - simpl. split; [reflexivity|].
    split; [by rewrite app_nil_r|].
    split; [reflexivity|]. intros i Hi. by apply elem_of_nil in Hi.
  - apply NoDup_cons in Hnd. destruct Hnd as [Hi Hnd].
    simpl createTasks. unfold CreateTask.
    destruct (bool_decide (i ∈ createFault w)) eqn:Hf.
    + apply bool_decide_eq_true_1 in Hf.
      destruct (IH w Hnd) as (Hj & Hq & Hold & Hnew).
      split; [exact Hj|].
      split.
      { rewrite Hq. rewrite filter_cons_False by tauto. reflexivity. }
      split.
      { intros k [Hk|Hk]; apply Hold; [left|by right].
        intros Hin. apply Hk. by apply list_elem_of_further. }
      intros k Hk Hkf. apply elem_of_cons in Hk.
      destruct Hk as [->|Hk]; [contradiction|]. by apply Hnew.
    + apply bool_decide_eq_false_1 in Hf.
      set (t := taskFor NewUUID jobId cfg i).
      set (w1 := set_tasks (<[i := t]> (tasks w)) w).
      assert (Htasks : forall w2,
                tasks w2 = tasks w1 -> createFault w2 = createFault w ->
                (forall k, k ∉ rest \/ k ∈ createFault w2 ->
                   tasks (createTasks NewUUID w2 jobId cfg rest) !! k
                   = tasks w2 !! k) ->
                (forall k, k ∈ rest -> k ∉ createFault w2 ->
                   tasks (createTasks NewUUID w2 jobId cfg rest) !! k
                   = Some (taskFor NewUUID jobId cfg k)) ->
                (forall k, k ∉ i :: rest \/ k ∈ createFault w ->
                   tasks (createTasks NewUUID w2 jobId cfg rest) !! k
                   = tasks w !! k)
                /\ (forall k, k ∈ i :: rest -> k ∉ createFault w ->
                      tasks (createTasks NewUUID w2 jobId cfg rest) !! k
                      = Some (taskFor NewUUID jobId cfg k))).
      { intros w2 Ht Hc Hold Hnew. rewrite Hc in Hold, Hnew. split.
        - intros k Hk. rewrite Hold.
          + rewrite Ht. simpl. apply lookup_insert_ne. intros <-.
            destruct Hk as [Hk|Hk]; [|contradiction].
            apply Hk. apply list_elem_of_here.
          + destruct Hk as [Hk|Hk]; [left|by right].
            intros Hin. apply Hk. by apply list_elem_of_further.
        - intros k Hk Hkf. apply elem_of_cons in Hk.
          destruct Hk as [->|Hk]; [|by apply Hnew].
          rewrite Hold by (by left). rewrite Ht. simpl.
          apply lookup_insert_eq. }
      unfold putTasks.
      destruct (enqueueFails w1 [t]) eqn:Hq1; cbn [fst].
      * destruct (IH w1 Hnd) as (Hj & Hq & Hold & Hnew).
        split; [exact Hj|].
        split.
        { rewrite Hq. simpl in Hq1. fold t.
          rewrite filter_cons_False
            by (intros [_ H]; unfold t in Hq1; simpl in H; congruence).
          reflexivity. }
        by apply (Htasks w1).
      * set (w2 := set_queue (queue w1 ++ [[t]])%list w1).
        destruct (IH w2 Hnd) as (Hj & Hq & Hold & Hnew).
        split; [exact Hj|].
        split.
        { rewrite Hq. simpl in Hq1. fold t.
          rewrite filter_cons_True by (split; [exact Hf|exact Hq1]).
          simpl. rewrite <- app_assoc. reflexivity. }
        by apply (Htasks w2).
Qed.

(** X30. [Create] answers AlreadyExists, with the store's message, for any
    failure of the job creation, and then creates and enqueues nothing.
    Once the job is created it always answers with the job id, however
    many task creations or enqueue calls fail: an instance whose task
    creation fails is skipped, every other instance below the instance
    count gets its INITIALIZED task stored, and the queue gains, in
    instance order, one slice for each stored task whose enqueue call
    went through. *)
Theorem Create_partial_failure (w : World) (jobId : string)
    (cfg : JobConfig) :
  (forall e, jobFault w = Some e ->
     Create NewUUID w jobId cfg = (w, AlreadyExists jobId e))
  /\ (jobFault w = None ->
      snd (Create NewUUID w jobId cfg) = Result jobId
      /\ job (fst (Create NewUUID w jobId cfg)) = Some cfg
      /\ (forall i, (InstanceCount cfg <= i)%N \/ i ∈ createFault w ->
            tasks (fst (Create NewUUID w jobId cfg)) !! i = tasks w !! i)
      /\ (forall i, (i < InstanceCount cfg)%N -> i ∉ createFault w ->
            tasks (fst (Create NewUUID w jobId cfg)) !! i
            = Some (taskFor NewUUID jobId cfg i))
      /\ queue (fst (Create NewUUID w jobId cfg))
         = (queue w
            ++ ((fun i => [taskFor NewUUID jobId cfg i])
                  <$> filter
                        (fun i =>
                           (i ∉ createFault w)
                           /\ enqueueFails w [taskFor NewUUID jobId cfg i]
                              = false)
                        (recovery.instanceRange 0 (InstanceCount cfg))))%list).
Proof.
  unfold Create, CreateJob. split.
  - intros e ->. reflexivity.
  - intros ->. cbn [fst snd].
    destruct (createTasks_inv jobId cfg
                (recovery.instanceRange 0 (InstanceCount cfg))
                (set_job cfg w) (NoDup_instanceRange _ _))
      as (Hj & Hq & Hold & Hnew).
    split; [reflexivity|]. split; [exact Hj|].
    split.
    { intros i Hi. rewrite Hold; [reflexivity|].
      destruct Hi as [Hi|Hi]; [left|by right].
      rewrite elem_of_instanceRange. lia. }
    split.
    { intros i Hi Hf. apply Hnew; [|exact Hf].
      apply elem_of_instanceRange. lia. }
    exact Hq.
Qed.

(** Three instances, the creation of instance 1 and every enqueue call
    fail: [Create] still answers with the job id. *)
Example Create_brokenWorld :
  let r := Create NewUUID brokenWorld "J" {| InstanceCount := 3 |} in
  snd r = Result "J"
  /\ tasks (fst r) !! 1%N = None
  /\ is_Some (tasks (fst r) !! 0%N)
  /\ is_Some (tasks (fst r) !! 2%N)
  /\ queue (fst r) = [].
Proof.
  cbv zeta. split; [reflexivity|]. split; [reflexivity|].
  split; [by eexists|]. split; [by eexists|]. reflexivity.
Qed.

End CreateJobProps.
